(** * moleculer-auto-openapi: the OpenAPI generator, embedded and verified

    A shallow embedding of [src/OpenApiGenerator.ts] and of the array mapper
    of [src/Converters/FastestValidatorConverter.ts].

    JavaScript values are modelled by the inductive type [value]; an object
    is the list of its own enumerable properties in insertion order (the
    order [Object.keys] and [Object.entries] report for keys that are not
    array indices).  Numbers are integers.  Methods of the generator class
    thread the instance fields and the logger through a state-and-error
    monad; a [throw] is the [Err] result. *)

From Stdlib Require Import ZArith Ascii String List Bool Lia.
From Stdlib Require Import Sorting.Sorted Sorting.Permutation.
From stdpp Require Import base tactics option list gmap strings pretty.

Local Open Scope string_scope.
Local Open Scope list_scope.

(** ** JavaScript values *)

Unset Elimination Schemes.
Inductive value : Type :=
| VUndef : value
| VNull : value
| VBool : bool -> value
| VNum : Z -> value
| VStr : string -> value
| VArr : list value -> value
| VObj : list (string * value) -> value.
Set Elimination Schemes.

(** The own properties of an object, in insertion order. *)
Definition props : Type := list (string * value).

Section value_induction.
Variable P : value -> Prop.
Hypothesis Hundef : P VUndef.
Hypothesis Hnull : P VNull.
Hypothesis Hbool : forall b, P (VBool b).
Hypothesis Hnum : forall n, P (VNum n).
Hypothesis Hstr : forall s, P (VStr s).
Hypothesis Harr : forall l, Forall P l -> P (VArr l).
Hypothesis Hobj : forall kvs, Forall (fun kv => P (snd kv)) kvs -> P (VObj kvs).

Fixpoint value_ind (v : value) : P v :=
  match v with
  | VUndef => Hundef
  | VNull => Hnull
  | VBool b => Hbool b
  | VNum n => Hnum n
  | VStr s => Hstr s
  | VArr l =>
      Harr l ((fix go (l : list value) : Forall P l :=
                 match l with
                 | [] => @Stdlib.Lists.List.Forall_nil _ P
                 | x :: l' => @Stdlib.Lists.List.Forall_cons _ P x l' (value_ind x) (go l')
                 end) l)
  | VObj kvs =>
      Hobj kvs ((fix go (kvs : props) : Forall (fun kv => P (snd kv)) kvs :=
                   match kvs with
                   | [] => @Stdlib.Lists.List.Forall_nil _ _
                   | kv :: kvs' =>
                       @Stdlib.Lists.List.Forall_cons _ (fun kv => P (snd kv)) kv kvs'
                         (value_ind (snd kv)) (go kvs')
                   end) kvs)
  end.
End value_induction.

(** [Boolean(v)]: the falsy values are [undefined], [null], [false], [0]
    and the empty string. *)
Definition truthy (v : value) : bool :=
  match v with
  | VUndef | VNull => false
  | VBool b => b
  | VNum n => negb (n =? 0)%Z
  | VStr s => negb (String.eqb s "")
  | VArr _ | VObj _ => true
  end.

(** [a ?? b] *)
Definition nullish (v : value) : bool :=
  match v with VUndef | VNull => true | _ => false end.

Definition coalesce (a b : value) : value := if nullish a then b else a.

(** [o.hasOwnProperty(k)] and [o[k]] on a property list. *)
Fixpoint js_lookup (k : string) (o : props) : option value :=
  match o with
  | [] => None
  | (k', v) :: o' => if String.eqb k k' then Some v else js_lookup k o'
  end.

Definition js_has (k : string) (o : props) : bool :=
  match js_lookup k o with Some _ => true | None => false end.

(** [v[k]] (and [v?.[k]]): [undefined] when [v] is not an object or has no
    such own property.  Property access on [null] or [undefined] without
    [?.] is handled at the call sites that can reach it. *)
Definition js_get (k : string) (v : value) : value :=
  match v with
  | VObj o => default VUndef (js_lookup k o)
  | _ => VUndef
  end.

(** [o[k] = v]: an existing key keeps its position, a new key goes last. *)
Fixpoint js_set (k : string) (v : value) (o : props) : props :=
  match o with
  | [] => [(k, v)]
  | (k', v') :: o' =>
      if String.eqb k k' then (k', v) :: o' else (k', v') :: js_set k v o'
  end.

(** [delete o[k]] *)
Definition js_delete (k : string) (o : props) : props :=
  List.filter (fun kv => negb (String.eqb k (fst kv))) o.

Definition js_keys (o : props) : list string := map fst o.

(** [Object.fromEntries(es)] *)
Definition js_fromEntries (es : list (string * value)) : props :=
  fold_left (fun acc kv => js_set (fst kv) (snd kv) acc) es [].

(** [{ ...a, ...b }] *)
Definition js_spread (a b : props) : props :=
  fold_left (fun acc kv => js_set (fst kv) (snd kv) acc) b a.

(** The own enumerable properties of a value: those of an object; the
    indexed elements of an array and the indexed characters of a string;
    none for the other values. *)
Definition indexed {A : Type} (f : A -> value) (l : list A) : list (string * value) :=
  imap (fun i x => (pretty i, f x)) l.

Definition props_of (v : value) : props :=
  match v with
  | VObj o => o
  | VArr l => indexed id l
  | VStr s => indexed (fun c => VStr (String c "")) (list_ascii_of_string s)
  | _ => []
  end.

Definition is_true (v : value) : bool :=
  match v with VBool true => true | _ => false end.

Definition str_of (v : value) : option string :=
  match v with VStr s => Some s | _ => None end.

(** ** Results: a [throw] is [Err] *)

Inductive result (A : Type) : Type :=
| Ok : A -> result A
| Err : string -> result A.
Arguments Ok {A} _.
Arguments Err {A} _.

Definition rbind {A B : Type} (r : result A) (f : A -> result B) : result B :=
  match r with Ok a => f a | Err e => Err e end.

Definition is_ok {A : Type} (r : result A) : bool :=
  match r with Ok _ => true | Err _ => false end.

(** [Object.entries(v)], which throws on [null] and [undefined]. *)
Definition js_entries (v : value) : result (list (string * value)) :=
  match v with
  | VUndef | VNull => Err "TypeError: Cannot convert undefined or null to object"
  | _ => Ok (props_of v)
  end.

(** [l.map(f)] for an [f] that may throw: the first failure aborts. *)
Definition rmap {A B : Type} (f : A -> result B) : list A -> result (list B) :=
  fix go (l : list A) : result (list B) :=
    match l with
    | [] => Ok []
    | x :: l' => rbind (f x) (fun y => rbind (go l') (fun ys => Ok (y :: ys)))
    end.

Notation "'do' x <- r ; k" := (rbind r (fun x => k))
  (at level 10, x pattern, r at level 100, k at level 200).

(** ** The constants of [constants.js]

    The module is not part of the sources at hand; its exports are taken as
    parameters of the development. *)

Class Constants : Type := {
  (** [EOAExtensions]: the four internal marker keys. *)
  EOA_optional : string;
  EOA_description : string;
  EOA_summary : string;
  EOA_deprecated : string;
  ALLOWING_BODY_METHODS : list string;
  BODY_PARSERS_CONTENT_TYPE : string -> option (list string);
  DEFAULT_CONTENT_TYPE : string;
  DEFAULT_MULTI_PART_FIELD_NAME : string;
  DEFAULT_SUMMARY_TEMPLATE : string;
  multiOAProperties : list string;
  UNRESOLVED_ACTION_NAME : string
}.

Section Extensions.
Context `{Constants}.

(** [Object.values(EOAExtensions)] *)
Definition EOAExtensions_values : list string :=
  [EOA_optional; EOA_description; EOA_summary; EOA_deprecated].

Definition is_extension (k : string) : bool :=
  existsb (String.eqb k) EOAExtensions_values.

(** The [forEach] of [removeExtensions]: one [delete] per marker key. *)
Definition delete_extensions (o : props) : props :=
  fold_left (fun acc ext => js_delete ext acc) EOAExtensions_values o.

(** [removeExtensions] (OpenApiGenerator.ts, 595-613).  [typeof null] is
    ['object'], and [Object.entries(null)] throws.  The recursion skips the
    marker keys while it walks the properties; [removeExtensions_object]
    below shows this is the source's delete-then-map. *)
Fixpoint removeExtensions (v : value) : result value :=
  match v with
  | VArr l =>
      do l' <- rmap removeExtensions l; Ok (VArr l')
  | VObj o =>
      do es <- (fix entries (o : props) : result (list (string * value)) :=
                  match o with
                  | [] => Ok []
                  | (k, x) :: o' =>
                      if is_extension k then entries o'
                      else do x' <- removeExtensions x;
                           do es <- entries o';
                           Ok ((k, x') :: es)
                  end) o;
      Ok (VObj (js_fromEntries es))
  | VNull => Err "TypeError: Cannot convert undefined or null to object"
  | _ => Ok v
  end.

(** No object of the tree, at any depth, has a marker key. *)
Fixpoint marker_free (v : value) : bool :=
  match v with
  | VArr l => forallb marker_free l
  | VObj o =>
      (fix all (o : props) : bool :=
         match o with
         | [] => true
         | (k, x) :: o' => negb (is_extension k) && marker_free x && all o'
         end) o
  | _ => true
  end.
End Extensions.

(** ** Strings *)

(** [s.split(sep)] for a one-character separator. *)
Fixpoint split_on (sep : ascii) (s : string) : list string :=
  match s with
  | EmptyString => [""]
  | String c s' =>
      if Ascii.eqb c sep then "" :: split_on sep s'
      else match split_on sep s' with
           | [] => [String c ""]
           | w :: ws => String c w :: ws
           end
  end.

(** [s.startsWith(p)] *)
Definition startsWith (p s : string) : bool := String.prefix p s.

Definition upper_char (c : ascii) : ascii :=
  let n := nat_of_ascii c in
  if (97 <=? n)%nat && (n <=? 122)%nat then ascii_of_nat (n - 32) else c.

(** [s.toUpperCase()] on the ASCII letters. *)
Fixpoint toUpperCase (s : string) : string :=
  match s with
  | EmptyString => EmptyString
  | String c s' => String (upper_char c) (toUpperCase s')
  end.

(** The character class [\w]. *)
Definition is_word_char (c : ascii) : bool :=
  let n := nat_of_ascii c in
  ((48 <=? n)%nat && (n <=? 57)%nat)
  || ((65 <=? n)%nat && (n <=? 90)%nat)
  || ((97 <=? n)%nat && (n <=? 122)%nat)
  || (n =? 95)%nat.

(** The longest prefix of word characters, and what follows it. *)
Fixpoint span_word (s : string) : string * string :=
  match s with
  | EmptyString => (EmptyString, EmptyString)
  | String c s' =>
      if is_word_char c then
        let '(w, rest) := span_word s' in (String c w, rest)
      else (EmptyString, s)
  end.

(** Modelled from the spec: [matchAll] of commons.js, which is not part of
    the sources at hand, applied to the pattern [/{(\w+)}/g] of
    [extractParamsFromUrl]: the capture group of every match, in order of
    appearance ("one ... per {name}-style placeholder found in the URL
    template, in order of appearance").  A match is an opening brace, the
    longest run of word characters, which must not be empty, and a closing
    brace; the scan resumes after the closing brace of a match, and one
    character further where there is none. *)
Fixpoint matchAll_placeholders (fuel : nat) (s : string) : list string :=
  match fuel with
  | O => []
  | S fuel' =>
      match s with
      | EmptyString => []
      | String c s' =>
          if Ascii.eqb c "{" then
            match span_word s' with
            | (String w0 w, String c' rest) =>
                if Ascii.eqb c' "}" then String w0 w :: matchAll_placeholders fuel' rest
                else matchAll_placeholders fuel' s'
            | _ => matchAll_placeholders fuel' s'
            end
          else matchAll_placeholders fuel' s'
      end
  end.

Definition placeholders (url : string) : list string :=
  matchAll_placeholders (String.length url) url.

(** [a.includes(k)] for an array of values and a string. *)
Definition includes_str (k : string) (a : list value) : bool :=
  existsb (fun v => match v with VStr s => String.eqb s k | _ => false end) a.

(** [Array.from(new Set(l))] on strings: first occurrences, in order. *)
Fixpoint uniq (l : list string) : list string :=
  match l with
  | [] => []
  | x :: l' => x :: List.filter (fun y => negb (String.eqb x y)) (uniq l')
  end.

(** ** Routes

    [objects/Alias.js] is not part of the sources at hand.  An alias is the
    record of what the generator reads from it; the two methods the
    generator calls, [isJokerAlias()] and [getPaths()], are represented by
    their results. *)

Record PathAction : Type := {
  method : string;          (** [pathAction.method] *)
  pa_action : value         (** [pathAction.action]: an object with a [name], or [undefined] *)
}.

(** [route.openApiService.settings.summaryTemplate]: a template string, a
    function of the template variables, absent, or anything else. *)
Inductive SummaryTemplate : Type :=
| TplUndefined : SummaryTemplate
| TplString : string -> SummaryTemplate
| TplFunction : (props -> result value) -> SummaryTemplate
| TplOther : SummaryTemplate.

Record Alias : Type := {
  fullPath : string;                 (** [alias.fullPath] *)
  action : option string;            (** [alias.action]: the bound action's name, or [undefined] *)
  type : option string;              (** [alias.type]: ['multipart'], ['stream'] or [undefined] *)
  actionSchema : value;              (** [alias.actionSchema]: [{ params, openapi }] *)
  openapi : value;                   (** [alias.openapi]: [{ pathParameters, queryParameters, requestBody }] *)
  busboyConfig : value;              (** [alias.busboyConfig] *)
  route : value;                     (** [alias.route], but for the summary template *)
  summaryTemplate : SummaryTemplate; (** [alias.route.openApiService.settings.summaryTemplate] *)
  isJokerAlias : bool;               (** [alias.isJokerAlias()] *)
  getPaths : list PathAction         (** [alias.getPaths()] *)
}.

(** [a?.b?.c] *)
Fixpoint js_path (ks : list string) (v : value) : value :=
  match ks with
  | [] => v
  | k :: ks' => js_path ks' (js_get k v)
  end.

(** [alias.route.apiService.settings?.openapi?.server] *)
Definition alias_server (alias : Alias) : value :=
  js_path ["apiService"; "settings"; "openapi"; "server"] (route alias).

(** ** Collaborators

    Code the generator calls into and that is not part of the sources at
    hand (commons.js, OpenApiMerger.js), the rule conversion it delegates to
    its converter, and two built-ins of the JavaScript runtime. *)

Class Collaborators : Type := {
  (** [normalizePath] of commons.js *)
  normalizePath : string -> string;
  (** [this.converter.getSchemaObjectFromRule(rule, parentProperties,
      parentSchema)]: the fragment, [undefined] for a rule that is omitted,
      or a throw. *)
  getSchemaObjectFromRule : value -> value -> value -> result value;
  (** [OpenApiMerger.merge(tagsMap, route, alias, action, openApiService,
      apiService)]: the merged documentation object, and the tag map as the
      call leaves it. *)
  OpenApiMerger_merge :
    gmap string value -> Alias -> PathAction -> result (value * gmap string value);
  (** [s.replace(new RegExp(pattern, 'g'), replacement)] *)
  String_replace : string -> string -> string -> string;
  (** [s.trim()] *)
  String_trim : string -> string
}.

(** ** The converter (FastestValidatorConverter.ts) *)

Section Converter.
Context `{Collaborators}.

(** [getValidationRules] (53-55) *)
Definition getValidationRules (schema : value) : result props :=
  do es <- js_entries schema;
  Ok (js_fromEntries (List.filter (fun kv => negb (startsWith "$$" (fst kv))) es)).

(** [getMetas] (57-59) *)
Definition getMetas (schema : value) : result props :=
  do es <- js_entries schema;
  Ok (js_fromEntries (List.filter (fun kv => startsWith "$$" (fst kv)) es)).

(** [getSchemaObjectFromSchema] (61-73).  The [filter(Boolean)] keeps
    every entry: its operands are two-element arrays, which are truthy. *)
Definition getSchemaObjectFromSchema (schema : value) : result props :=
  do rules <- getValidationRules schema;
  do es <- rmap (fun kv =>
                   do f <- getSchemaObjectFromRule (snd kv) VUndef schema;
                   Ok (fst kv, f)) rules;
  Ok (js_fromEntries es).

(** [getSchemaObjectFromRootSchema] (75-83) *)
Definition getSchemaObjectFromRootSchema (schema : value) : result value :=
  if is_true (js_get "$$root" schema) then
    getSchemaObjectFromRule (VObj (js_delete "$$root" (props_of schema))) VUndef VUndef
  else Err "this function only support $$root objects".
End Converter.

(** *** The array mapper (149-169)

    [getFastestValidatorMappers] receives the converter's two entry points
    as [MappersOptions]; so does the embedding. *)

Record MappersOptions : Type := {
  opt_getSchemaObjectFromRule : value -> value -> value -> result value;
  opt_getSchemaObjectFromSchema : value -> result value
}.

Definition array_mapper (opts : MappersOptions) (rule : value) : result value :=
  do converted <-
    (if truthy (js_get "items" rule)
     then opt_getSchemaObjectFromRule opts (js_get "items" rule)
            (VObj [("enum", js_get "enum" rule)]) VUndef
     else Ok VUndef);
  let itemsSchema := coalesce converted (VObj []) in
  let schema :=
    [("type", VStr "array");
     ("examples",
       if truthy (js_get "default" rule) then VArr [js_get "default" rule] else VUndef);
     ("uniqueItems", js_get "unique" rule);
     ("default", js_get "default" rule);
     ("items", itemsSchema)] in
  Ok (VObj
        (if truthy (js_get "length" rule)
         then js_set "minItems" (js_get "length" rule)
                (js_set "maxItems" (js_get "length" rule) schema)
         else js_set "minItems" (js_get "min" rule)
                (js_set "maxItems" (js_get "max" rule) schema))).

(** ** The generator (OpenApiGenerator.ts)

    The state of an [OpenApiGenerator] instance: its two mutable fields and
    the warnings its logger has received, oldest first. *)

Record Generator : Type := mkGenerator {
  components : props;      (** [this.components] *)
  document : props;        (** [this.document] *)
  warnings : list string   (** [this.logger.warn(...)] *)
}.

(** [this.components] as the field initialiser leaves it (29-40). *)
Definition initial_components : props :=
  [("schemas", VObj []); ("responses", VObj []); ("parameters", VObj []);
   ("examples", VObj []); ("requestBodies", VObj []); ("headers", VObj []);
   ("securitySchemes", VObj []); ("links", VObj []); ("callbacks", VObj []);
   ("pathItems", VObj [])].

(** [new OpenApiGenerator(logger, validator, baseDocument)] (44-52) *)
Definition new_generator (baseDocument : props) : Generator :=
  mkGenerator initial_components baseDocument [].

(** A method: it reads and updates the instance, and returns or throws. *)
Definition M (A : Type) : Type := Generator -> result (A * Generator).

Definition ret {A : Type} (a : A) : M A := fun g => Ok (a, g).

Definition bind {A B : Type} (m : M A) (f : A -> M B) : M B :=
  fun g => match m g with
           | Ok (a, g') => f a g'
           | Err e => Err e
           end.

Definition throw {A : Type} (e : string) : M A := fun _ => Err e.

Definition lift {A : Type} (r : result A) : M A :=
  fun g => match r with Ok a => Ok (a, g) | Err e => Err e end.

Definition warn (msg : string) : M unit :=
  fun g => Ok (tt, mkGenerator (components g) (document g) (warnings g ++ [msg])).

Definition get_components : M props := fun g => Ok (components g, g).

Definition put_components (c : props) : M unit :=
  fun g => Ok (tt, mkGenerator c (document g) (warnings g)).

Notation "'let*' x ':=' m 'in' k" := (bind m (fun x => k))
  (at level 10, x pattern, m at level 100, k at level 200).

(** [l.map(f)] and [l.forEach(f)] for a callback that is a method. *)
Definition mmap {A B : Type} (f : A -> M B) : list A -> M (list B) :=
  fix go (l : list A) : M (list B) :=
    match l with
    | [] => ret []
    | x :: l' => let* y := f x in let* ys := go l' in ret (y :: ys)
    end.

Definition mfold {A S : Type} (f : S -> A -> M S) : list A -> S -> M S :=
  fix go (l : list A) (s : S) : M S :=
    match l with
    | [] => ret s
    | x :: l' => let* s' := f s x in go l' s'
    end.

(** [v[k]] where [v] may be [null] or [undefined], on which it throws. *)
Definition js_member (k : string) (v : value) : result value :=
  match v with
  | VUndef | VNull => Err "TypeError: Cannot read properties of undefined or null"
  | _ => Ok (js_get k v)
  end.

(** [v == true].  The markers the converter writes are booleans; of the
    other values that are loosely equal to [true], the number [1] and the
    string ["1"] are recognised. *)
Definition loose_eq_true (v : value) : bool :=
  match v with
  | VBool b => b
  | VNum n => (n =? 1)%Z
  | VStr s => String.eqb s "1"
  | _ => false
  end.

Definition eq_str (s : string) (v : value) : bool :=
  match v with VStr s' => String.eqb s' s | _ => false end.

(** The own property [k] of a value, as [hasOwnProperty] and the indexing
    that follows it see it. *)
Definition own_property (k : string) (v : value) : option value :=
  match v with
  | VObj o => js_lookup k o
  | VArr l =>
      if String.eqb k "length" then Some (VNum (Z.of_nat (length l)))
      else i ← list_find (fun i => bool_decide (pretty i = k)) (seq 0 (length l));
           l !! (fst i)
  | VStr s =>
      if String.eqb k "length" then Some (VNum (Z.of_nat (String.length s)))
      else i ← list_find (fun i => bool_decide (pretty i = k)) (seq 0 (String.length s));
           c ← String.get (fst i) s; Some (VStr (String c ""))
  | _ => None
  end.

(** [(v ?? []).length > 0] for [v] an array, as the stored components have
    it, a string, or an object with a numeric [length]. *)
Definition nonempty (v : value) : bool :=
  match coalesce v (VArr []) with
  | VArr l => negb (Nat.eqb (length l) 0)
  | VStr s => negb (Nat.eqb (String.length s) 0)
  | VObj o => match js_lookup "length" o with
              | Some (VNum n) => (0 <? n)%Z
              | _ => false
              end
  | _ => false
  end.

(** The nesting depth of a value. *)
Fixpoint value_depth (v : value) : nat :=
  match v with
  | VArr l => S (fold_right (fun x n => Nat.max (value_depth x) n) 0%nat l)
  | VObj o =>
      S ((fix go (o : props) : nat :=
            match o with
            | [] => 0%nat
            | (_, x) :: o' => Nat.max (value_depth x) (go o')
            end) o)
  | _ => 0%nat
  end.

(** What the fuel-indexed recursion below answers when its fuel is spent. *)
Definition out_of_fuel : string := "out of fuel".

(** [v[k] = x] in strict mode: it throws on [null], [undefined] and the
    primitives.  A named property of an array has no representation and is
    not recorded. *)
Definition js_assign (k : string) (x : value) (v : value) : result value :=
  match v with
  | VObj o => Ok (VObj (js_set k x o))
  | VArr l => Ok (VArr l)
  | _ => Err "TypeError: Cannot create property"
  end.

Section ComponentStore.
Context `{Constants}.

(** [extractSystemParams] (586-593) *)
Definition extractSystemParams (obj : value) : props :=
  [("optional", js_get EOA_optional obj);
   ("description", js_get EOA_description obj);
   ("summary", js_get EOA_summary obj);
   ("deprecated", js_get EOA_deprecated obj)].

Definition schema_warning (schemeName : string) : string :=
  "Generator - schema " +:+ schemeName +:+ " already exist and will be overwrite".

Definition schema_ref (schemeName : string) : value :=
  VObj [("$ref", VStr ("#/components/schemas/" +:+ schemeName))].

(** The component [_createSchemaComponentFromObject] stores (508-513). *)
Definition object_component (properties : props) (required : list string)
    (customProperties : value) : value :=
  VObj [("type", VStr "object");
        ("properties", VObj properties);
        ("required",
          if Nat.ltb 0 (length required) then VArr (map VStr required) else VUndef);
        ("default", js_get "default" customProperties)].

(** The callback of the [map] at 494-501: the fields seen so far, with
    their parts, and the names pushed on [required]. *)
Definition component_field (part : string -> value -> M value) (schemeName : string)
    (acc : list (string * value) * list string) (field : string * value)
    : M (list (string * value) * list string) :=
  let '(fieldName, rule) := field in
  let* optional := lift (js_member EOA_optional rule) in
  let required := if loose_eq_true optional then snd acc else snd acc ++ [fieldName] in
  let* p := part (schemeName +:+ "." +:+ fieldName) rule in
  ret (fst acc ++ [(fieldName, p)], required).

(** [_createSchemaComponentFromObject] (483-518), over the function that
    converts a field.  [schemas[schemeName]] is read and assigned as an
    own property of the store, which is what the source does for every
    name that [Object.prototype] does not have. *)
Definition createSchemaComponentFromObject_with (part : string -> value -> M value)
    (schemeName : string) (obj : value) (customProperties : value) : M value :=
  let* c0 := get_components in
  let* _ := (if truthy (js_get "schemas" (VObj c0)) then ret tt
             else put_components (js_set "schemas" (VObj []) c0)) in
  let* fields := lift (js_entries obj) in
  let* (entries, required) := mfold (component_field part schemeName) fields ([], []) in
  let properties := js_fromEntries entries in
  let* c := get_components in
  let schemas := js_get "schemas" (VObj c) in
  let* _ := (if truthy (js_get schemeName schemas)
             then warn (schema_warning schemeName) else ret tt) in
  let* schemas' :=
    lift (js_assign schemeName (object_component properties required customProperties)
            schemas) in
  let* _ := put_components (js_set "schemas" schemas' c) in
  ret (schema_ref schemeName).

(** The callback of the [map] at 571-579, with the counter [i]. *)
Definition multi_member (part : string -> value -> M value) (nextSchemeName : string)
    (acc : list value * nat) (schema : value) : M (list value * nat) :=
  let* ty := lift (js_member "type" schema) in
  if eq_str "object" ty then
    let* p := part (nextSchemeName +:+ "." +:+ pretty (snd acc)) schema in
    ret (fst acc ++ [p], S (snd acc))
  else ret (fst acc ++ [schema], snd acc).

(** The callback of the [forEach] at 566-580. *)
Definition multi_property (part : string -> value -> M value) (nextSchemeName : string)
    (acc : value * nat) (property : string) : M (value * nat) :=
  let '(rule, i) := acc in
  if negb (truthy (js_get property rule)) then ret (rule, i)
  else match js_get property rule with
       | VArr schemas =>
           let* (mapped, i') := mfold (multi_member part nextSchemeName) schemas ([], i) in
           let* rule' := lift (js_assign property (VArr mapped) rule) in
           ret (rule', i')
       | _ => throw "TypeError: map is not a function"
       end.

(** The assignments at 541-545. *)
Definition assign_system_params (rule : value) : result value :=
  let systemParams := VObj (extractSystemParams rule) in
  do rule <- js_assign "description" (js_get "description" systemParams) rule;
  do rule <- js_assign "title" (js_get "summary" systemParams) rule;
  js_assign "deprecated" (js_get "deprecated" systemParams) rule.

(** [_createSchemaPartFromRule] (540-584).  The recursion follows the
    nesting of the fragment; the fuel bounds its depth. *)
Fixpoint createSchemaPartFromRule (fuel : nat) (nextSchemeName : string) (rule : value)
    : M value :=
  match fuel with
  | O => throw out_of_fuel
  | S fuel' =>
      let* rule := lift (assign_system_params rule) in
      if eq_str "object" (js_get "type" rule) && truthy (js_get "properties" rule) then
        let* ref :=
          createSchemaComponentFromObject_with (createSchemaPartFromRule fuel')
            nextSchemeName (js_get "properties" rule)
            (VObj [("default", js_get "default" rule)]) in
        ret (VObj (js_spread
                     [("summary", js_get "title" rule);
                      ("deprecated", js_get "deprecated" rule);
                      ("description", js_get "description" rule)]
                     (props_of ref)))
      else if eq_str "array" (js_get "type" rule) && truthy (js_get "items" rule) then
        let* items := createSchemaPartFromRule fuel' nextSchemeName (js_get "items" rule) in
        ret (VObj (js_set "items" items (props_of rule)))
      else if existsb (fun property => truthy (js_get property rule)) multiOAProperties then
        let* (rule', _) :=
          mfold (multi_property (createSchemaPartFromRule fuel') nextSchemeName)
            multiOAProperties (rule, 0%nat) in
        ret rule'
      else ret rule
  end.

Definition _createSchemaPartFromRule (nextSchemeName : string) (rule : value) : M value :=
  createSchemaPartFromRule (S (value_depth rule)) nextSchemeName rule.

Definition _createSchemaComponentFromObject (schemeName : string) (obj : value)
    (customProperties : value) : M value :=
  createSchemaComponentFromObject_with
    (createSchemaPartFromRule (S (value_depth obj))) schemeName obj customProperties.

(** [isReferenceObject] (411-413) *)
Definition isReferenceObject (component : value) : bool :=
  truthy (js_get "$ref" component).

(** [getComponentByRef] (427-443) *)
Definition getComponentByRef (path : value) : M value :=
  match path with
  | VStr path =>
      let pathSegments := List.filter (fun s => negb (String.eqb s "")) (split_on "/" path) in
      let* c := get_components in
      if Nat.ltb (length pathSegments) 4
         || negb (bool_decide (pathSegments !! 0%nat = Some "#"))
         || negb (bool_decide (pathSegments !! 1%nat = Some "components"))
         || negb (bool_decide (default "" (pathSegments !! 2%nat) ∈ js_keys c))
      then ret VUndef
      else ret (fold_left
                  (fun currentObject segment =>
                     if truthy currentObject
                     then default VUndef (own_property segment currentObject)
                     else VUndef)
                  (drop 2 pathSegments) (VObj c))
  | _ => throw "TypeError: path.split is not a function"
  end.

(** [getComponent] (415-425) *)
Definition getComponent (component : value) : M value :=
  if negb (isReferenceObject component) then ret component
  else
    let* refComponent := getComponentByRef (js_get "$ref" component) in
    if truthy refComponent then ret refComponent
    else throw "fail to get component".
End ComponentStore.

(** The property key a value is converted to.  The keys the generator
    computes are strings by their declared types. *)
Definition to_key (v : value) : string :=
  match v with
  | VStr s => s
  | VNum n => pretty n
  | VBool true => "true"
  | VBool false => "false"
  | VNull => "null"
  | VUndef => "undefined"
  | VArr _ | VObj _ => "[object Object]"
  end.

(** [x.map(f)] on a value: it throws when [x] is not an array. *)
Definition as_array (x : value) : result (list value) :=
  match x with
  | VArr l => Ok l
  | _ => Err "TypeError: map is not a function"
  end.

(** A string-or-undefined field as a value, and its truthiness. *)
Definition of_option (o : option string) : value :=
  match o with Some s => VStr s | None => VUndef end.

(** ** Parameter extraction *)

(** What [extractParameters] returns. *)
Record parametersExtracted : Type := {
  parameters : list value;
  requestBody : value
}.

Section ParameterExtractor.
Context `{Constants} `{Collaborators}.

(** [createRequestBodyFromParams] (445-462) *)
Definition createRequestBodyFromParams (rootSchemeName : string) (obj : value)
    (exclude : list value) (parentNode : value) : M value :=
  if is_true (js_get "$$root" obj) then lift (getSchemaObjectFromRootSchema obj)
  else
    let* rootRules := lift (getSchemaObjectFromSchema obj) in
    let rules :=
      js_fromEntries
        (List.filter (fun kv => negb (includes_str (fst kv) exclude) && truthy (snd kv))
           rootRules) in
    _createSchemaComponentFromObject rootSchemeName (VObj rules) parentNode.

(** The parameter [extractParamsFromUrl] builds for a placeholder. *)
Definition url_parameter (name : string) : value :=
  VObj [("name", VStr name); ("in", VStr "path"); ("required", VBool true);
        ("schema", VObj [("type", VStr "string")])].

(** [extractParamsFromUrl] (469-476) *)
Definition extractParamsFromUrl (url : string) : list value :=
  map url_parameter (placeholders url).

(** The first statement of [extractParameters] (211-216). *)
Definition pathParameters (path : string) (alias : Alias) : result (list value) :=
  if truthy (js_get "pathParameters" (openapi alias)) then
    do overrides <- as_array (js_get "pathParameters" (openapi alias));
    Ok (map (fun param => VObj (js_set "in" (VStr "path") (props_of param))) overrides)
  else Ok (extractParamsFromUrl path).

Definition binarySchema : value :=
  VObj [("type", VStr "string"); ("format", VStr "binary")].

(** The first member of the [allOf] of a multipart body (374-387). *)
Definition file_object (alias : Alias) : value :=
  let filesLimit :=
    coalesce (js_path ["limits"; "files"] (busboyConfig alias))
             (js_path ["busboyConfig"; "limits"; "files"] (route alias)) in
  let fileField :=
    coalesce (js_path ["openApiService"; "settings"; "multiPartFileFieldName"] (route alias))
             (VStr DEFAULT_MULTI_PART_FIELD_NAME) in
  VObj [("type", VStr "object");
        ("properties",
          VObj [(to_key fileField,
                 match filesLimit with
                 | VNum 1 => binarySchema
                 | _ => VObj [("type", VStr "array"); ("items", binarySchema);
                              ("maxItems", filesLimit)]
                 end)]);
        ("required", VArr [fileField])].

(** [generateFileUploadBody] (351-409) *)
Definition generateFileUploadBody (alias : Alias) (excluded : list value) : M value :=
  let typeBodyParser :=
    match type alias with
    | Some t => if String.eqb t "" then BODY_PARSERS_CONTENT_TYPE "multipart"
                else BODY_PARSERS_CONTENT_TYPE t
    | None => BODY_PARSERS_CONTENT_TYPE "multipart"
    end in
  let* schema :=
    (if bool_decide (type alias = Some "stream") then
       ret [("type", VStr "string"); ("format", VStr "binary")]
     else
       if is_true (js_path ["params"; "$$root"] (actionSchema alias)) then
         throw "$$root parameters is not supported on multipart"
       else
         let allOf := [file_object alias] in
         let* allOf :=
           (if truthy (of_option (action alias))
               && truthy (js_get "params" (actionSchema alias)) then
              let* paramsSchema :=
                createRequestBodyFromParams (default "" (action alias))
                  (coalesce (js_get "params" (actionSchema alias)) (VObj []))
                  excluded (VObj []) in
              ret (if truthy paramsSchema then allOf ++ [paramsSchema] else allOf)
            else ret allOf) in
         ret [("allOf", VArr allOf)]) in
  match typeBodyParser with
  | None => throw "TypeError: Cannot read properties of undefined"
  | Some contentTypes =>
      ret (VObj [("required", VBool true);
                 ("content",
                   VObj [(to_key (default VUndef (VStr <$> head contentTypes)),
                          VObj [("schema", VObj schema)])])])
  end.

(** [getParameters] (328-344) *)
Definition getParameters (method : string) (params : value) (body : bool) : result props :=
  let defaultInBody := bool_decide (method ∈ ALLOWING_BODY_METHODS) in
  do rules <- getValidationRules params;
  Ok (js_fromEntries
        (List.filter
           (fun kv =>
              let openApiInParameter := js_path ["$$oa"; "in"] (snd kv) in
              let inBody :=
                if truthy openApiInParameter then eq_str "body" openApiInParameter
                else defaultInBody in
              Bool.eqb inBody body)
           rules)).

(** The callback of the [forEach] at 236-272, on [result.parameters]. *)
Definition query_parameter (excluded : list value) (params : list value)
    (entry : string * value) : M (list value) :=
  let '(k, v) := entry in
  let* schema := lift (getSchemaObjectFromRule v VUndef VUndef) in
  if negb (truthy schema) then ret params
  else
    let* component := getComponent schema in
    let isObject := eq_str "object" (js_get "type" schema) in
    let schemaParameter :=
      [("name", VStr k);
       ("in", VStr "query");
       ("style", if isObject then VStr "deepObject" else VUndef);
       ("explode", if isObject then VBool true else VUndef);
       ("required",
         if is_true (js_get EOA_optional component) then VUndef else VBool true);
       ("schema", schema)] in
    if negb (includes_str k excluded) then ret (params ++ [VObj schemaParameter])
    else
      ret (map (fun parameter =>
                  if negb (eq_str k (js_get "name" parameter)) then parameter
                  else VObj (js_set "required" (VBool true)
                               (js_set "in" (VStr "path") schemaParameter)))
             params).

(** The content types of a generated body (292-299).  An array is never
    nullish, so the [?? [DEFAULT_CONTENT_TYPE]] of the source is never
    taken. *)
Definition contentTypes (alias : Alias) : result (list value) :=
  let bodyParsers := js_get "bodyParsers" (route alias) in
  do parsers <- js_entries (if truthy bodyParsers then bodyParsers else VObj []);
  let tmpContentTypes :=
    flat_map (fun kv => default [] (BODY_PARSERS_CONTENT_TYPE (fst kv)))
      (List.filter (fun kv => truthy (snd kv)) parsers) in
  Ok (if Nat.ltb 0 (length tmpContentTypes) then map VStr tmpContentTypes
      else [js_path ["openApiService"; "settings"; "defaultResponseContentType"]
              (route alias)]).

(** The body of an ordinary route without an explicit one (279-320). *)
Definition generated_body (method : string) (alias : Alias) (actionParams : value)
    (metas : props) (excluded : list value) : M value :=
  match action alias with
  | Some actionName =>
      if String.eqb actionName "" then throw "something is wrong"
      else
        let* bodyParameters := lift (getParameters method actionParams true) in
        if Nat.ltb 0 (length (js_keys bodyParameters)) then
          let currentBodyParameters := js_spread metas bodyParameters in
          let* schema :=
            createRequestBodyFromParams actionName (VObj currentBodyParameters)
              excluded (VObj []) in
          let* types := lift (contentTypes alias) in
          let* required :=
            (if isReferenceObject schema then
               let* schemaRef := getComponentByRef (js_get "$ref" schema) in
               if truthy schemaRef then ret (nonempty (js_get "required" schemaRef))
               else throw "fail to get schema from path"
             else ret false) in
          let openApiMetas := coalesce (js_get "$$oa" (VObj metas)) (VObj []) in
          ret (VObj [("description", js_get "description" openApiMetas);
                     ("summary", js_get "summary" openApiMetas);
                     ("required", VBool required);
                     ("content",
                       VObj (js_fromEntries
                               (map (fun contentType =>
                                       (to_key contentType, VObj [("schema", schema)]))
                                  types)))])
        else ret VUndef
  | None => throw "something is wrong"
  end.

(** [extractParameters] (210-326) *)
Definition extractParameters (method : string) (path : string) (alias : Alias)
    : M parametersExtracted :=
  let* pathParams := lift (pathParameters path alias) in
  let excluded := map (js_get "name") pathParams in
  if bool_decide (default "" (type alias) ∈ ["multipart"; "stream"]) then
    let* body :=
      (if truthy (js_get "requestBody" (openapi alias))
       then ret (js_get "requestBody" (openapi alias))
       else generateFileUploadBody alias excluded) in
    ret {| parameters := pathParams; requestBody := body |}
  else if truthy (js_get "queryParameters" (openapi alias))
          || truthy (js_get "requestBody" (openapi alias))
          || (truthy (js_get "params" (actionSchema alias))
              && truthy (of_option (action alias))) then
    let actionParams := coalesce (js_get "params" (actionSchema alias)) (VObj []) in
    let* metas := lift (getMetas actionParams) in
    let* params :=
      (if negb (truthy (js_get "queryParameters" (openapi alias))) then
         let* queryParameters := lift (getParameters method actionParams false) in
         mfold (query_parameter excluded) queryParameters pathParams
       else
         let* overrides := lift (as_array (js_get "queryParameters" (openapi alias))) in
         ret (map (fun param => VObj (js_set "in" (VStr "query") (props_of param)))
                overrides)) in
    let* body :=
      (if negb (truthy (js_get "requestBody" (openapi alias)))
       then generated_body method alias actionParams metas excluded
       else ret (js_get "requestBody" (openapi alias))) in
    ret {| parameters := params; requestBody := body |}
  else ret {| parameters := pathParams; requestBody := VUndef |}.
End ParameterExtractor.

(** ** Document assembly *)

(** [s.indexOf(sub, from)] and [s.slice(a, b)] for indices within the
    string. *)
Definition indexOf (sub : string) (from : nat) (s : string) : option nat :=
  String.index from sub s.

Definition slice (a b : nat) (s : string) : string := String.substring a (b - a) s.

Definition slice_from (a : nat) (s : string) : string :=
  String.substring a (String.length s - a) s.

(** [formatParamUrl] (525-538).  Every call rewrites the first [/:name]
    of the url; the fuel bounds the number of rewrites, and the length of
    the url is enough of it: [formatParamUrl_equation] below is the
    recursion of the source. *)
Fixpoint formatParamUrl_fuel (fuel : nat) (url : string) : string :=
  match indexOf "/:" 0 url with
  | None => url
  | Some start =>
      let start := S start in
      match indexOf "/" start url with
      | None => slice 0 start url +:+ "{" +:+ slice_from (S start) url +:+ "}"
      | Some end_ =>
          match fuel with
          | O => url
          | S fuel' =>
              formatParamUrl_fuel fuel'
                (slice 0 start url +:+ "{" +:+ slice (S start) end_ url +:+ "}"
                   +:+ slice_from end_ url)
          end
      end
  end.

Definition formatParamUrl (url : string) : string :=
  formatParamUrl_fuel (String.length url) url.

(** The url [formatParamUrl] recurses on. *)
Definition rewritten (start end_ : nat) (url : string) : string :=
  slice 0 start url +:+ "{" +:+ slice (S start) end_ url +:+ "}" +:+ slice_from end_ url.

(** The number of colons of a url, which bounds the rewrites. *)
Fixpoint colons (s : string) : nat :=
  match s with
  | EmptyString => 0
  | String c s' => (if Ascii.eqb c ":" then 1 else 0) + colons s'
  end.

(** Modelled from the spec: [getAlphabeticSorter(key)] of commons.js, which
    is not part of the sources at hand: the comparison function of "sort
    routes by full path, lexicographically ascending" and of "sort the
    global tag list alphabetically by name".  It orders two elements by the
    strings under [key], character code by character code. *)
Definition getAlphabeticSorter {A : Type} (key : A -> string) (a b : A) : comparison :=
  String.compare (key a) (key b).

(** [a.sort(compare)]: the sort of an array is stable; an element moves
    left past exactly those it is strictly smaller than. *)
Fixpoint sort_insert {A : Type} (compare : A -> A -> comparison) (x : A) (l : list A)
    : list A :=
  match l with
  | [] => [x]
  | y :: l' =>
      match compare x y with
      | Gt => y :: sort_insert compare x l'
      | _ => x :: y :: l'
      end
  end.

Definition Array_sort {A : Type} (compare : A -> A -> comparison) (l : list A) : list A :=
  fold_right (sort_insert compare) [] l.

(** [a === b] on the primitive values; the identity of two objects is not
    represented, and two objects compare different. *)
Definition strict_eq (a b : value) : bool :=
  match a, b with
  | VUndef, VUndef | VNull, VNull => true
  | VBool x, VBool y => Bool.eqb x y
  | VNum x, VNum y => (x =? y)%Z
  | VStr x, VStr y => String.eqb x y
  | _, _ => false
  end.

(** [v.length] *)
Definition js_length (v : value) : value :=
  match v with
  | VArr l => VNum (Z.of_nat (length l))
  | VStr s => VNum (Z.of_nat (String.length s))
  | _ => js_get "length" v
  end.

(** What [generate] keeps in local variables while it walks the routes. *)
Record Assembly : Type := mkAssembly {
  doc : props;                          (** [document] *)
  tagsMap : gmap string value;          (** [tagsMap] *)
  cachePathActions : gmap string value  (** [cachePathActions] *)
}.

Section Assembler.
Context `{Constants} `{Collaborators}.

(** [cleanComponents] (615-627) *)
Definition cleanComponents (components : value) : result props :=
  do sections <- js_entries (match components with VUndef => VObj [] | _ => components end);
  do cleaned <- rmap (fun kv =>
                        do es <- js_entries (snd kv);
                        Ok (fst kv,
                            VObj (js_fromEntries
                                    (List.filter (fun e => negb (strict_eq (snd e) (VBool false)))
                                       es)))) sections;
  Ok (js_fromEntries cleaned).

(** The callback of the [reduce] of [mergeComponents] (194-205). *)
Definition merge_section (c1 c2 : props) (acc : result props) (key : string)
    : result props :=
  do acc <- acc;
  do section <- js_entries (js_get key (VObj c2));
  if Nat.eqb (length (js_keys section)) 0 then Ok acc
  else Ok (js_set key
             (VObj (js_spread (props_of (js_get key (VObj c1)))
                      (props_of (js_get key (VObj c2)))))
             acc).

(** [mergeComponents] (192-208) *)
Definition mergeComponents (c1 c2 : props) : result props :=
  fold_left (merge_section c1 c2) (js_keys c2) (Ok c1).

(** [addServerToDocument] (182-190) *)
Definition addServerToDocument (document : props) (server : value) : result props :=
  let document :=
    if truthy (js_get "servers" (VObj document)) then document
    else js_set "servers" (VArr []) document in
  do servers <- as_array (js_get "servers" (VObj document));
  if existsb (fun srv => strict_eq (js_get "url" srv) (js_get "url" server)) servers
  then Ok document
  else Ok (js_set "servers" (VArr (servers ++ [server])) document).

(** The callback of the [forEach] of [handleTags] (636-641). *)
Definition register_tag (tags_map : gmap string value) (acc : result props) (tag : string)
    : result props :=
  do document <- acc;
  do docTags <- as_array (js_get "tags" (VObj document));
  let tagObject := default VUndef (tags_map !! tag) in
  if negb (existsb (fun t => eq_str tag (js_get "name" t)) docTags) && truthy tagObject
  then Ok (js_set "tags" (VArr (docTags ++ [tagObject])) document)
  else Ok document.

(** [handleTags] (629-644): the document and the tags of the operation.
    Tags are strings. *)
Definition handleTags (document : props) (tags_map : gmap string value) (tags : value)
    : result (props * list string) :=
  do tags <- as_array (match tags with VUndef => VArr [] | _ => tags end);
  let uniqTags := uniq (map to_key tags) in
  let document :=
    if truthy (js_get "tags" (VObj document)) then document
    else js_set "tags" (VArr []) document in
  do document <- fold_left (register_tag tags_map) uniqTags (Ok document);
  Ok (document, uniqTags).

(** The summary of an operation (148-167), from its initial value. *)
Definition operation_summary (alias : Alias) (openApi : value) (initial : value)
    : result value :=
  let templateVariables :=
    [("summary", coalesce (js_get "summary" openApi) (VStr ""));
     ("action", VStr (default UNRESOLVED_ACTION_NAME (action alias)));
     ("autoAlias",
       VStr (if truthy (js_get "autoAliases" (route alias)) then "[autoAlias]" else ""))] in
  let substitute template :=
    VStr (String_trim
            (fold_left
               (fun previous kv =>
                  String_replace ("{{" +:+ fst kv +:+ "}}")
                    (to_key (coalesce (snd kv) (VStr ""))) previous)
               templateVariables template)) in
  match summaryTemplate alias with
  | TplUndefined => Ok (substitute DEFAULT_SUMMARY_TEMPLATE)
  | TplString template => Ok (substitute template)
  | TplFunction f => f templateVariables
  | TplOther => Ok initial
  end.

(** The warning of a path and method that are taken (113-115). *)
Definition already_registered (method openapiPath : string) (actionFromCache : value)
    : string :=
  toUpperCase method +:+ " " +:+ openapiPath +:+ " is already register by action "
    +:+ to_key (coalesce actionFromCache (VStr "<unamedAction>")) +:+ " skip".

(** The guard at 101-105: the operation has servers, the route's service
    declares a server with a url, and no server of the operation has this
    url. *)
Definition adds_server (currentMethod : value) (alias : Alias) : result bool :=
  if truthy (js_length (js_get "servers" currentMethod))
     && truthy (js_get "url" (alias_server alias)) then
    do servers <- as_array (js_get "servers" currentMethod);
    Ok (negb (existsb
                (fun srv => strict_eq (js_get "url" srv) (js_get "url" (alias_server alias)))
                servers))
  else Ok false.

(** The operation of a path and method that are free (119-169). *)
Definition new_operation (alias : Alias) (openapiPath : string) (pathAction : PathAction)
    (a : Assembly) : M (value * Assembly) :=
  let cache :=
    <[ (openapiPath +:+ "." +:+ method pathAction) := js_get "name" (pa_action pathAction) ]>
      (cachePathActions a) in
  let* (openApi, tags_map) := lift (OpenApiMerger_merge (tagsMap a) alias pathAction) in
  let* extracted := extractParameters (method pathAction) openapiPath alias in
  let* declared := lift (js_member "components" openApi) in
  let* cleaned := lift (cleanComponents declared) in
  let* c := get_components in
  let* merged := lift (mergeComponents c cleaned) in
  let* _ := put_components merged in
  let* (document, uniqTags) := lift (handleTags (doc a) tags_map (js_get "tags" openApi)) in
  let initial := if isJokerAlias alias then VUndef else js_get "summary" openApi in
  let server := alias_server alias in
  let* document :=
    (if truthy server then lift (addServerToDocument document server) else ret document) in
  let* summary := lift (operation_summary alias openApi initial) in
  let openApiMethod :=
    [("summary", summary);
     ("description", if isJokerAlias alias then VUndef else js_get "description" openApi);
     ("operationId", js_get "operationId" openApi);
     ("servers", VArr (if truthy server then [server] else []));
     ("externalDocs", js_get "externalDocs" openApi);
     ("security", js_get "security" openApi);
     ("tags", VArr (map VStr uniqTags));
     ("parameters", VArr (parameters extracted));
     ("requestBody", requestBody extracted);
     ("responses", js_get "responses" openApi)] in
  ret (VObj openApiMethod, mkAssembly document tags_map cache).
End Assembler.

Section Generate.
Context `{Constants} `{Collaborators}.

(** The callback of the inner [forEach] (95-170), on [currentPath] and
    the local variables. *)
Definition path_action (alias : Alias) (openapiPath : string)
    (acc : value * Assembly) (pathAction : PathAction) : M (value * Assembly) :=
  let '(currentPath, a) := acc in
  let currentMethod := js_get (method pathAction) currentPath in
  if truthy currentMethod then
    let* add := lift (adds_server currentMethod alias) in
    if add then
      let server := alias_server alias in
      let* servers := lift (as_array (js_get "servers" currentMethod)) in
      let* currentMethod :=
        lift (js_assign "servers" (VArr (servers ++ [server])) currentMethod) in
      let* currentPath := lift (js_assign (method pathAction) currentMethod currentPath) in
      let* document := lift (addServerToDocument (doc a) server) in
      ret (currentPath, mkAssembly document (tagsMap a) (cachePathActions a))
    else
      let actionFromCache :=
        default VUndef
          (cachePathActions a !! (openapiPath +:+ "." +:+ method pathAction)) in
      let* _ := warn (already_registered (method pathAction) openapiPath actionFromCache) in
      ret (currentPath, a)
  else
    let* (openApiMethod, a) := new_operation alias openapiPath pathAction a in
    let* currentPath := lift (js_assign (method pathAction) openApiMethod currentPath) in
    ret (currentPath, a).

(** The path key of a route (87). *)
Definition openapiPath_of (alias : Alias) : string :=
  formatParamUrl (normalizePath (fullPath alias)).

(** The callback of the outer [forEach] (79-173). *)
Definition route_step (a : Assembly) (alias : Alias) : M Assembly :=
  let document :=
    if truthy (js_get "paths" (VObj (doc a))) then doc a
    else js_set "paths" (VObj []) (doc a) in
  let openapiPath := openapiPath_of alias in
  let currentPath :=
    coalesce (js_get openapiPath (js_get "paths" (VObj document))) (VObj []) in
  let* currentPath :=
    (if isJokerAlias alias then
       let* p := lift (js_assign "description"
                         (js_path ["openapi"; "description"] (actionSchema alias))
                         currentPath) in
       lift (js_assign "summary" (js_path ["openapi"; "summary"] (actionSchema alias)) p)
     else ret currentPath) in
  let* (currentPath, a) :=
    mfold (path_action alias openapiPath) (getPaths alias)
      (currentPath, mkAssembly document (tagsMap a) (cachePathActions a)) in
  let* paths := lift (js_assign openapiPath currentPath (js_get "paths" (VObj (doc a)))) in
  ret (mkAssembly (js_set "paths" paths (doc a)) (tagsMap a) (cachePathActions a)).

(** The start of [generate] (55-75), up to the sort. *)
Definition seed (openApiVersion : string) : M Assembly :=
  fun g =>
    let g :=
      if truthy (js_get "openapi" (VObj (document g))) then
        mkGenerator (components g) (js_delete "openapi" (document g))
          (warnings g ++ ["setting manually the openapi version is not supported"])
      else g in
    do cleaned <- cleanComponents (js_get "components" (VObj (document g)));
    let document :=
      js_set "components" (VObj cleaned)
        (js_set "tags" (VArr [])
           (js_set "servers" (VArr [])
              (js_spread [("openapi", VStr (openApiVersion +:+ ".0"))] (document g)))) in
    let document :=
      if truthy (js_get "responses" (VObj document)) then js_delete "responses" document
      else document in
    Ok (mkAssembly document ∅ ∅, g).

(** The end of [generate] (175-179). *)
Definition finish (a : Assembly) : M value :=
  let* document :=
    lift (match js_get "tags" (VObj (doc a)) with
          | VArr tags =>
              Ok (js_set "tags"
                    (VArr (Array_sort
                             (getAlphabeticSorter (fun t => to_key (js_get "name" t))) tags))
                    (doc a))
          | VUndef | VNull => Ok (doc a)
          | _ => Err "TypeError: sort is not a function"
          end) in
  let* c := get_components in
  let* merged := lift (mergeComponents (props_of (js_get "components" (VObj document))) c) in
  lift (removeExtensions (VObj (js_set "components" (VObj merged) document))).

(** [generate] (54-180): the caller's array as the call leaves it, and
    the document with the warnings logged so far, or the throw. *)
Definition generate (openApiVersion : string) (aliases : list Alias) (g : Generator)
    : list Alias * result (value * list string) :=
  match seed openApiVersion g with
  | Err e => (aliases, Err e)
  | Ok (a, g) =>
      let sorted := Array_sort (getAlphabeticSorter fullPath) aliases in
      (sorted,
        match (let* a := mfold route_step sorted a in finish a) g with
        | Ok (document, g) => Ok (document, warnings g)
        | Err e => Err e
        end)
  end.
End Generate.

(** ** A sample configuration

    A table of constants and a set of collaborators on which the embedding
    runs, for the examples below. *)

Module Sample.

#[export] Instance constants : Constants := {|
  EOA_optional := "x-fastest-optional";
  EOA_description := "x-fastest-description";
  EOA_summary := "x-fastest-summary";
  EOA_deprecated := "x-fastest-deprecated";
  ALLOWING_BODY_METHODS := ["put"; "patch"; "post"];
  BODY_PARSERS_CONTENT_TYPE := fun parser =>
    if String.eqb parser "json" then Some ["application/json"]
    else if String.eqb parser "urlencoded" then Some ["application/x-www-form-urlencoded"]
    else if String.eqb parser "text" then Some ["text/plain"]
    else if String.eqb parser "multipart" then Some ["multipart/form-data"]
    else if String.eqb parser "stream" then Some ["application/octet-stream"]
    else None;
  DEFAULT_CONTENT_TYPE := "application/json";
  DEFAULT_MULTI_PART_FIELD_NAME := "file";
  DEFAULT_SUMMARY_TEMPLATE := "{{summary}} ({{action}}){{autoAlias}}";
  multiOAProperties := ["oneOf"; "allOf"; "anyOf"];
  UNRESOLVED_ACTION_NAME := "unknown-action"
|}.

(** A converter for rules [{ type, optional }]: the fragment has the
    rule's type, and the optional marker when the rule is optional; a
    forbidden rule is omitted. *)
Definition convert (rule parentProperties parentSchema : value) : result value :=
  if eq_str "forbidden" (js_get "type" rule) then Ok VUndef
  else Ok (VObj (("type", js_get "type" rule)
                   :: if truthy (js_get "optional" rule)
                      then [("x-fastest-optional", VBool true)] else [])).

#[export] Instance collaborators : Collaborators := {|
  normalizePath := fun path => path;
  getSchemaObjectFromRule := convert;
  OpenApiMerger_merge := fun tags _ _ => Ok (VObj [("responses", VObj [])], tags);
  String_replace := fun _ _ s => s;
  String_trim := fun s => s
|}.

Definition rule (ty : string) : value := VObj [("type", VStr ty)].

(** A route of one method, bound to an action with the given parameters. *)
Definition alias (method path actionName : string) (params : value) : Alias := {|
  fullPath := path;
  action := Some actionName;
  type := None;
  actionSchema := VObj [("params", params)];
  openapi := VUndef;
  busboyConfig := VUndef;
  route := VObj [("apiService", VObj [("settings", VObj [])]);
                 ("openApiService", VObj [("settings", VObj [])])];
  summaryTemplate := TplUndefined;
  isJokerAlias := false;
  getPaths := [{| method := method;
                  pa_action := VObj [("name", VStr actionName)] |}]
|}.

(** The same, for a service that declares a server. *)
Definition server (url : string) : value := VObj [("url", VStr url)].

Definition alias_on (url method path actionName : string) (params : value) : Alias := {|
  fullPath := path;
  action := Some actionName;
  type := None;
  actionSchema := VObj [("params", params)];
  openapi := VUndef;
  busboyConfig := VUndef;
  route := VObj [("apiService",
                   VObj [("settings", VObj [("openapi", VObj [("server", server url)])])]);
                 ("openApiService", VObj [("settings", VObj [])])];
  summaryTemplate := TplUndefined;
  isJokerAlias := false;
  getPaths := [{| method := method;
                  pa_action := VObj [("name", VStr actionName)] |}]
|}.

(** A multipart upload bound to an action. *)
Definition upload (path actionName : string) (params : value) : Alias := {|
  fullPath := path;
  action := Some actionName;
  type := Some "multipart";
  actionSchema := VObj [("params", params)];
  openapi := VUndef;
  busboyConfig := VUndef;
  route := VObj [("apiService", VObj [("settings", VObj [])]);
                 ("openApiService", VObj [("settings", VObj [])])];
  summaryTemplate := TplUndefined;
  isJokerAlias := false;
  getPaths := [{| method := "post";
                  pa_action := VObj [("name", VStr actionName)] |}]
|}.

Definition base : props := [("info", VObj [("title", VStr "API")])].

Definition users : Alias :=
  alias "post" "/users/:id" "users.create"
    (VObj [("name", rule "string");
           ("age", VObj [("type", VStr "number"); ("optional", VBool true)])]).

Definition books : Alias :=
  alias "get" "/books" "books.list"
    (VObj [("q", VObj [("type", VStr "string"); ("optional", VBool true)])]).

(** The document of the two routes, in either order of registration. *)
Definition users_books_document : value :=
  Eval vm_compute in
    match snd (generate "3.1" [users; books] (new_generator base)) with
    | Ok (d, _) => d
    | Err _ => VUndef
    end.

(** Three routes of two services, each with a server of its own: the
    second and the third have the same path and method. *)
Definition two_zero : Alias := alias_on "https://two" "get" "/0" "two.zero" VUndef.
Definition one_a : Alias := alias_on "https://one" "get" "/a" "one.a" VUndef.
Definition two_a : Alias := alias_on "https://two" "get" "/a" "two.a" VUndef.

Definition get_two_a : PathAction :=
  {| method := "get"; pa_action := VObj [("name", VStr "two.a")] |}.

(** A base document that declares a component of the name the route
    [users] generates. *)
Definition base_with_component : props :=
  [("components",
     VObj [("schemas", VObj [("users.create", VObj [("type", VStr "string")])])])].

(** The store after a first registration of ["A"]. *)
Definition name_field : value := VObj [("name", rule "string")].

Definition registered_once : Generator :=
  Eval vm_compute in
    match _createSchemaComponentFromObject "A" name_field (VObj []) (new_generator []) with
    | Ok (_, g) => g
    | Err _ => new_generator []
    end.


(** What [extractParameters] returns for the route [users], and the
    store it leaves. *)
Definition users_extracted : parametersExtracted :=
  Eval vm_compute in
    match extractParameters "post" "/users/:id" users (new_generator []) with
    | Ok (r, _) => r
    | Err _ => {| parameters := []; requestBody := VUndef |}
    end.

Definition after_users : Generator :=
  Eval vm_compute in
    match extractParameters "post" "/users/:id" users (new_generator []) with
    | Ok (_, g) => g
    | Err _ => new_generator []
    end.

(** Two routes bound to the actions ["a"] and ["a/type"], and the store
    after the parameters of the first were extracted. *)
Definition a_route : Alias := alias "post" "/a" "a" (VObj [("x", rule "string")]).

Definition a_type_route : Alias :=
  alias "post" "/b" "a/type" (VObj [("name", rule "string")]).

Definition after_a : Generator :=
  Eval vm_compute in
    match extractParameters "post" "/a" a_route (new_generator []) with
    | Ok (_, g) => g
    | Err _ => new_generator []
    end.

End Sample.

(** ** Predicates and functions of the statements *)

(** The keys of an object after an assignment. *)
Definition add_key (k : string) (ks : list string) : list string :=
  if existsb (String.eqb k) ks then ks else ks ++ [k].

(** A tree without [null]. *)
Fixpoint null_free (v : value) : bool :=
  match v with
  | VNull => false
  | VArr l => forallb null_free l
  | VObj o =>
      (fix all (o : props) : bool :=
         match o with
         | [] => true
         | (_, x) :: o' => null_free x && all o'
         end) o
  | _ => true
  end.

Definition clean_entry `{Constants} (kv : string * value) : Prop :=
  is_extension (fst kv) = false /\ marker_free (snd kv) = true.

(** A url template: literal text without an opening brace, and
    placeholders. *)
Inductive chunk : Type :=
| Literal : string -> chunk
| Placeholder : string -> chunk.


Fixpoint names (t : list chunk) : list string :=
  match t with
  | [] => []
  | Literal _ :: t' => names t'
  | Placeholder name :: t' => name :: names t'
  end.

Fixpoint all_chars (p : ascii -> bool) (s : string) : bool :=
  match s with
  | EmptyString => true
  | String c s' => p c && all_chars p s'
  end.


(** The rule schema [extractParameters] reads the rules of the query
    from (229). *)
Definition actionParams (alias : Alias) : value :=
  coalesce (js_get "params" (actionSchema alias)) (VObj []).



(** "Ascending by full path": the order of the sort of [generate]. *)
Definition str_le (s1 s2 : string) : Prop := String.compare s1 s2 <> Gt.

Definition path_le (a b : Alias) : Prop := str_le (fullPath a) (fullPath b).

(** The path keys of a document, in the order of [Object.keys]. *)
Definition path_keys (document : value) : list string :=
  js_keys (props_of (js_get "paths" document)).

(** The keys of an object to which the keys [ks] are assigned in turn: each
    key stands where it was first assigned. *)
Definition first_occurrences (ks : list string) : list string :=
  fold_left (fun acc k => add_key k acc) ks [].

(** What a step of the assembly leaves of the local document: every key
    but [tags] and [servers], and the distinctness of the keys. *)
Definition doc_frame (d d' : props) : Prop :=
  (forall k, k <> "tags" -> k <> "servers" -> js_lookup k d' = js_lookup k d)
  /\ (List.NoDup (js_keys d) -> List.NoDup (js_keys d')).

(** The path keys the local document has after some routes: the keys of
    its [paths], which it lacks as long as the keys are none. *)
Definition paths_state (d : props) (ks : list string) : Prop :=
  List.NoDup (js_keys d) /\ List.NoDup ks
  /\ ((ks = [] /\ js_lookup "paths" d = None)
      \/ (exists paths, js_lookup "paths" d = Some (VObj paths) /\ js_keys paths = ks)).

(** ** The component store in the statements *)

(** [n] is [p] followed by something, possibly nothing. *)
Definition under (p n : string) : Prop := exists rest, n = p +:+ rest.

(** [this.components.schemas], and the component stored under a name. *)
Definition schemas_of (g : Generator) : value := js_get "schemas" (VObj (components g)).

Definition stored (name : string) (g : Generator) : value := js_get name (schemas_of g).

(** The names every object of the source inherits from
    [Object.prototype]: [o[name]] finds the inherited property when [o]
    has none of its own, and an assignment to [__proto__] stores no
    property.  The embedding has the own properties of an object; the
    statements about a name of the store are made for the other names. *)
Definition Object_prototype_names : list string :=
  ["constructor"; "__defineGetter__"; "__defineSetter__"; "hasOwnProperty";
   "__lookupGetter__"; "__lookupSetter__"; "isPrototypeOf"; "propertyIsEnumerable";
   "toString"; "valueOf"; "__proto__"; "toLocaleString"].

Definition inherited (name : string) : bool :=
  existsb (String.eqb name) Object_prototype_names.

(** The store as the class keeps it: [schemas] is an object. *)
Definition wf_store (g : Generator) : Prop :=
  exists s, schemas_of g = VObj s /\ List.NoDup (js_keys s).

(** Collision warnings, all for names under a prefix. *)
Definition schema_warnings_under (p : string) (ws : list string) : Prop :=
  Forall (fun w => exists n, under p n /\ w = schema_warning n) ws.

(** What a registration under the name [p] may change: the components
    stored under [p] and under the names that extend it, and the warnings,
    by collision warnings for such names. *)
Definition store_step (p : string) (g g' : Generator) : Prop :=
  wf_store g ->
  wf_store g'
  /\ document g' = document g
  /\ (exists ws, warnings g' = warnings g ++ ws /\ schema_warnings_under p ws)
  /\ (forall n, ~ under p n -> stored n g' = stored n g).

(** The fields whose fragments lack the optional marker. *)
Definition required_fields `{Constants} (fields : props) : list string :=
  map fst (List.filter (fun kv => negb (loose_eq_true (js_get EOA_optional (snd kv)))) fields).

(** A fragment that [_createSchemaPartFromRule] descends into: an object
    with properties, an array with items, or a composition. *)
Definition nests `{Constants} (rule : value) : bool :=
  (eq_str "object" (js_get "type" rule) && truthy (js_get "properties" rule))
  || (eq_str "array" (js_get "type" rule) && truthy (js_get "items" rule))
  || existsb (fun property => truthy (js_get property rule)) multiOAProperties.

(** Fields none of which is such a fragment. *)
Definition flat_fields `{Constants} (fields : props) : Prop :=
  Forall (fun kv => forall rule, assign_system_params (snd kv) = Ok rule -> nests rule = false)
    fields.

(** The fragments aggregated into the body component of an ordinary
    route: the fields of the action's rule schema that are placed in the
    body, converted, without the path parameters and the omitted fields. *)
Definition body_fields `{Constants} `{Collaborators} (method path : string) (alias : Alias)
    (params : props) : result props :=
  do pathParams <- pathParameters path alias;
  do metas <- getMetas (VObj params);
  do bodyParameters <- getParameters method (VObj params) true;
  do rootRules <- getSchemaObjectFromSchema (VObj (js_spread metas bodyParameters));
  Ok (js_fromEntries
        (List.filter
           (fun kv => negb (includes_str (fst kv) (map (js_get "name") pathParams))
                      && truthy (snd kv))
           rootRules)).

(** A fragment its registration does not throw for.  An array is returned
    as it stands.  An object must have, where [_createSchemaPartFromRule]
    descends into it, fragments of this kind again: the fields of its
    properties, its items, and the object-typed members of its
    compositions, which are arrays without [null] or [undefined]. *)
Inductive wf_fragment `{Constants} : value -> Prop :=
| wf_fragment_array (l : list value) : wf_fragment (VArr l)
| wf_fragment_object (o : props) (rule : value) :
    assign_system_params (VObj o) = Ok rule ->
    (eq_str "object" (js_get "type" rule) && truthy (js_get "properties" rule) = true ->
     forall k r, In (k, r) (props_of (js_get "properties" rule)) -> wf_fragment r) ->
    (eq_str "object" (js_get "type" rule) && truthy (js_get "properties" rule) = false ->
     eq_str "array" (js_get "type" rule) && truthy (js_get "items" rule) = true ->
     wf_fragment (js_get "items" rule)) ->
    (eq_str "object" (js_get "type" rule) && truthy (js_get "properties" rule) = false ->
     eq_str "array" (js_get "type" rule) && truthy (js_get "items" rule) = false ->
     forall property, In property multiOAProperties ->
       truthy (js_get property rule) = true ->
       exists schemas,
         js_get property rule = VArr schemas
         /\ forall s, In s schemas -> nullish s = false) ->
    (eq_str "object" (js_get "type" rule) && truthy (js_get "properties" rule) = false ->
     eq_str "array" (js_get "type" rule) && truthy (js_get "items" rule) = false ->
     forall property schemas s,
       In property multiOAProperties ->
       js_get property rule = VArr schemas ->
       In s schemas -> eq_str "object" (js_get "type" s) = true -> wf_fragment s) ->
    wf_fragment (VObj o).

(** The fields [createRequestBodyFromParams] aggregates into the
    component: those of the converted rule schema that are not excluded
    and whose fragment is truthy. *)
Definition aggregated_fields (exclude : list value) (rootRules : props) : props :=
  js_fromEntries
    (List.filter (fun kv => negb (includes_str (fst kv) exclude) && truthy (snd kv))
       rootRules).

(** A required body with one content type. *)
Definition upload_body (contentType : value) (schema : props) : value :=
  VObj [("required", VBool true);
        ("content", VObj [(to_key contentType, VObj [("schema", VObj schema)])])].

(** A tree [removeExtensions] walks without meeting [null]: the values
    under the marker keys are deleted before they are visited. *)
Fixpoint strippable `{Constants} (v : value) : bool :=
  match v with
  | VNull => false
  | VArr l => forallb strippable l
  | VObj o =>
      (fix all (o : props) : bool :=
         match o with
         | [] => true
         | (k, x) :: o' => (is_extension k || strippable x) && all o'
         end) o
  | _ => true
  end.

(** The segments of a url: what [formatParamUrl] makes of a segment, and a
    url of segments, each after its slash. *)
Definition format_segment (s : string) : string :=
  match s with
  | String c name => if Ascii.eqb c ":" then "{" +:+ name +:+ "}" else s
  | EmptyString => s
  end.

Fixpoint join_segments (segs : list string) : string :=
  match segs with
  | [] => ""
  | s :: segs' => "/" +:+ s +:+ join_segments segs'
  end.

Definition no_slash (s : string) : bool := all_chars (fun c => negb (Ascii.eqb c "/")) s.

(** A prefix in which [formatParamUrl] finds nothing to rewrite, whatever
    segments follow. *)
Definition inert (a : string) : Prop :=
  forall rest,
    rest = "" \/ (exists r, rest = String "/" r) ->
    indexOf "/:" 0 (a +:+ rest)
    = option_map (Nat.add (String.length a)) (indexOf "/:" 0 rest).




(** What [cleanComponents] makes of a section: its entries that are not
    [false]. *)
Definition clean_section (section : value) : result value :=
  do es <- js_entries section;
  Ok (VObj (js_fromEntries
              (List.filter (fun e => negb (strict_eq (snd e) (VBool false))) es))).

(** The servers of a document, and that no two of them have the same
    url. *)
Definition servers_of (d : props) : list value :=
  match js_get "servers" (VObj d) with VArr l => l | _ => [] end.

Fixpoint distinct_urls (servers : list value) : bool :=
  match servers with
  | [] => true
  | srv :: servers' =>
      negb (existsb (fun s => strict_eq (js_get "url" s) (js_get "url" srv)) servers')
      && distinct_urls servers'
  end.

(** A value that is no array and no object: [===] compares two of them
    by value.  A server as [addServerToDocument] can read it: not [null]
    or [undefined], with such a url. *)
Definition primitive (v : value) : bool :=
  match v with VArr _ | VObj _ => false | _ => true end.

Definition plain_server (s : value) : bool :=
  negb (nullish s) && primitive (js_get "url" s).

(** The tags a document lists. *)
Definition listed_tags (d : props) : list value :=
  match js_get "tags" (VObj d) with VArr l => l | _ => [] end.

(** The names of the tags of a document. *)
Definition tag_names (d : props) : list value :=
  map (js_get "name")
    (match js_get "tags" (VObj d) with VArr l => l | _ => [] end).

(** A tag map whose definitions carry the names they are filed under. *)
Definition named_tags (tags_map : gmap string value) : Prop :=
  forall tag tagObject,
    tags_map !! tag = Some tagObject -> truthy tagObject = true ->
    js_get "name" tagObject = VStr tag.

(** Where [getParameters] places a rule (335-340): in the body when its
    [$$oa.in] says so, when it says something else in the query, and by
    the method when it says nothing. *)
Definition placed_in_body `{Constants} (method : string) (rule : value) : bool :=
  let openApiInParameter := js_path ["$$oa"; "in"] rule in
  if truthy openApiInParameter then eq_str "body" openApiInParameter
  else bool_decide (method ∈ ALLOWING_BODY_METHODS).

(** A required parameter of the path with a given name, and a parameter of
    the query whose name is none of the given ones and whose [required] is
    [true] or absent. *)
Definition path_parameter_named (name : string) (p : value) : Prop :=
  js_get "name" p = VStr name
  /\ js_get "in" p = VStr "path"
  /\ js_get "required" p = VBool true.

Definition query_parameter_beside (names : list string) (q : value) : Prop :=
  js_get "in" q = VStr "query"
  /\ (exists k, js_get "name" q = VStr k /\ ~ In k names)
  /\ (js_get "required" q = VBool true \/ js_get "required" q = VUndef).

(** The keys of the document that [generate] computes itself. *)
Definition assembled_keys : list string :=
  ["servers"; "tags"; "components"; "paths"; "responses"].

(** ** More of the converter (FastestValidatorConverter.ts) *)

(** [v?.[0]] *)
Definition js_first (v : value) : value :=
  match v with
  | VArr l => default VUndef (head l)
  | VStr (String c _) => VStr (String c "")
  | _ => js_get "0" v
  end.

(** The [number] mapper (290-320). *)
Definition number_mapper (rule : value) : value :=
  let example :=
    coalesce (coalesce (coalesce (js_get "default" rule) (js_first (js_get "enum" rule)))
                (js_get "min" rule))
      (js_get "max" rule) in
  let schema :=
    [("type", VStr "number");
     ("default", js_get "default" rule);
     ("examples", if truthy example then VArr [example] else VUndef)] in
  let schema :=
    if truthy (js_get "positive" rule) then js_set "minimum" (VNum 0) schema else schema in
  let schema :=
    if truthy (js_get "negative" rule) then js_set "maximum" (VNum 0) schema else schema in
  let schema :=
    if truthy (js_get "max" rule) then js_set "maximum" (js_get "max" rule) schema
    else schema in
  let schema :=
    if truthy (js_get "min" rule) then js_set "minimum" (js_get "min" rule) schema
    else schema in
  let schema :=
    if truthy (js_get "equal" rule)
    then js_set "minimum" (js_get "equal" rule)
           (js_set "maximum" (js_get "equal" rule) schema)
    else schema in
  VObj schema.

(** The [string] mapper (345-405), over [new RegExp(pattern).source], which
    throws for a pattern that is no regular expression. *)
Definition string_mapper (RegExp_source : value -> result string) (fvRule : value)
    : result value :=
  let schema := [("default", js_get "default" fvRule); ("type", VStr "string")] in
  let schema :=
    if truthy (js_get "length" fvRule)
    then js_set "minLength" (js_get "length" fvRule)
           (js_set "maxLength" (js_get "length" fvRule) schema)
    else js_set "minLength" (js_get "min" fvRule)
           (js_set "maxLength" (js_get "max" fvRule) schema) in
  let flagged (pattern format example : string) :=
    Ok (js_set "format" (VStr format) (js_set "pattern" (VStr pattern) schema),
        VStr example) in
  do (schema, defaultExample) <-
    (if truthy (js_get "pattern" fvRule) then
       do source <- RegExp_source (js_get "pattern" fvRule);
       Ok (js_set "pattern" (VStr source) schema, VUndef)
     else if truthy (js_get "contains" fvRule) then
       Ok (js_set "pattern" (VStr (".*" +:+ to_key (js_get "contains" fvRule) +:+ ".*"))
             schema,
           js_get "contains" fvRule)
     else if truthy (js_get "numeric" fvRule) then flagged "^[0-9]+$" "numeric" "12345"
     else if truthy (js_get "alpha" fvRule) then flagged "^[a-zA-Z]+$" "alpha" "abcdef"
     else if truthy (js_get "alphanum" fvRule) then
       flagged "^[a-zA-Z0-9]+$" "alphanum" "abc123"
     else if truthy (js_get "alphadash" fvRule) then
       flagged "^[a-zA-Z0-9_-]+$" "alphadash" "abc-123"
     else if truthy (js_get "singleLine" fvRule) then
       flagged "^[^\r\n]*$" "single-line" "abc 123"
     else if truthy (js_get "hex" fvRule) then
       flagged "^([0-9A-Fa-f]{2})+$" "hex" "48656c6c6f20576f726c64"
     else if truthy (js_get "base64" fvRule) then
       flagged "^(?:[A-Za-z0-9+/]{4})*(?:[A-Za-z0-9+/]{2}==|[A-Za-z0-9+/]{3}=)?$" "byte"
         "aGVsbG8gd29ybGQ="
     else Ok (schema, VUndef));
  let schema := js_set "enum" (js_get "enum" fvRule) schema in
  let example :=
    coalesce (coalesce (js_get "default" fvRule) (js_first (js_get "enum" fvRule)))
      defaultExample in
  Ok (VObj (if truthy example then js_set "examples" (VArr [example]) schema else schema)).

(** [getSchemaObjectFromRule] (85-140), over the validator, whose
    [getRuleFromSchema] answers the compiled rule or throws, and the table
    of the mappers.  A rule is cloned before it is read: the clone of
    [null] is the empty object. *)
Section RuleConversion.
Context `{Constants}.
Variable validator : option (value -> result value).
Variable mappers : string -> option (value -> value -> result value).

Definition rule_extensions (clonedRule : value) : list (string * value) :=
  match clonedRule with
  | VObj _ =>
      if truthy (js_get "$$oa" clonedRule) then
        map (fun pe => (snd pe, js_get (fst pe) (js_get "$$oa" clonedRule)))
          [("description", EOA_description);
           ("summary", EOA_summary);
           ("deprecated", EOA_deprecated)]
      else []
  | _ => []
  end.

Definition merged_rule (parentProperties baseRule : value) : value :=
  VObj (js_spread (js_spread [] (props_of parentProperties)) (props_of baseRule)).

Definition convertRule (pRule parentProperties parentSchema : value) : result value :=
  match validator, mappers "string" with
  | Some getRuleFromSchema, Some stringMapper =>
      let clonedRule := match pRule with VNull => VObj [] | _ => pRule end in
      let extensions := rule_extensions clonedRule in
      do compiled <- getRuleFromSchema clonedRule;
      let rule := merged_rule parentProperties (js_get "schema" compiled) in
      let typeMapper := default stringMapper (mappers (to_key (js_get "type" rule))) in
      do schema <- typeMapper rule parentSchema;
      if negb (truthy schema) then Ok VUndef
      else
        do schema <-
          (if truthy (js_get "optional" rule)
           then js_assign EOA_optional (VBool true) schema else Ok schema);
        fold_left (fun acc kv => do s <- acc; js_assign (fst kv) (snd kv) s)
          extensions (Ok schema)
  | _, _ =>
      Err ("bad initialisation . validator ? "
           +:+ match validator with Some _ => "true" | None => "false" end
           +:+ " | string mapper "
           +:+ match mappers "string" with Some _ => "true" | None => "false" end)
  end.
End RuleConversion.

(** The [object] mapper (321-333). *)
Definition object_mapper (opts : MappersOptions) (rule : value) : result value :=
  let props := coalesce (js_get "props" rule) (js_get "properties" rule) in
  do properties <-
    (if truthy props then opt_getSchemaObjectFromSchema opts props else Ok VUndef);
  Ok (VObj [("type", VStr "object");
            ("minProperties", js_get "minProps" rule);
            ("maxProperties", js_get "maxProps" rule);
            ("default", js_get "default" rule);
            ("properties", properties);
            ("examples",
              if truthy (js_get "default" rule) then VArr [js_get "default" rule]
              else VUndef)]).

(** The mappers of the kinds that are omitted (175, 255, 256, 478). *)
Definition omitted_mapper (rule parent : value) : result value := Ok VUndef.

(** The flags of the [string] mapper in the order it tries them, each
    with its pattern and its format. *)
Definition string_flags : list (string * (string * string)) :=
  [("numeric", ("^[0-9]+$", "numeric"));
   ("alpha", ("^[a-zA-Z]+$", "alpha"));
   ("alphanum", ("^[a-zA-Z0-9]+$", "alphanum"));
   ("alphadash", ("^[a-zA-Z0-9_-]+$", "alphadash"));
   ("singleLine", ("^[^\r\n]*$", "single-line"));
   ("hex", ("^([0-9A-Fa-f]{2})+$", "hex"));
   ("base64",
     ("^(?:[A-Za-z0-9+/]{4})*(?:[A-Za-z0-9+/]{2}==|[A-Za-z0-9+/]{3}=)?$", "byte"))].

Definition first_flag (fvRule : value) : option (string * (string * string)) :=
  List.find (fun f => truthy (js_get (fst f) fvRule)) string_flags.

(** ** The mixin (mixin.ts) *)


(** A value that, when it is an object, has every key once, as the
    objects of the source have; the servers a document lists, each with
    its keys once and no two with the same url. *)
Definition unique_keys (v : value) : Prop :=
  forall o, v = VObj o -> List.NoDup (js_keys o).

(** The server a route declares, if it declares one: an object of the
    source, with a url that [===] compares by value. *)
Definition declares_plain_server (alias : Alias) : Prop :=
  unique_keys (alias_server alias)
  /\ primitive (js_get "url" (alias_server alias)) = true.

Definition servers_listed (d : props) : Prop :=
  exists l,
    js_get "servers" (VObj d) = VArr l
    /\ distinct_urls l = true
    /\ Forall unique_keys l.

(** ** Cases of the further properties *)

Module Cases.
#[local] Existing Instance Sample.constants.
#[local] Existing Instance Sample.collaborators.

(** A tree with markers at two depths, and what is left of it. *)
Definition marked : value :=
  VObj [("a", VNum 1); ("x-fastest-optional", VBool true);
        ("b", VArr [VObj [("x-fastest-summary", VStr "s"); ("c", VStr "d")]])].

Definition stripped : value :=
  VObj [("a", VNum 1); ("b", VArr [VObj [("c", VStr "d")]])].

(** Components with an entry that is switched off. *)
Definition switched : props :=
  [("schemas", VObj [("A", VObj [("type", VStr "string")]); ("B", VBool false)])].

Definition switched_clean : props :=
  [("schemas", VObj [("A", VObj [("type", VStr "string")])])].

(** A document with one server, and with a second. *)
Definition one_server : props := [("servers", VArr [Sample.server "https://one"])].

Definition two_servers : props :=
  [("servers", VArr [Sample.server "https://one"; Sample.server "https://two"])].

(** A tag map with the definition of the tag [users]. *)
Definition users_tag : value := VObj [("name", VStr "users"); ("description", VStr "Users")].

Definition tags_map : gmap string value := {[ "users" := users_tag ]}.

(** A rule schema with a meta, a field of the body and a field that asks
    for the query. *)
Definition mixed_schema : props :=
  [("$$strict", VBool true);
   ("name", Sample.rule "string");
   ("page", VObj [("type", VStr "number"); ("$$oa", VObj [("in", VStr "query")])])].

(** A rule schema with a rule that is converted to [undefined]. *)
Definition secret_schema : props :=
  [("name", Sample.rule "string"); ("secret", Sample.rule "forbidden")].

(** A route with a placeholder that the rule schema describes too. *)
Definition user_by_id : Alias :=
  Sample.alias "get" "/users/{id}" "users.get"
    (VObj [("id", Sample.rule "number");
           ("q", VObj [("type", VStr "string"); ("optional", VBool true)])]).

Definition user_by_id_extracted : parametersExtracted :=
  Eval vm_compute in
    match extractParameters "get" "/users/{id}" user_by_id (new_generator []) with
    | Ok (r, _) => r
    | Err _ => {| parameters := []; requestBody := VUndef |}
    end.

(** A base document that sets a version. *)
Definition versioned_base : props :=
  [("openapi", VStr "3.0.0"); ("info", VObj [("title", VStr "API")])].

Definition versioned_document : value :=
  Eval vm_compute in
    match snd (generate "3.1" [Sample.users] (new_generator versioned_base)) with
    | Ok (d, _) => d
    | Err _ => VUndef
    end.

(** A validator that compiles a rule to itself, the source of a pattern
    that is a string, and a table of two mappers. *)
Definition compile (rule : value) : result value := Ok (VObj [("schema", rule)]).

Definition source (pattern : value) : result string :=
  match pattern with
  | VStr s => Ok s
  | _ => Err "SyntaxError: Invalid regular expression"
  end.

Definition two_mappers (ruleType : string) : option (value -> value -> result value) :=
  if String.eqb ruleType "string" then Some (fun rule _ => string_mapper source rule)
  else if String.eqb ruleType "number" then Some (fun rule _ => Ok (number_mapper rule))
  else None.

Definition age_rule : props :=
  [("type", VStr "number"); ("optional", VBool true); ("positive", VBool true);
   ("$$oa", VObj [("description", VStr "The age")])].

Definition age_fragment : props :=
  Eval vm_compute in
    match convertRule (Some compile) two_mappers (VObj age_rule) VUndef VUndef with
    | Ok (VObj o) => o
    | _ => []
    end.

Definition code_rule : props :=
  [("type", VStr "string"); ("length", VNum 5); ("min", VNum 1);
   ("pattern", VStr "^a+$"); ("numeric", VBool true)].

Definition hex_rule : props :=
  [("type", VStr "string"); ("alphanum", VBool true); ("hex", VBool true)].

Definition code_fragment : value :=
  Eval vm_compute in
    match string_mapper source (VObj code_rule) with Ok s => s | Err _ => VUndef end.

Definition hex_fragment : value :=
  Eval vm_compute in
    match string_mapper source (VObj hex_rule) with Ok s => s | Err _ => VUndef end.



(** A base document with responses of its own, and the document of a
    route over it. *)
Definition answered_base : props :=
  [("info", VObj [("title", VStr "API")]);
   ("responses", VObj [("200", VObj [("description", VStr "ok")])])].

Definition answered_document : value :=
  Eval vm_compute in
    match snd (generate "3.1" [Sample.books] (new_generator answered_base)) with
    | Ok (d, _) => d
    | Err _ => VUndef
    end.

(** The document of three routes of two services. *)
Definition served_document : value :=
  Eval vm_compute in
    match snd (generate "3.1" [Sample.two_a; Sample.one_a; Sample.two_zero]
                 (new_generator Sample.base)) with
    | Ok (d, _) => d
    | Err _ => VUndef
    end.

(** A stream whose route declares its body, and a route with a
    placeholder that declares its query parameters. *)
Definition declared_body : value := VObj [("description", VStr "A file")].

Definition described : Alias := {|
  fullPath := "/files/:id";
  action := Some "files.put";
  type := Some "stream";
  actionSchema := VObj [("params", VObj [("name", Sample.rule "string")])];
  openapi := VObj [("requestBody", declared_body)];
  busboyConfig := VUndef;
  route := VObj [("apiService", VObj [("settings", VObj [])]);
                 ("openApiService", VObj [("settings", VObj [])])];
  summaryTemplate := TplUndefined;
  isJokerAlias := false;
  getPaths := [{| method := "put";
                  pa_action := VObj [("name", VStr "files.put")] |}]
|}.

Definition described_extracted : parametersExtracted :=
  Eval vm_compute in
    match extractParameters "put" "/files/{id}" described (new_generator []) with
    | Ok (r, _) => r
    | Err _ => {| parameters := []; requestBody := VUndef |}
    end.

Definition paged : Alias := {|
  fullPath := "/users/:id";
  action := Some "users.list";
  type := None;
  actionSchema := VObj [("params", VObj [])];
  openapi := VObj [("queryParameters", VArr [VObj [("name", VStr "page")]])];
  busboyConfig := VUndef;
  route := VObj [("apiService", VObj [("settings", VObj [])]);
                 ("openApiService", VObj [("settings", VObj [])])];
  summaryTemplate := TplUndefined;
  isJokerAlias := false;
  getPaths := [{| method := "get";
                  pa_action := VObj [("name", VStr "users.list")] |}]
|}.

Definition paged_extracted : parametersExtracted :=
  Eval vm_compute in
    match extractParameters "get" "/users/{id}" paged (new_generator []) with
    | Ok (r, _) => r
    | Err _ => {| parameters := []; requestBody := VUndef |}
    end.

(** The converter of the source on the kinds string, number, array and
    object and on the kinds it omits: [getSchemaObjectFromRule] over the
    validator [compile], with the mappers' two entry points bound to the
    converter itself as its constructor binds them (41-46).  The fuel
    bounds the nesting of the rules; a kind whose mapper is not embedded
    is refused. *)
Definition mapper_names : list string :=
  ["any"; "array"; "boolean"; "class"; "currency"; "date"; "email"; "enum"; "equal";
   "forbidden"; "function"; "luhn"; "mac"; "multi"; "number"; "object"; "record";
   "string"; "tuple"; "url"; "uuid"; "objectID"; "custom"].

Definition mappers_of (opts : MappersOptions) (ruleType : string)
    : option (value -> value -> result value) :=
  if String.eqb ruleType "string" then Some (fun rule _ => string_mapper source rule)
  else if String.eqb ruleType "number" then Some (fun rule _ => Ok (number_mapper rule))
  else if String.eqb ruleType "array" then Some (fun rule _ => array_mapper opts rule)
  else if String.eqb ruleType "object" then Some (fun rule _ => object_mapper opts rule)
  else if existsb (String.eqb ruleType) ["class"; "forbidden"; "function"; "custom"]
  then Some omitted_mapper
  else if existsb (String.eqb ruleType) mapper_names
  then Some (fun _ _ => Err "a mapper that is not embedded")
  else None.

Definition converting (convert : value -> value -> value -> result value)
    : Collaborators := {|
  normalizePath := fun path => path;
  getSchemaObjectFromRule := convert;
  OpenApiMerger_merge := fun tags _ _ => Ok (VObj [("responses", VObj [])], tags);
  String_replace := fun _ _ s => s;
  String_trim := fun s => s
|}.

Fixpoint converter (fuel : nat) (pRule parentProperties parentSchema : value)
    : result value :=
  match fuel with
  | O => Err out_of_fuel
  | S fuel' =>
      let opts :=
        {| opt_getSchemaObjectFromRule := converter fuel';
           opt_getSchemaObjectFromSchema := fun schema =>
             do fragments <- @getSchemaObjectFromSchema (converting (converter fuel')) schema;
             Ok (VObj fragments) |} in
      convertRule (Some compile) (mappers_of opts) pRule parentProperties parentSchema
  end.

Definition source_converter : Collaborators := converting (converter 8).

(** Two uploads: the rule schema of the first has a forbidden field in a
    nested object, that of the second has it beside the object. *)
Definition nested_params : props :=
  [("address",
     VObj [("type", VStr "object");
           ("props", VObj [("street", VObj [("type", VStr "string")]);
                           ("secret", VObj [("type", VStr "forbidden")])])])].

Definition flat_params : props :=
  [("name", VObj [("type", VStr "string")]);
   ("secret", VObj [("type", VStr "forbidden")])].

Definition nested_upload : Alias := Sample.upload "/files" "files.upload" (VObj nested_params).

Definition flat_upload : Alias := Sample.upload "/files" "files.upload" (VObj flat_params).





End Cases.

(** * Properties *)

(** ** Objects *)

Lemma eqb_false_ne (a b : string) : a <> b -> String.eqb a b = false.
Proof. intros Hne. apply String.eqb_neq. exact Hne. Qed.

Lemma js_lookup_set_eq (k : string) (v : value) (o : props) :
  js_lookup k (js_set k v o) = Some v.
Proof.
  induction o as [|[k' v'] o IH]; simpl.
  - rewrite String.eqb_refl. reflexivity.
  - destruct (String.eqb k k') eqn:E; simpl; rewrite E; [reflexivity | exact IH].
Qed.

Lemma js_lookup_set_ne (k k' : string) (v : value) (o : props) :
  k <> k' -> js_lookup k' (js_set k v o) = js_lookup k' o.
Proof.
  intros Hne. induction o as [|[k0 v0] o IH]; simpl.
  - rewrite eqb_false_ne by congruence. reflexivity.
  - destruct (String.eqb k k0) eqn:E; simpl.
    + apply String.eqb_eq in E. subst k0.
      rewrite eqb_false_ne by congruence. reflexivity.
    + destruct (String.eqb k' k0); [reflexivity | exact IH].
Qed.

Lemma js_lookup_set (k k' : string) (v : value) (o : props) :
  js_lookup k' (js_set k v o) = if String.eqb k k' then Some v else js_lookup k' o.
Proof.
  destruct (String.eqb k k') eqn:E.
  - apply String.eqb_eq in E. subst. apply js_lookup_set_eq.
  - apply String.eqb_neq in E. apply js_lookup_set_ne. exact E.
Qed.

Lemma js_lookup_None_keys (k : string) (o : props) :
  js_lookup k o = None <-> ~ In k (js_keys o).
Proof.
  induction o as [|[k' v'] o IH]; simpl.
  - tauto.
  - destruct (String.eqb k k') eqn:E.
    + apply String.eqb_eq in E. subst. split; [discriminate | tauto].
    + apply String.eqb_neq in E. rewrite IH. split; [intros Hn [Heq | Hin] | ]; try tauto.
      congruence.
Qed.

Lemma js_lookup_Some_keys (k : string) (v : value) (o : props) :
  js_lookup k o = Some v -> In k (js_keys o).
Proof.
  intros Hl. destruct (in_dec string_dec k (js_keys o)) as [Hin | Hnin]; [exact Hin |].
  apply js_lookup_None_keys in Hnin. congruence.
Qed.

Lemma js_lookup_In (k : string) (v : value) (o : props) :
  js_lookup k o = Some v -> In (k, v) o.
Proof.
  induction o as [|[k' v'] o IH]; simpl; [discriminate |].
  destruct (String.eqb k k') eqn:E.
  - apply String.eqb_eq in E. intros [= ->]. left. congruence.
  - intros Hl. right. exact (IH Hl).
Qed.

Lemma js_keys_set (k : string) (v : value) (o : props) :
  js_keys (js_set k v o) = add_key k (js_keys o).
Proof.
  unfold add_key. induction o as [|[k' v'] o IH]; simpl; [reflexivity |].
  destruct (String.eqb k k') eqn:E; simpl; [reflexivity |].
  rewrite IH. destruct (existsb (String.eqb k) (js_keys o)); reflexivity.
Qed.

Lemma existsb_eqb_In (k : string) (ks : list string) :
  existsb (String.eqb k) ks = true <-> In k ks.
Proof.
  rewrite existsb_exists. split.
  - intros [x [Hin Heq]]. apply String.eqb_eq in Heq. congruence.
  - intros Hin. exists k. split; [exact Hin | apply String.eqb_refl].
Qed.

Lemma add_key_NoDup (k : string) (ks : list string) :
  List.NoDup ks -> List.NoDup (add_key k ks).
Proof.
  intros Hnd. unfold add_key. destruct (existsb (String.eqb k) ks) eqn:E; [exact Hnd |].
  assert (Hnin : ~ In k ks).
  { intros Hin. apply existsb_eqb_In in Hin. congruence. }
  clear E. induction Hnd as [|x l Hx Hnd IH]; simpl.
  - constructor; [tauto | constructor].
  - constructor.
    + rewrite in_app_iff. simpl. intros [Hin | [Heq | []]]; [tauto |].
      apply Hnin. left. symmetry. exact Heq.
    + apply IH. intros Hin. apply Hnin. right. exact Hin.
Qed.

Lemma js_set_NoDup (k : string) (v : value) (o : props) :
  List.NoDup (js_keys o) -> List.NoDup (js_keys (js_set k v o)).
Proof. rewrite js_keys_set. apply add_key_NoDup. Qed.

(** Entries that satisfy a predicate still do after an assignment of one
    that does. *)
Lemma js_set_Forall (P : string * value -> Prop) (k : string) (v : value) (o : props) :
  P (k, v) -> Forall P o -> Forall P (js_set k v o).
Proof.
  intros Hkv Ho. induction Ho as [|[k' v'] o Hx Ho IH]; simpl.
  - constructor; [exact Hkv | constructor].
  - destruct (String.eqb k k') eqn:E.
    + apply String.eqb_eq in E. subst k'. constructor; assumption.
    + constructor; assumption.
Qed.

Lemma fold_set_Forall (P : string * value -> Prop) (es : list (string * value)) (o : props) :
  Forall P es -> Forall P o ->
  Forall P (fold_left (fun acc kv => js_set (fst kv) (snd kv) acc) es o).
Proof.
  intros Hes. revert o. induction Hes as [|[k v] es Hx Hes IH]; intros o Ho; simpl.
  - exact Ho.
  - apply IH. apply js_set_Forall; assumption.
Qed.

Lemma js_fromEntries_Forall (P : string * value -> Prop) (es : list (string * value)) :
  Forall P es -> Forall P (js_fromEntries es).
Proof. intros Hes. apply fold_set_Forall; [exact Hes | constructor]. Qed.

(** [{ ...a, ...b }] reads [b] first, when the keys of [b] are distinct. *)
Lemma js_lookup_fold_set (k : string) (b a : props) :
  List.NoDup (js_keys b) ->
  js_lookup k (fold_left (fun acc kv => js_set (fst kv) (snd kv) acc) b a) =
  match js_lookup k b with
  | Some v => Some v
  | None => js_lookup k a
  end.
Proof.
  revert a. induction b as [|[k' v'] b IH]; intros a Hnd; simpl; [reflexivity |].
  inversion Hnd as [|? ? Hnin Hnd']; subst.
  rewrite IH by exact Hnd'. destruct (String.eqb k k') eqn:E.
  - apply String.eqb_eq in E. subst k'.
    assert (Hn : js_lookup k b = None) by (apply js_lookup_None_keys; exact Hnin).
    rewrite Hn. apply js_lookup_set_eq.
  - apply String.eqb_neq in E. destruct (js_lookup k b); [reflexivity |].
    apply js_lookup_set_ne. congruence.
Qed.

Lemma js_lookup_spread (k : string) (a b : props) :
  List.NoDup (js_keys b) ->
  js_lookup k (js_spread a b) =
  match js_lookup k b with
  | Some v => Some v
  | None => js_lookup k a
  end.
Proof. apply js_lookup_fold_set. Qed.

(** An object built from entries with distinct keys has these entries. *)
Lemma fold_set_fresh (es : list (string * value)) (o : props) :
  List.NoDup (js_keys o ++ map fst es) ->
  fold_left (fun acc kv => js_set (fst kv) (snd kv) acc) es o = o ++ es.
Proof.
  revert o. induction es as [|[k v] es IH]; intros o Hnd; simpl.
  - rewrite app_nil_r. reflexivity.
  - assert (Hset : js_set k v o = o ++ [(k, v)]).
    { clear IH. induction o as [|[k' v'] o IHo]; simpl; [reflexivity |].
      simpl in Hnd. inversion Hnd as [|? ? Hnin Hnd']; subst.
      rewrite eqb_false_ne.
      - rewrite IHo by exact Hnd'. reflexivity.
      - intros ->. apply Hnin. rewrite in_app_iff. right. left. reflexivity. }
    rewrite Hset. rewrite IH.
    + rewrite <- app_assoc. reflexivity.
    + unfold js_keys in *. rewrite map_app. simpl. rewrite <- app_assoc. exact Hnd.
Qed.

Lemma js_fromEntries_NoDup (es : list (string * value)) :
  List.NoDup (map fst es) -> js_fromEntries es = es.
Proof. intros Hnd. unfold js_fromEntries. rewrite fold_set_fresh; [reflexivity | exact Hnd]. Qed.

(** ** Stripping the internal markers *)

Section ExtensionsFacts.
Context `{Constants}.

Lemma delete_extensions_filter (o : props) :
  delete_extensions o = List.filter (fun kv => negb (is_extension (fst kv))) o.
Proof.
  unfold delete_extensions, is_extension.
  generalize EOAExtensions_values as exts. intros exts. revert o.
  induction exts as [|e exts IH]; intros o; simpl.
  - induction o as [|kv o IHo]; simpl; [reflexivity | f_equal; exact IHo].
  - rewrite IH. unfold js_delete. clear IH.
    induction o as [|kv o IHo]; simpl; [reflexivity |].
    rewrite (String.eqb_sym e (fst kv)).
    destruct (String.eqb (fst kv) e); simpl; [exact IHo |].
    destruct (existsb (String.eqb (fst kv)) exts); simpl; [exact IHo |].
    f_equal. exact IHo.
Qed.

(** The source's form of the object case: the markers are deleted, then
    the remaining entries are mapped. *)
Lemma removeExtensions_object (o : props) :
  removeExtensions (VObj o) =
  (do es <- rmap (fun kv => do x' <- removeExtensions (snd kv); Ok (fst kv, x'))
              (delete_extensions o);
   Ok (VObj (js_fromEntries es))).
Proof.
  rewrite delete_extensions_filter. simpl. f_equal.
  induction o as [|[k x] o IH]; simpl; [reflexivity |].
  destruct (is_extension k); simpl; [exact IH |].
  destruct (removeExtensions x); simpl; [| reflexivity].
  rewrite IH. reflexivity.
Qed.

Lemma marker_free_object (o : props) :
  marker_free (VObj o) = true <-> Forall clean_entry o.
Proof.
  simpl. induction o as [|[k x] o IH].
  - split; [constructor | reflexivity].
  - rewrite !andb_true_iff, negb_true_iff, IH. split.
    + intros [[Hk Hx] Ho]. constructor; [split; assumption | exact Ho].
    + intros Hall. inversion Hall as [|? ? [Hk Hx] Ho]; subst. tauto.
Qed.

Lemma marker_free_array (l : list value) :
  marker_free (VArr l) = true <-> Forall (fun x => marker_free x = true) l.
Proof.
  simpl. rewrite forallb_forall, List.Forall_forall. reflexivity.
Qed.

Lemma removeExtensions_marker_free (v v' : value) :
  removeExtensions v = Ok v' -> marker_free v' = true.
Proof.
  revert v'. induction v as [| | b | n | s | l IH | o IH] using value_ind;
    intros v' Hv; try (simpl in Hv; injection Hv as <-; reflexivity).
  - discriminate.
  - simpl in Hv.
    destruct (rmap removeExtensions l) as [l' |] eqn:El; [| discriminate].
    injection Hv as <-. apply marker_free_array.
    revert l' El. induction IH as [|x l Hx _ IHl]; intros l' El; simpl in El.
    + injection El as <-. constructor.
    + destruct (removeExtensions x) as [x' |] eqn:Ex; [| discriminate]. simpl in El.
      destruct (rmap removeExtensions l) as [l0 |]; [| discriminate].
      injection El as <-. constructor; [apply Hx; reflexivity | apply IHl; reflexivity].
  - rewrite removeExtensions_object, delete_extensions_filter in Hv.
    match type of Hv with (do es <- ?r; _) = _ => destruct r as [es |] eqn:Ees end;
      [| discriminate].
    injection Hv as <-. apply marker_free_object, js_fromEntries_Forall.
    revert es Ees. induction IH as [|[k x] o Hx _ IHo]; intros es Ees; simpl in Ees.
    + injection Ees as <-. constructor.
    + destruct (is_extension k) eqn:Ek; simpl in Ees; [apply IHo; exact Ees |].
      destruct (removeExtensions x) as [x' |] eqn:Ex; [| discriminate]. simpl in Ees.
      match type of Ees with (do ys <- ?r; _) = _ => destruct r as [es0 |] eqn:E0 end;
        [| discriminate].
      injection Ees as <-. constructor.
      * split; [exact Ek | apply Hx; exact Ex].
      * apply IHo. reflexivity.
Qed.

Lemma removeExtensions_total (v : value) :
  null_free v = true -> exists v', removeExtensions v = Ok v'.
Proof.
  induction v as [| | b | n | s | l IH | o IH] using value_ind; intros Hnf;
    try (eexists; reflexivity).
  - discriminate.
  - simpl in Hnf. simpl.
    assert (Hl : exists l', rmap removeExtensions l = Ok l').
    { induction IH as [|x l Hx _ IHl]; simpl; [eexists; reflexivity |].
      simpl in Hnf. apply andb_true_iff in Hnf as [Hnx Hnl].
      destruct (Hx Hnx) as [x' ->]. destruct (IHl Hnl) as [l' ->]. simpl.
      eexists; reflexivity. }
    destruct Hl as [l' ->]. eexists; reflexivity.
  - rewrite removeExtensions_object, delete_extensions_filter. simpl in Hnf.
    match goal with |- exists v', (do es <- ?r; _) = _ =>
      assert (Ho : exists es, r = Ok es) end.
    { induction IH as [|[k x] o Hx _ IHo]; [eexists; reflexivity |].
      apply andb_true_iff in Hnf as [Hnx Hno]. simpl.
      destruct (is_extension k); simpl; [apply IHo; exact Hno |].
      destruct (Hx Hnx) as [x' Ex]. simpl in Ex. rewrite Ex.
      destruct (IHo Hno) as [es ->]. simpl.
      eexists; reflexivity. }
    destruct Ho as [es ->]. eexists; reflexivity.
Qed.
End ExtensionsFacts.

(** ** The array mapper *)

Lemma js_get_cons_eq (k : string) (v : value) (o : props) :
  js_get k (VObj ((k, v) :: o)) = v.
Proof. simpl. rewrite String.eqb_refl. reflexivity. Qed.

Lemma js_get_set_eq (k : string) (v : value) (o : props) :
  js_get k (VObj (js_set k v o)) = v.
Proof. simpl. rewrite js_lookup_set_eq. reflexivity. Qed.

Lemma js_get_set_ne (k k' : string) (v : value) (o : props) :
  k <> k' -> js_get k' (VObj (js_set k v o)) = js_get k' (VObj o).
Proof. intros Hne. simpl. rewrite js_lookup_set_ne by exact Hne. reflexivity. Qed.

(** What the array mapper does for every rule: the items are the converted
    item rule, or the empty fragment; the uniqueness flag is passed through;
    a truthy length gives both bounds, and the rule's own bounds are used
    otherwise. *)
Lemma array_mapper_fragment (opts : MappersOptions) (rule schema : value) :
  array_mapper opts rule = Ok schema ->
  js_get "type" schema = VStr "array"
  /\ js_get "uniqueItems" schema = js_get "unique" rule
  /\ (exists converted,
        (if truthy (js_get "items" rule)
         then opt_getSchemaObjectFromRule opts (js_get "items" rule)
                (VObj [("enum", js_get "enum" rule)]) VUndef
         else Ok VUndef) = Ok converted
        /\ js_get "items" schema = coalesce converted (VObj []))
  /\ (truthy (js_get "length" rule) = true ->
      js_get "minItems" schema = js_get "length" rule
      /\ js_get "maxItems" schema = js_get "length" rule)
  /\ (truthy (js_get "length" rule) = false ->
      js_get "minItems" schema = js_get "min" rule
      /\ js_get "maxItems" schema = js_get "max" rule).
Proof.
  unfold array_mapper. intros Hm.
  match type of Hm with (do c <- ?r; _) = _ => destruct r as [converted |] eqn:Ec end;
    [| discriminate].
  simpl in Hm. injection Hm as <-.
  destruct (truthy (js_get "length" rule)) eqn:El.
  - repeat split; try reflexivity; try discriminate.
    exists converted. split; reflexivity.
  - repeat split; try reflexivity; try discriminate.
    exists converted. split; reflexivity.
Qed.

(** C9, at the exact length 0: the mapper takes the length for unset, and
    the fragment has the bounds of [min] and [max], here none, where an
    exact length of 0 asks for [minItems] and [maxItems] of 0. *)
Theorem array_mapper_exact_length_zero (opts : MappersOptions) :
  exists schema,
    array_mapper opts (VObj [("type", VStr "array"); ("length", VNum 0)]) = Ok schema
    /\ js_get "minItems" schema = VUndef
    /\ js_get "maxItems" schema = VUndef.
Proof. eexists. split; [reflexivity | split; reflexivity]. Qed.

(** ** Path parameters *)


Lemma length_append (s1 s2 : string) :
  String.length (s1 +:+ s2) = (String.length s1 + String.length s2)%nat.
Proof. induction s1 as [|c s1 IH]; simpl; [reflexivity | rewrite IH; reflexivity]. Qed.





(** ** Merging components *)

Lemma merge_fold_Err (c1 c2 : props) (ks : list string) (e : string) :
  fold_left (merge_section c1 c2) ks (Err e) = Err e.
Proof. induction ks as [|k ks IH]; simpl; [reflexivity | exact IH]. Qed.

Lemma js_entries_props_of (v : value) (es : list (string * value)) :
  js_entries v = Ok es -> es = props_of v.
Proof. destruct v; simpl; intros Hv; congruence. Qed.

(** A section of the merge: where the second operand has a section that is
    not empty, the spread of the two sections; the first operand's section
    otherwise. *)
Lemma mergeComponents_section (c1 c2 merged : props) (sec : string) :
  mergeComponents c1 c2 = Ok merged ->
  js_get sec (VObj merged) =
  if existsb (String.eqb sec) (js_keys c2)
     && negb (Nat.eqb (length (props_of (js_get sec (VObj c2)))) 0)
  then VObj (js_spread (props_of (js_get sec (VObj c1))) (props_of (js_get sec (VObj c2))))
  else js_get sec (VObj c1).
Proof.
  unfold mergeComponents. generalize (js_keys c2) as ks. intros ks. revert c1.
  assert (Hgen : forall c1 acc,
    fold_left (merge_section c1 c2) ks (Ok acc) = Ok merged ->
    js_get sec (VObj merged) =
    if existsb (String.eqb sec) ks
       && negb (Nat.eqb (length (props_of (js_get sec (VObj c2)))) 0)
    then VObj (js_spread (props_of (js_get sec (VObj c1))) (props_of (js_get sec (VObj c2))))
    else js_get sec (VObj acc)).
  { intros c1. induction ks as [|k ks IH]; intros acc Hf.
    - injection Hf as <-. reflexivity.
    - cbn [fold_left] in Hf. unfold merge_section at 2 in Hf. cbn [rbind] in Hf.
      destruct (js_entries (js_get k (VObj c2))) as [section |] eqn:Es; cbn [rbind] in Hf;
        [| rewrite merge_fold_Err in Hf; discriminate].
      apply js_entries_props_of in Es. subst section.
      unfold js_keys in Hf. rewrite length_map in Hf.
      cbn [existsb]. destruct (String.eqb sec k) eqn:Ek.
      + apply String.eqb_eq in Ek. subst k. cbn [orb].
        destruct (Nat.eqb (length (props_of (js_get sec (VObj c2)))) 0) eqn:En.
        * rewrite (IH _ Hf). rewrite andb_false_r. reflexivity.
        * rewrite (IH _ Hf). cbn [negb]. rewrite andb_true_r.
          destruct (existsb (String.eqb sec) ks); [reflexivity |].
          apply js_get_set_eq.
      + cbn [orb]. apply String.eqb_neq in Ek.
        destruct (Nat.eqb (length (props_of (js_get k (VObj c2)))) 0).
        * apply (IH _ Hf).
        * rewrite (IH _ Hf).
          destruct (existsb (String.eqb sec) ks
                    && negb (Nat.eqb (length (props_of (js_get sec (VObj c2)))) 0));
            [reflexivity |].
          apply js_get_set_ne. congruence. }
  intros c1. apply Hgen.
Qed.

(** C1, as the code has it.  In every section of the merged components, a
    name of the accumulated store has the store's entry, also when the
    document has an entry of this name; a name the store does not have
    keeps the document's entry. *)
Theorem mergeComponents_store_takes_precedence
    (documentComponents store merged : props) (sec name : string) :
  List.NoDup (js_keys (props_of (js_get sec (VObj store)))) ->
  mergeComponents documentComponents store = Ok merged ->
  js_lookup name (props_of (js_get sec (VObj merged))) =
  match js_lookup name (props_of (js_get sec (VObj store))) with
  | Some generated => Some generated
  | None => js_lookup name (props_of (js_get sec (VObj documentComponents)))
  end.
Proof.
  intros Hnd Hm. rewrite (mergeComponents_section _ _ _ sec Hm).
  destruct (existsb (String.eqb sec) (js_keys store)) eqn:Ein; cbn [andb].
  - destruct (Nat.eqb (length (props_of (js_get sec (VObj store)))) 0) eqn:En; cbn [negb].
    + apply Nat.eqb_eq in En. apply length_zero_iff_nil in En. rewrite En. reflexivity.
    + cbn [props_of]. apply js_lookup_spread. exact Hnd.
  - assert (Hnone : js_lookup sec store = None).
    { apply js_lookup_None_keys. intros Hin. apply existsb_eqb_In in Hin. congruence. }
    simpl. rewrite Hnone. reflexivity.
Qed.

(** ** The rewriting of url parameters *)

Lemma colons_append (a b : string) : colons (a +:+ b) = (colons a + colons b)%nat.
Proof. induction a as [|c a IH]; simpl; [reflexivity | rewrite IH; lia]. Qed.

Lemma colons_length (s : string) : (colons s <= String.length s)%nat.
Proof. induction s as [|c s IH]; simpl; [lia | destruct (Ascii.eqb c ":"); lia]. Qed.

Lemma prefix_split (p s : string) :
  String.prefix p s = true -> exists post, s = p +:+ post.
Proof.
revert s. induction p as [|c p IH]; intros s Hp.
- exists s. reflexivity.
- destruct s as [|d s]; simpl in Hp; [discriminate |].
  destruct (ascii_dec c d) as [-> |]; [| discriminate].
  destruct (IH s Hp) as [post ->]. exists post. reflexivity.
Qed.

Lemma index_split (sub : string) (n m : nat) (s : string) :
  String.index n sub s = Some m ->
  exists pre post, s = pre +:+ sub +:+ post /\ String.length pre = m /\ (n <= m)%nat.
Proof.
revert n m. induction s as [|c s IH]; intros n m Hi.
- destruct n; simpl in Hi; [| discriminate].
  destruct sub; [| discriminate]. injection Hi as <-.
  exists "", "". auto.
- destruct n; cbn [String.index] in Hi.
  + destruct (String.prefix sub (String c s)) eqn:Ep.
    * injection Hi as <-. destruct (prefix_split _ _ Ep) as [post Hpost].
      exists "", post. simpl. auto.
    * destruct (String.index 0 sub s) as [k |] eqn:Ek; [| discriminate].
      injection Hi as <-. destruct (IH 0%nat k Ek) as [pre [post [-> [Hl _]]]].
      exists (String c pre), post. simpl. split; [reflexivity | split; lia].
  + destruct (String.index n sub s) as [k |] eqn:Ek; [| discriminate].
    injection Hi as <-. destruct (IH n k Ek) as [pre [post [-> [Hl Hle]]]].
    exists (String c pre), post. simpl. split; [reflexivity | split; lia].
Qed.

Lemma substring_prefix (a b : string) :
  String.substring 0 (String.length a) (a +:+ b) = a.
Proof. induction a as [|c a IH]; simpl; [destruct b; reflexivity | rewrite IH; reflexivity]. Qed.

Lemma substring_skip (a b : string) (m : nat) :
  String.substring (String.length a) m (a +:+ b) = String.substring 0 m b.
Proof. induction a as [|c a IH]; simpl; [reflexivity | exact IH]. Qed.

Lemma substring_all (s : string) : String.substring 0 (String.length s) s = s.
Proof. induction s as [|c s IH]; simpl; [reflexivity | rewrite IH; reflexivity]. Qed.

Lemma append_assoc (a b c : string) : (a +:+ b) +:+ c = a +:+ (b +:+ c).
Proof.
induction a as [|h a IH]; [reflexivity |].
change (String h ((a +:+ b) +:+ c) = String h (a +:+ (b +:+ c))). rewrite IH. reflexivity.
Qed.

Lemma append_split (a b c d : string) :
  a +:+ b = c +:+ d -> (String.length a <= String.length c)%nat ->
  exists x, c = a +:+ x /\ b = x +:+ d.
Proof.
revert c. induction a as [|h a IH]; intros c Heq Hlen.
- exists c. auto.
- destruct c as [|h' c]; simpl in Hlen; [lia |].
  simpl in Heq. injection Heq as -> Heq.
  destruct (IH c Heq ltac:(lia)) as [x [-> ->]]. exists x. auto.
Qed.

Lemma rewritten_shape (url : string) (n e : nat) :
  indexOf "/:" 0 url = Some n ->
  indexOf "/" (S n) url = Some e ->
  exists pre name rest,
    url = pre +:+ "/:" +:+ name +:+ "/" +:+ rest
    /\ rewritten (S n) e url = pre +:+ "/{" +:+ name +:+ "}/" +:+ rest.
Proof.
unfold indexOf. intros Hn He.
destruct (index_split _ _ _ _ Hn) as [pre [post [Hurl [Hpre _]]]].
destruct (index_split _ _ _ _ He) as [pre2 [post2 [Hurl2 [Hpre2 Hle]]]].
assert (Hcut : exists name, pre2 = (pre +:+ "/:") +:+ name /\ post = name +:+ "/" +:+ post2).
{ destruct (Nat.eq_dec e (S n)) as [-> | Hne].
  - exfalso.
    assert (Heq : pre2 +:+ ("/" +:+ post2) = (pre +:+ "/") +:+ (":" +:+ post)).
    { rewrite <- Hurl2, Hurl, append_assoc. reflexivity. }
    apply append_split in Heq; [| rewrite length_append; simpl; lia].
    destruct Heq as [x [Hx Hrest]].
    assert (Hx0 : x = "").
    { apply (f_equal String.length) in Hx. rewrite !length_append in Hx. simpl in Hx.
      destruct x; [reflexivity | simpl in Hx; lia]. }
    subst x. simpl in Hrest. discriminate Hrest.
  - apply append_split.
    + rewrite append_assoc. simpl. rewrite <- Hurl. exact Hurl2.
    + rewrite length_append. simpl. lia. }
destruct Hcut as [name [Hpre2' Hpost]].
exists pre, name, post2. split.
- rewrite Hurl, Hpost. reflexivity.
- unfold rewritten, slice, slice_from.
  assert (Hn1 : S n = String.length (pre +:+ "/")) by (rewrite length_append; simpl; lia).
  assert (Hn2 : S (S n) = String.length (pre +:+ "/:")) by (rewrite length_append; simpl; lia).
  assert (Hname : (e - S (S n))%nat = String.length name).
  { rewrite <- Hpre2, Hpre2', !length_append. simpl. lia. }
  assert (Hu1 : url = (pre +:+ "/") +:+ (":" +:+ post))
    by (rewrite Hurl, append_assoc; reflexivity).
  assert (Hu2 : url = (pre +:+ "/:") +:+ (name +:+ ("/" +:+ post2)))
    by (rewrite Hurl, Hpost, append_assoc; reflexivity).
  replace (String.substring 0 (S n - 0) url) with (pre +:+ "/").
  2:{ rewrite Nat.sub_0_r, Hn1. rewrite Hu1 at 1. symmetry. apply substring_prefix. }
  replace (String.substring (S (S n)) (e - S (S n)) url) with name.
  2:{ rewrite Hname, Hn2. rewrite Hu2 at 1. rewrite substring_skip.
      symmetry. apply substring_prefix. }
  replace (String.substring e (String.length url - e) url) with ("/" +:+ post2).
  2:{ rewrite <- Hpre2. rewrite Hurl2 at 2. rewrite substring_skip.
      rewrite Hurl2 at 1. rewrite length_append.
      replace (String.length pre2 + String.length ("/" +:+ post2) - String.length pre2)%nat
        with (String.length ("/" +:+ post2)) by lia.
      symmetry. apply substring_all. }
  rewrite !append_assoc. reflexivity.
Qed.

Lemma rewritten_colons (url : string) (n e : nat) :
  indexOf "/:" 0 url = Some n ->
  indexOf "/" (S n) url = Some e ->
  colons url = S (colons (rewritten (S n) e url)).
Proof.
intros Hn He. destruct (rewritten_shape url n e Hn He) as [pre [name [rest [Hurl ->]]]].
rewrite Hurl at 1. rewrite !colons_append. simpl. lia.
Qed.

Lemma formatParamUrl_fuel_unfold (fuel : nat) (url : string) :
  formatParamUrl_fuel fuel url
  = match indexOf "/:" 0 url with
    | None => url
    | Some start =>
        match indexOf "/" (S start) url with
        | None => slice 0 (S start) url +:+ "{" +:+ slice_from (S (S start)) url +:+ "}"
        | Some end_ =>
            match fuel with
            | O => url
            | S fuel' => formatParamUrl_fuel fuel' (rewritten (S start) end_ url)
            end
        end
    end.
Proof. destruct fuel; reflexivity. Qed.

(** The result does not depend on the fuel, once there is one unit of it
    for every colon of the url. *)
Lemma formatParamUrl_fuel_enough (fuel1 fuel2 : nat) (url : string) :
  (colons url <= fuel1)%nat -> (colons url <= fuel2)%nat ->
  formatParamUrl_fuel fuel1 url = formatParamUrl_fuel fuel2 url.
Proof.
revert fuel2 url. induction fuel1 as [|fuel1 IH]; intros fuel2 url H1 H2;
  rewrite (formatParamUrl_fuel_unfold _ url), (formatParamUrl_fuel_unfold fuel2 url);
  destruct (indexOf "/:" 0 url) as [n |] eqn:En; try reflexivity;
  destruct (indexOf "/" (S n) url) as [e |] eqn:Ee; try reflexivity;
  pose proof (rewritten_colons url n e En Ee) as Hc.
- lia.
- destruct fuel2 as [|fuel2]; [lia |]. apply IH; lia.
Qed.

(** [formatParamUrl] satisfies the recursion of the source. *)
Lemma formatParamUrl_equation (url : string) :
  formatParamUrl url
  = match indexOf "/:" 0 url with
    | None => url
    | Some start =>
        let start := S start in
        match indexOf "/" start url with
        | None => slice 0 start url +:+ "{" +:+ slice_from (S start) url +:+ "}"
        | Some end_ =>
            formatParamUrl
              (slice 0 start url +:+ "{" +:+ slice (S start) end_ url +:+ "}"
                 +:+ slice_from end_ url)
        end
    end.
Proof.
unfold formatParamUrl at 1. rewrite formatParamUrl_fuel_unfold.
destruct (indexOf "/:" 0 url) as [n |] eqn:En; [| reflexivity]. cbv zeta.
destruct (indexOf "/" (S n) url) as [e |] eqn:Ee; [| reflexivity].
pose proof (rewritten_colons url n e En Ee) as Hc.
pose proof (colons_length url) as Hl.
destruct (String.length url) as [|k]; [lia |].
fold (rewritten (S n) e url). unfold formatParamUrl.
apply formatParamUrl_fuel_enough; [lia | apply colons_length].
Qed.

(** ** Sorting *)

Lemma ascii_compare_N (a b : ascii) :
  Ascii.compare a b = N.compare (N_of_ascii a) (N_of_ascii b).
Proof. reflexivity. Qed.

Lemma str_le_refl (s : string) : str_le s s.
Proof.
  unfold str_le. assert (Heq : String.compare s s = Eq).
  { induction s as [|c s IH]; simpl; [reflexivity |].
    rewrite ascii_compare_N, N.compare_refl. exact IH. }
  rewrite Heq. discriminate.
Qed.

Lemma str_le_total (s1 s2 : string) : ~ str_le s1 s2 -> str_le s2 s1.
Proof.
  unfold str_le. intros Hn. rewrite String.compare_antisym.
  destruct (String.compare s1 s2); simpl; try discriminate. exfalso. apply Hn. discriminate.
Qed.

Lemma str_le_antisym (s1 s2 : string) : str_le s1 s2 -> str_le s2 s1 -> s1 = s2.
Proof.
  unfold str_le. intros H12 H21. apply String.compare_eq_iff.
  rewrite String.compare_antisym in H21.
  destruct (String.compare s1 s2); simpl in *; congruence.
Qed.

Lemma string_compare_cons (c1 c2 : ascii) (s1 s2 : string) :
  String.compare (String c1 s1) (String c2 s2) =
  match N.compare (N_of_ascii c1) (N_of_ascii c2) with
  | Eq => String.compare s1 s2
  | Lt => Lt
  | Gt => Gt
  end.
Proof.
  simpl. rewrite ascii_compare_N.
  destruct (N.compare (N_of_ascii c1) (N_of_ascii c2)); reflexivity.
Qed.

Lemma str_le_trans (s1 s2 s3 : string) : str_le s1 s2 -> str_le s2 s3 -> str_le s1 s3.
Proof.
  unfold str_le. revert s2 s3.
  induction s1 as [|c1 s1 IH]; intros [|c2 s2] [|c3 s3]; simpl;
    try congruence; try discriminate.
  change ((String.compare (String c1 s1) (String c2 s2) <> Gt) ->
          (String.compare (String c2 s2) (String c3 s3) <> Gt) ->
          (String.compare (String c1 s1) (String c3 s3) <> Gt)).
  rewrite !string_compare_cons.
  destruct (N.compare_spec (N_of_ascii c1) (N_of_ascii c2)) as [E12 | L12 | G12];
    destruct (N.compare_spec (N_of_ascii c2) (N_of_ascii c3)) as [E23 | L23 | G23];
    destruct (N.compare_spec (N_of_ascii c1) (N_of_ascii c3)) as [E13 | L13 | G13];
    try congruence; try discriminate; try lia.
  apply IH.
Qed.

Section SortFacts.
Context {A : Type} (key : A -> string).

Let le (a b : A) : Prop := str_le (key a) (key b).

Lemma sort_insert_Permutation (x : A) (l : list A) :
  Permutation (x :: l) (sort_insert (getAlphabeticSorter key) x l).
Proof.
  induction l as [|y l IH]; simpl; [reflexivity |].
  destruct (getAlphabeticSorter key x y); try reflexivity.
  rewrite perm_swap. apply perm_skip. exact IH.
Qed.

Lemma Array_sort_Permutation (l : list A) :
  Permutation l (Array_sort (getAlphabeticSorter key) l).
Proof.
  induction l as [|x l IH]; simpl; [reflexivity |].
  rewrite <- sort_insert_Permutation. apply perm_skip. exact IH.
Qed.

Lemma sort_insert_Sorted (x : A) (l : list A) :
  StronglySorted le l -> StronglySorted le (sort_insert (getAlphabeticSorter key) x l).
Proof.
  intros Hs. induction Hs as [|y l Hs IH Hy]; simpl.
  - constructor; [constructor | constructor].
  - unfold getAlphabeticSorter at 1. destruct (String.compare (key x) (key y)) eqn:Ec.
    + assert (Hxy : le x y) by (unfold le, str_le; congruence).
      constructor; [constructor; assumption |].
      constructor; [exact Hxy |].
      eapply List.Forall_impl; [| exact Hy]. intros z Hz. unfold le in *.
      eapply str_le_trans; eassumption.
    + assert (Hxy : le x y) by (unfold le, str_le; congruence).
      constructor; [constructor; assumption |].
      constructor; [exact Hxy |].
      eapply List.Forall_impl; [| exact Hy]. intros z Hz. unfold le in *.
      eapply str_le_trans; eassumption.
    + assert (Hyx : le y x).
      { unfold le. apply str_le_total. unfold str_le. intros Hn. apply Hn. exact Ec. }
      constructor; [exact IH |].
      apply (Permutation_Forall (sort_insert_Permutation x l)).
      constructor; assumption.
Qed.

Lemma Array_sort_Sorted (l : list A) :
  StronglySorted le (Array_sort (getAlphabeticSorter key) l).
Proof.
  induction l as [|x l IH]; simpl; [constructor | apply sort_insert_Sorted; exact IH].
Qed.

(** Sorting commutes with taking the keys. *)
Lemma sort_insert_keys (x : A) (l : list A) :
  map key (sort_insert (getAlphabeticSorter key) x l)
  = sort_insert String.compare (key x) (map key l).
Proof.
  induction l as [|y l IH]; simpl; [reflexivity |].
  unfold getAlphabeticSorter at 1.
  destruct (String.compare (key x) (key y)); simpl; try reflexivity.
  rewrite IH. reflexivity.
Qed.

Lemma Array_sort_keys (l : list A) :
  map key (Array_sort (getAlphabeticSorter key) l)
  = Array_sort String.compare (map key l).
Proof.
  induction l as [|x l IH]; simpl; [reflexivity |].
  rewrite sort_insert_keys, IH. reflexivity.
Qed.
End SortFacts.

(** Two sorted lists of strings with the same elements are the same list. *)
Lemma sorted_strings_unique (l1 l2 : list string) :
  StronglySorted str_le l1 -> StronglySorted str_le l2 -> Permutation l1 l2 -> l1 = l2.
Proof.
  intros Hs1. revert l2. induction Hs1 as [|x l1 Hs1 IH Hx]; intros l2 Hs2 Hp.
  - apply Permutation_nil in Hp. congruence.
  - destruct Hs2 as [|y l2 Hs2 Hy].
    + apply Permutation_sym, Permutation_nil in Hp. discriminate.
    + assert (Hxy : x = y).
      { apply str_le_antisym.
        - assert (Hin : In y (x :: l1)).
          { apply (Permutation_in _ (Permutation_sym Hp)). left. reflexivity. }
          destruct Hin as [<- | Hin]; [apply str_le_refl |].
          rewrite List.Forall_forall in Hx. apply Hx. exact Hin.
        - assert (Hin : In x (y :: l2)).
          { apply (Permutation_in _ Hp). left. reflexivity. }
          destruct Hin as [<- | Hin]; [apply str_le_refl |].
          rewrite List.Forall_forall in Hy. apply Hy. exact Hin. }
      subst y. f_equal. apply IH; [exact Hs2 |].
      eapply Permutation_cons_inv. exact Hp.
Qed.

Lemma Array_sort_strings_Sorted (l : list string) :
  StronglySorted str_le (Array_sort String.compare l).
Proof. exact (Array_sort_Sorted (fun s => s) l). Qed.

Lemma Array_sort_strings_Permutation (l : list string) :
  Permutation l (Array_sort String.compare l).
Proof. exact (Array_sort_Permutation (fun s => s) l). Qed.

(** The full paths of the sorted routes do not depend on the order in which
    the routes were registered. *)
Lemma sorted_paths_permutation (l1 l2 : list Alias) :
  Permutation l1 l2 ->
  map fullPath (Array_sort (getAlphabeticSorter fullPath) l1)
  = map fullPath (Array_sort (getAlphabeticSorter fullPath) l2).
Proof.
  intros Hp. rewrite !Array_sort_keys.
  apply sorted_strings_unique; try apply Array_sort_strings_Sorted.
  rewrite <- !Array_sort_strings_Permutation. apply Permutation_map. exact Hp.
Qed.

(** ** Methods that return *)

Lemma rbind_Ok {A B : Type} (r : result A) (f : A -> result B) (b : B) :
  rbind r f = Ok b -> exists a, r = Ok a /\ f a = Ok b.
Proof. destruct r as [a | e]; simpl; [eauto | discriminate]. Qed.

Lemma bind_Ok {A B : Type} (m : M A) (f : A -> M B) (g g' : Generator) (b : B) :
  bind m f g = Ok (b, g') -> exists a g1, m g = Ok (a, g1) /\ f a g1 = Ok (b, g').
Proof.
  unfold bind. destruct (m g) as [[a g1] | e]; [eauto | discriminate].
Qed.

Lemma lift_Ok {A : Type} (r : result A) (g g' : Generator) (a : A) :
  lift r g = Ok (a, g') -> r = Ok a /\ g' = g.
Proof. unfold lift. destruct r; intros Hr; [injection Hr as -> ->; auto | discriminate]. Qed.

Lemma ret_Ok {A : Type} (a b : A) (g g' : Generator) :
  ret a g = Ok (b, g') -> b = a /\ g' = g.
Proof. unfold ret. intros Hr. injection Hr as -> ->. auto. Qed.

Lemma warn_Ok (msg : string) (g g' : Generator) (u : unit) :
  warn msg g = Ok (u, g') ->
  g' = mkGenerator (components g) (document g) (warnings g ++ [msg]).
Proof. unfold warn. intros Hr. injection Hr as _ <-. reflexivity. Qed.

Lemma get_components_Ok (g g' : Generator) (c : props) :
  get_components g = Ok (c, g') -> c = components g /\ g' = g.
Proof. unfold get_components. intros Hr. injection Hr as <- <-. auto. Qed.

Lemma put_components_Ok (c : props) (g g' : Generator) (u : unit) :
  put_components c g = Ok (u, g') -> g' = mkGenerator c (document g) (warnings g).
Proof. unfold put_components. intros Hr. injection Hr as _ <-. reflexivity. Qed.

(** Inversion of a method that returned: one step, and to the end. *)
Ltac minv1 :=
  match goal with
  | H : Ok _ = Ok ?x |- _ => is_var x; injection H as H; subst x
  | H : bind _ _ _ = Ok (_, _) |- _ =>
      let a := fresh "a" in
      let g := fresh "g" in
      let H1 := fresh "Hm" in
      apply bind_Ok in H; destruct H as [a [g [H1 H]]]
  | H : lift _ _ = Ok (_, _) |- _ =>
      let E := fresh "Hg" in
      apply lift_Ok in H; destruct H as [H E]; try subst
  | H : ret _ _ = Ok (_, _) |- _ =>
      let E := fresh "Hg" in
      apply ret_Ok in H; destruct H as [H E]; try subst
  | H : get_components _ = Ok (_, _) |- _ =>
      let E := fresh "Hg" in
      apply get_components_Ok in H; destruct H as [H E]; try subst
  | H : put_components _ _ = Ok (_, _) |- _ =>
      apply put_components_Ok in H; try subst
  | H : warn _ _ = Ok (_, _) |- _ =>
      apply warn_Ok in H; try subst
  | H : throw _ _ = Ok _ |- _ => discriminate H
  | H : rbind _ _ = Ok _ |- _ =>
      let a := fresh "a" in
      let H1 := fresh "Hr" in
      apply rbind_Ok in H; destruct H as [a [H1 H]]
  end.

Ltac minv := repeat minv1.

Section GenerateFacts.
Context `{Constants} `{Collaborators}.

Lemma generate_Ok (openApiVersion : string) (aliases l : list Alias) (g : Generator)
    (document : value) (w : list string) :
  generate openApiVersion aliases g = (l, Ok (document, w)) ->
  l = Array_sort (getAlphabeticSorter fullPath) aliases
  /\ exists a0 g0 a1 g1 g2,
       seed openApiVersion g = Ok (a0, g0)
       /\ mfold route_step l a0 g0 = Ok (a1, g1)
       /\ finish a1 g1 = Ok (document, g2)
       /\ w = warnings g2.
Proof.
  unfold generate. destruct (seed openApiVersion g) as [[a0 g0] | e] eqn:Es;
    [| intros Hg; injection Hg as _ Hg; discriminate].
  intros Hg. injection Hg as <- Hg. split; [reflexivity |].
  match type of Hg with match ?m with _ => _ end = _ =>
    destruct m as [[d g2] | e] eqn:Em; [| discriminate] end.
  injection Hg as <- <-.
  apply bind_Ok in Em. destruct Em as [a1 [g1 [Hfold Hfin]]].
  exists a0, g0, a1, g1, g2. auto.
Qed.

(** The array [generate] leaves is the sorted array of the routes. *)
Lemma generate_leaves_sorted (openApiVersion : string)
    (aliases l : list Alias) (g : Generator) (document : value) (w : list string) :
  generate openApiVersion aliases g = (l, Ok (document, w)) ->
  l = Array_sort (getAlphabeticSorter fullPath) aliases.
Proof. intros Hg. apply generate_Ok in Hg. destruct Hg as [-> _]. reflexivity. Qed.

(** C10.  [generate] sorts the caller's array in place: when the call
    returns, the array holds the routes it was given, reordered ascending
    by full path. *)
Theorem generate_sorts_the_routes_in_place (openApiVersion : string)
    (aliases l : list Alias) (g : Generator) (document : value) (w : list string) :
  generate openApiVersion aliases g = (l, Ok (document, w)) ->
  l = Array_sort (getAlphabeticSorter fullPath) aliases
  /\ Permutation aliases l
  /\ StronglySorted path_le l.
Proof.
  intros Hg. apply generate_Ok in Hg. destruct Hg as [-> _].
  split; [reflexivity |]. split.
  - apply Array_sort_Permutation.
  - apply (Array_sort_Sorted fullPath).
Qed.

(** C6.  A document [generate] returns has no marker key, in any object
    at any depth, also inside arrays. *)
Theorem generate_document_marker_free (openApiVersion : string)
    (aliases l : list Alias) (g : Generator) (document : value) (w : list string) :
  generate openApiVersion aliases g = (l, Ok (document, w)) ->
  marker_free document = true.
Proof.
  intros Hg. apply generate_Ok in Hg.
  destruct Hg as [_ [a0 [g0 [a1 [g1 [g2 [_ [_ [Hfin _]]]]]]]]].
  unfold finish in Hfin. minv.
  eapply removeExtensions_marker_free. eassumption.
Qed.
End GenerateFacts.

(** ** The path keys of the document *)

Lemma js_delete_lookup_ne (k k' : string) (o : props) :
  k <> k' -> js_lookup k' (js_delete k o) = js_lookup k' o.
Proof.
  intros Hne. unfold js_delete. induction o as [|[k0 v0] o IH]; simpl; [reflexivity |].
  destruct (String.eqb k k0) eqn:E; simpl.
  - apply String.eqb_eq in E. subst k0. rewrite eqb_false_ne by congruence. exact IH.
  - destruct (String.eqb k' k0); [reflexivity | exact IH].
Qed.

Lemma filter_keys_NoDup (p : string * value -> bool) (o : props) :
  List.NoDup (js_keys o) -> List.NoDup (js_keys (List.filter p o)).
Proof.
  unfold js_keys. induction o as [|kv o IH]; simpl; intros Hnd; [constructor |].
  inversion Hnd as [|? ? Hnin Hnd']; subst.
  destruct (p kv); simpl; [| apply IH; exact Hnd'].
  constructor; [| apply IH; exact Hnd'].
  intros Hin. apply Hnin. apply in_map_iff in Hin. destruct Hin as [x [Hx Hin]].
  apply filter_In in Hin. destruct Hin as [Hin _]. apply in_map_iff. exists x. auto.
Qed.

Lemma js_delete_NoDup (k : string) (o : props) :
  List.NoDup (js_keys o) -> List.NoDup (js_keys (js_delete k o)).
Proof. apply filter_keys_NoDup. Qed.

Lemma fold_set_NoDup (es : list (string * value)) (o : props) :
  List.NoDup (js_keys o) ->
  List.NoDup (js_keys (fold_left (fun acc kv => js_set (fst kv) (snd kv) acc) es o)).
Proof.
  revert o. induction es as [|[k v] es IH]; intros o Hnd; simpl; [exact Hnd |].
  apply IH. apply js_set_NoDup. exact Hnd.
Qed.

Lemma js_spread_NoDup (a b : props) :
  List.NoDup (js_keys a) -> List.NoDup (js_keys (js_spread a b)).
Proof. apply fold_set_NoDup. Qed.

Section Frames.
Context `{Constants} `{Collaborators}.

Lemma doc_frame_refl (d : props) : doc_frame d d.
Proof. split; auto. Qed.

Lemma doc_frame_trans (d1 d2 d3 : props) :
  doc_frame d1 d2 -> doc_frame d2 d3 -> doc_frame d1 d3.
Proof.
  intros [H12 N12] [H23 N23]. split; [| auto].
  intros k Ht Hs. rewrite H23, H12 by assumption. reflexivity.
Qed.

Lemma doc_frame_set_tags (d : props) (v : value) : doc_frame d (js_set "tags" v d).
Proof.
  split; [| apply js_set_NoDup].
  intros k Ht Hs. apply js_lookup_set_ne. congruence.
Qed.

Lemma doc_frame_set_servers (d : props) (v : value) : doc_frame d (js_set "servers" v d).
Proof.
  split; [| apply js_set_NoDup].
  intros k Ht Hs. apply js_lookup_set_ne. congruence.
Qed.

Lemma addServerToDocument_frame (d d' : props) (server : value) :
  addServerToDocument d server = Ok d' -> doc_frame d d'.
Proof.
  unfold addServerToDocument. intros Ha. minv.
  assert (Hd : doc_frame d
                 (if truthy (js_get "servers" (VObj d)) then d
                  else js_set "servers" (VArr []) d)).
  { destruct (truthy (js_get "servers" (VObj d)));
      [apply doc_frame_refl | apply doc_frame_set_servers]. }
  destruct (existsb _ a).
  - injection Ha as <-. exact Hd.
  - injection Ha as <-. eapply doc_frame_trans; [exact Hd | apply doc_frame_set_servers].
Qed.

Lemma register_tag_Err (tm : gmap string value) (l : list string) (e : string) :
  fold_left (register_tag tm) l (Err e) = Err e.
Proof. induction l as [|t l IH]; simpl; [reflexivity | exact IH]. Qed.

Lemma register_tags_frame (tm : gmap string value) (l : list string) (d d' : props) :
  fold_left (register_tag tm) l (Ok d) = Ok d' -> doc_frame d d'.
Proof.
  revert d. induction l as [|tag l IH]; intros d Hf.
  - injection Hf as <-. apply doc_frame_refl.
  - cbn [fold_left] in Hf. unfold register_tag at 2 in Hf. cbn [rbind] in Hf.
    destruct (as_array (js_get "tags" (VObj d))) as [docTags |] eqn:Et; cbn [rbind] in Hf;
      [| rewrite register_tag_Err in Hf; discriminate].
    match type of Hf with fold_left _ _ (if ?c then _ else _) = _ => destruct c end.
    + eapply doc_frame_trans; [apply doc_frame_set_tags | apply (IH _ Hf)].
    + apply (IH _ Hf).
Qed.

Lemma handleTags_frame (d d' : props) (tm : gmap string value) (tags : value)
    (u : list string) :
  handleTags d tm tags = Ok (d', u) -> doc_frame d d'.
Proof.
  unfold handleTags. intros Ha. minv. injection Ha as <- _.
  apply register_tags_frame in Hr0.
  eapply doc_frame_trans; [| exact Hr0].
  destruct (truthy (js_get "tags" (VObj d)));
    [apply doc_frame_refl | apply doc_frame_set_tags].
Qed.
End Frames.

(** A pair bound by a pattern. *)
Ltac mpair :=
  match goal with
  | H : context [match ?x with pair _ _ => _ end] |- _ => is_var x; destruct x
  end.

Ltac minv' := repeat (minv1 || mpair).

Lemma mfold_preserves {A S : Type} (f : S -> A -> M S) (Inv : S -> Prop) :
  (forall s x g s' g', Inv s -> f s x g = Ok (s', g') -> Inv s') ->
  forall l s g s' g', Inv s -> mfold f l s g = Ok (s', g') -> Inv s'.
Proof.
  intros Hstep l. induction l as [|x l IH]; intros s g s' g' Hs Hf; simpl in Hf.
  - minv. exact Hs.
  - minv. eapply IH; [| eassumption]. eapply Hstep; eassumption.
Qed.

Section AssemblyFrames.
Context `{Constants} `{Collaborators}.

Lemma new_operation_frame (alias : Alias) (openapiPath : string) (pathAction : PathAction)
    (a a' : Assembly) (g g' : Generator) (operation : value) :
  new_operation alias openapiPath pathAction a g = Ok ((operation, a'), g') ->
  doc_frame (doc a) (doc a').
Proof.
  unfold new_operation. intros Hn. minv'.
  match goal with Hh : handleTags _ _ _ = Ok _ |- _ => apply handleTags_frame in Hh end.
  injection Hn as _ Ha'. subst a'. cbn [doc].
  destruct (truthy (alias_server alias)).
  - minv.
    match goal with Hs : addServerToDocument _ _ = Ok _ |- _ =>
      apply addServerToDocument_frame in Hs end.
    eapply doc_frame_trans; eassumption.
  - minv. assumption.
Qed.

Lemma path_action_frame (alias : Alias) (openapiPath : string) (pathAction : PathAction)
    (currentPath currentPath' : value) (a a' : Assembly) (g g' : Generator) :
  path_action alias openapiPath (currentPath, a) pathAction g = Ok ((currentPath', a'), g') ->
  doc_frame (doc a) (doc a').
Proof.
  unfold path_action. intros Hp.
  destruct (truthy (js_get (method pathAction) currentPath)).
  - minv'. destruct a0.
    + minv'. injection Hp as _ Ha'. subst a'. cbn [doc].
      eapply addServerToDocument_frame. eassumption.
    + minv'. injection Hp as _ Ha'. subst a'. apply doc_frame_refl.
  - minv'. injection Hp as _ Ha'. subst. eapply new_operation_frame. eassumption.
Qed.

Lemma path_actions_frame (alias : Alias) (openapiPath : string) (l : list PathAction)
    (currentPath currentPath' : value) (a a' : Assembly) (g g' : Generator) :
  mfold (path_action alias openapiPath) l (currentPath, a) g = Ok ((currentPath', a'), g') ->
  doc_frame (doc a) (doc a').
Proof.
  intros Hf.
  apply (mfold_preserves (path_action alias openapiPath)
           (fun s => doc_frame (doc a) (doc (snd s)))) in Hf.
  - exact Hf.
  - intros [cp s] x g0 [cp' s'] g0' Hs Hstep. simpl in *.
    eapply doc_frame_trans; [exact Hs | eapply path_action_frame; eassumption].
  - apply doc_frame_refl.
Qed.
End AssemblyFrames.

Lemma rmap_entries (f : value -> result value) (l es : list (string * value)) :
  rmap (fun kv => do x' <- f (snd kv); Ok (fst kv, x')) l = Ok es ->
  Forall2 (fun kv kv' => fst kv' = fst kv /\ f (snd kv) = Ok (snd kv')) l es.
Proof.
  revert es. induction l as [|[k x] l IH]; intros es Hr; simpl in Hr.
  - injection Hr as <-. constructor.
  - destruct (f x) as [x' |] eqn:Ex; [| discriminate]. simpl in Hr.
    match type of Hr with (do ys <- ?r; _) = _ => destruct r as [es0 |] eqn:E0 end;
      [| discriminate].
    injection Hr as <-. constructor; [split; [reflexivity | exact Ex] | apply IH; reflexivity].
Qed.

Lemma Forall2_entries_keys (f : value -> result value) (l es : list (string * value)) :
  Forall2 (fun kv kv' => fst kv' = fst kv /\ f (snd kv) = Ok (snd kv')) l es ->
  js_keys es = js_keys l.
Proof.
  induction 1 as [|[k x] [k' x'] l es [Hk _] _ IH]; simpl; [reflexivity |].
  simpl in Hk. subst k'. f_equal. exact IH.
Qed.

Lemma Forall2_entries_lookup (f : value -> result value) (l es : list (string * value))
    (k : string) :
  Forall2 (fun kv kv' => fst kv' = fst kv /\ f (snd kv) = Ok (snd kv')) l es ->
  match js_lookup k l with
  | Some x => exists x', f x = Ok x' /\ js_lookup k es = Some x'
  | None => js_lookup k es = None
  end.
Proof.
  induction 1 as [|[k0 x] [k' x'] l es [Hk Hx] _ IH]; simpl; [reflexivity |].
  simpl in Hk, Hx. subst k'. destruct (String.eqb k k0); [| exact IH].
  exists x'. auto.
Qed.

Lemma js_lookup_filter_key (p : string -> bool) (k : string) (o : props) :
  js_lookup k (List.filter (fun kv => p (fst kv)) o) =
  if p k then js_lookup k o else None.
Proof.
  induction o as [|[k0 x] o IH]; simpl; [destruct (p k); reflexivity |].
  destruct (p k0) eqn:Ep0; simpl.
  - destruct (String.eqb k k0) eqn:E; [| exact IH].
    apply String.eqb_eq in E. subst k0. rewrite Ep0. reflexivity.
  - destruct (String.eqb k k0) eqn:E; [| exact IH].
    apply String.eqb_eq in E. subst k0. rewrite Ep0 in *. exact IH.
Qed.

Lemma js_keys_filter_key (p : string -> bool) (o : props) :
  js_keys (List.filter (fun kv => p (fst kv)) o) = List.filter p (js_keys o).
Proof.
  induction o as [|[k0 x] o IH]; simpl; [reflexivity |].
  destruct (p k0); simpl; [f_equal |]; exact IH.
Qed.

Section StripFacts.
Context `{Constants}.

(** The object an object is stripped to, when its keys are distinct. *)
Lemma removeExtensions_object_Ok (o : props) (r : value) :
  List.NoDup (js_keys o) ->
  removeExtensions (VObj o) = Ok r ->
  exists es,
    r = VObj es
    /\ js_keys es = List.filter (fun k => negb (is_extension k)) (js_keys o)
    /\ forall k,
         match js_lookup k o with
         | Some x =>
             if is_extension k then js_lookup k es = None
             else exists x', removeExtensions x = Ok x' /\ js_lookup k es = Some x'
         | None => js_lookup k es = None
         end.
Proof.
  intros Hnd Hr. rewrite removeExtensions_object, delete_extensions_filter in Hr.
  apply rbind_Ok in Hr. destruct Hr as [es [Hes Hr]]. injection Hr as <-.
  apply rmap_entries in Hes.
  pose proof (Forall2_entries_keys _ _ _ Hes) as Hkeys.
  rewrite (js_keys_filter_key (fun k => negb (is_extension k))) in Hkeys.
  assert (Hfrom : js_fromEntries es = es).
  { apply js_fromEntries_NoDup. change (map fst es) with (js_keys es). rewrite Hkeys.
    clear -Hnd. induction Hnd as [|k ks Hk Hnd IH]; simpl; [constructor |].
    destruct (negb (is_extension k)); [| exact IH].
    constructor; [| exact IH]. intros Hin. apply filter_In in Hin. tauto. }
  exists es. rewrite Hfrom. split; [reflexivity |]. split; [exact Hkeys |].
  intros k. pose proof (Forall2_entries_lookup _ _ _ k Hes) as Hl.
  rewrite (js_lookup_filter_key (fun k => negb (is_extension k))) in Hl.
  destruct (js_lookup k o) as [x |]; destruct (is_extension k); simpl in Hl; exact Hl.
Qed.
End StripFacts.

Section PathKeys.
Context `{Constants} `{Collaborators}.

Lemma route_step_paths (a a' : Assembly) (alias : Alias) (g g' : Generator)
    (ks : list string) :
  paths_state (doc a) ks ->
  route_step a alias g = Ok (a', g') ->
  paths_state (doc a') (add_key (openapiPath_of alias) ks).
Proof.
  intros [Hnd [Hks Hp]] Hs. unfold route_step in Hs.
  set (document := if truthy (js_get "paths" (VObj (doc a))) then doc a
                   else js_set "paths" (VObj []) (doc a)) in Hs.
  assert (Hdoc : List.NoDup (js_keys document)
                 /\ exists paths, js_lookup "paths" document = Some (VObj paths)
                                  /\ js_keys paths = ks).
  { subst document. destruct Hp as [[-> Hnone] | [paths [Hsome Hkeys]]].
    - simpl. rewrite Hnone. simpl. split; [apply js_set_NoDup; exact Hnd |].
      exists []. split; [apply js_lookup_set_eq | reflexivity].
    - simpl. rewrite Hsome. simpl. split; [exact Hnd |]. exists paths. auto. }
  destruct Hdoc as [Hndd [paths [Hpaths Hkeys]]].
  minv'.
  match goal with Hf : mfold _ _ _ _ = Ok _ |- _ => apply path_actions_frame in Hf;
    cbn [doc] in Hf; destruct Hf as [Hframe Hnd2] end.
  match goal with Hj : js_assign _ _ (js_get "paths" (VObj (doc ?x))) = Ok _ |- _ =>
    assert (Hp2 : js_lookup "paths" (doc x) = Some (VObj paths))
      by (rewrite Hframe by discriminate; exact Hpaths);
    simpl in Hj; rewrite Hp2 in Hj; simpl in Hj; injection Hj as Hj; subst end.
  cbn [doc].
  split; [apply js_set_NoDup; auto |].
  split; [apply add_key_NoDup; exact Hks |].
  right. eexists. split; [apply js_lookup_set_eq |].
  rewrite js_keys_set. reflexivity.
Qed.

Lemma route_steps_paths (l : list Alias) (a a' : Assembly) (g g' : Generator)
    (ks : list string) :
  paths_state (doc a) ks ->
  mfold route_step l a g = Ok (a', g') ->
  paths_state (doc a')
    (fold_left (fun acc k => add_key k acc) (map openapiPath_of l) ks).
Proof.
  revert a g ks. induction l as [|alias l IH]; intros a g ks Hp Hf; simpl in Hf.
  - minv. exact Hp.
  - minv. simpl. eapply IH; [| eassumption]. eapply route_step_paths; eassumption.
Qed.

Lemma seed_paths (openApiVersion : string) (g g' : Generator) (a : Assembly) :
  List.NoDup (js_keys (document g)) ->
  js_lookup "paths" (document g) = None ->
  seed openApiVersion g = Ok (a, g') ->
  paths_state (doc a) [].
Proof.
  intros Hnd Hnone Hs. unfold seed in Hs.
  set (g1 := if truthy (js_get "openapi" (VObj (document g)))
             then mkGenerator (components g) (js_delete "openapi" (document g))
                    (warnings g ++ ["setting manually the openapi version is not supported"])
             else g) in Hs.
  assert (Hg1 : List.NoDup (js_keys (document g1))
                /\ js_lookup "paths" (document g1) = None).
  { subst g1. destruct (truthy (js_get "openapi" (VObj (document g)))); simpl.
    - split; [apply js_delete_NoDup; exact Hnd |].
      rewrite js_delete_lookup_ne by discriminate. exact Hnone.
    - auto. }
  destruct Hg1 as [Hnd1 Hnone1]. minv. injection Hs as <- _. cbn [doc].
  match goal with |- paths_state (if ?c then js_delete _ ?d else _) _ =>
    assert (Hd : List.NoDup (js_keys d) /\ js_lookup "paths" d = None) end.
  { split.
    - repeat apply js_set_NoDup. apply js_spread_NoDup.
      simpl. constructor; [simpl; tauto | constructor].
    - rewrite !js_lookup_set_ne by discriminate.
      rewrite js_lookup_spread by exact Hnd1. rewrite Hnone1. reflexivity. }
  destruct Hd as [Hd1 Hd2].
  match goal with |- paths_state (if ?c then _ else _) _ => destruct c end.
  - split; [apply js_delete_NoDup; exact Hd1 |]. split; [constructor |].
    left. split; [reflexivity |]. rewrite js_delete_lookup_ne by discriminate. exact Hd2.
  - split; [exact Hd1 |]. split; [constructor |]. left. auto.
Qed.

Lemma finish_paths (a : Assembly) (g g' : Generator) (document : value)
    (ks : list string) :
  is_extension "paths" = false ->
  paths_state (doc a) ks ->
  finish a g = Ok (document, g') ->
  path_keys document = List.filter (fun k => negb (is_extension k)) ks.
Proof.
  intros Hext [Hnd [Hks Hp]] Hf. unfold finish in Hf. minv.
  match goal with Hr : removeExtensions (VObj ?top) = Ok _ |- _ =>
    assert (Htop : List.NoDup (js_keys top)
                   /\ js_lookup "paths" top = js_lookup "paths" (doc a));
    [| destruct Htop as [Hnd' Hl];
       destruct (removeExtensions_object_Ok _ _ Hnd' Hr) as [es [-> [_ Hes]]] ]
  end.
  { destruct (js_get "tags" (VObj (doc a))); try discriminate;
      match goal with Ht : Ok _ = Ok _ |- _ => injection Ht as <- end;
      (split; [repeat apply js_set_NoDup; exact Hnd
              | rewrite ?js_lookup_set_ne by discriminate; reflexivity]). }
  specialize (Hes "paths"). rewrite Hl in Hes. unfold path_keys. simpl.
  destruct Hp as [[-> Hnone] | [paths [Hsome Hkeys]]].
  - rewrite Hnone in Hes. rewrite Hes. reflexivity.
  - rewrite Hsome, Hext in Hes. destruct Hes as [x' [Hx' Hlx]]. rewrite Hlx. simpl.
    assert (Hndp : List.NoDup (js_keys paths)) by (rewrite Hkeys; exact Hks).
    destruct (removeExtensions_object_Ok _ _ Hndp Hx') as [ps [-> [Hps _]]].
    simpl. rewrite Hps, Hkeys. reflexivity.
Qed.

(** The path keys of a returned document, for a base document without
    [paths]. *)
Lemma generate_path_keys (openApiVersion : string) (aliases l : list Alias)
    (g : Generator) (d : value) (w : list string) :
  is_extension "paths" = false ->
  List.NoDup (js_keys (document g)) ->
  js_lookup "paths" (document g) = None ->
  generate openApiVersion aliases g = (l, Ok (d, w)) ->
  path_keys d =
  List.filter (fun k => negb (is_extension k))
    (first_occurrences (map openapiPath_of l)).
Proof.
  intros Hext Hnd Hnone Hg. apply generate_Ok in Hg.
  destruct Hg as [_ [a0 [g0 [a1 [g1 [g2 [Hseed [Hfold [Hfin _]]]]]]]]].
  eapply finish_paths; [exact Hext | | exact Hfin].
  eapply route_steps_paths; [| exact Hfold].
  eapply seed_paths; eassumption.
Qed.
End PathKeys.

(** ** Keys in the order of the routes *)

Lemma add_key_In (k k' : string) (ks : list string) :
  In k' (add_key k ks) <-> k' = k \/ In k' ks.
Proof.
  unfold add_key. destruct (existsb (String.eqb k) ks) eqn:E.
  - apply existsb_eqb_In in E. split; [tauto |]. intros [-> | Hin]; assumption.
  - rewrite in_app_iff. simpl. split; intros Hin; destruct Hin as [Hin | Hin]; auto.
    + destruct Hin as [<- | []]. auto.
Qed.

Lemma fold_add_key_In (k : string) (ks acc : list string) :
  In k (fold_left (fun acc k => add_key k acc) ks acc) <-> In k ks \/ In k acc.
Proof.
  revert acc. induction ks as [|k0 ks IH]; intros acc; simpl; [tauto |].
  rewrite IH, add_key_In. split; intros Hin.
  - destruct Hin as [Hin | [-> | Hin]]; auto.
  - destruct Hin as [[<- | Hin] | Hin]; auto.
Qed.

Lemma first_occurrences_In (k : string) (ks : list string) :
  In k (first_occurrences ks) <-> In k ks.
Proof. unfold first_occurrences. rewrite fold_add_key_In. simpl. tauto. Qed.

Lemma fold_add_key_sublist {A : Type} (f : A -> string) (l acc : list A) :
  exists l', sublist l' l
             /\ fold_left (fun acc k => add_key k acc) (map f l) (map f acc)
                = map f (acc ++ l').
Proof.
  revert acc. induction l as [|x l IH]; intros acc; simpl.
  - exists []. split; [constructor | rewrite app_nil_r; reflexivity].
  - unfold add_key at 2. destruct (existsb (String.eqb (f x)) (map f acc)).
    + destruct (IH acc) as [l' [Hsub Heq]]. exists l'. split; [| exact Heq].
      apply sublist_cons. exact Hsub.
    + destruct (IH (acc ++ [x])) as [l' [Hsub Heq]]. exists (x :: l'). split.
      * apply sublist_skip. exact Hsub.
      * rewrite map_app in Heq. simpl in Heq. rewrite Heq, <- app_assoc. reflexivity.
Qed.

Lemma first_occurrences_sublist {A : Type} (f : A -> string) (l : list A) :
  exists l', sublist l' l /\ first_occurrences (map f l) = map f l'.
Proof. exact (fold_add_key_sublist f l []). Qed.

Lemma filter_map_sublist {A : Type} (f : A -> string) (p : string -> bool) (l : list A) :
  exists l', sublist l' l /\ List.filter p (map f l) = map f l'.
Proof.
  induction l as [|x l [l' [Hsub Heq]]]; simpl.
  - exists []. split; [constructor | reflexivity].
  - destruct (p (f x)).
    + exists (x :: l'). split; [apply sublist_skip; exact Hsub | simpl; f_equal; exact Heq].
    + exists l'. split; [apply sublist_cons; exact Hsub | exact Heq].
Qed.

Lemma StronglySorted_sublist {A : Type} (R : A -> A -> Prop) (l' l : list A) :
  sublist l' l -> StronglySorted R l -> StronglySorted R l'.
Proof.
  induction 1 as [|x l1 l2 Hsub IH | x l1 l2 Hsub IH]; intros Hs.
  - constructor.
  - inversion Hs as [|? ? Hs' Hall]; subst. constructor; [apply IH; exact Hs' |].
    rewrite List.Forall_forall in *. intros y Hy. apply Hall.
    apply list_elem_of_In. eapply elem_of_sublist; [| exact Hsub].
    apply list_elem_of_In. exact Hy.
  - inversion Hs; subst. auto.
Qed.

Section PathOrder.
Context `{Constants} `{Collaborators}.

Lemma openapiPath_of_fullPath (l : list Alias) :
  map openapiPath_of l
  = map (fun p => formatParamUrl (normalizePath p)) (map fullPath l).
Proof. rewrite map_map. reflexivity. Qed.

(** C4.  For a base document that brings no paths of its own: the path
    keys of the document [generate] returns are those of the routes, in
    the order of the routes sorted ascending by full path, each key
    at its first route; every route's key is there, unless it is a marker
    key; and two route lists that are permutations of each other give the
    same path keys in the same order. *)
Theorem generate_paths_ascending_by_full_path (openApiVersion : string)
    (l1 l2 s1 s2 : list Alias) (g : Generator) (d1 d2 : value) (w1 w2 : list string) :
  is_extension "paths" = false ->
  List.NoDup (js_keys (document g)) ->
  js_lookup "paths" (document g) = None ->
  Permutation l1 l2 ->
  generate openApiVersion l1 g = (s1, Ok (d1, w1)) ->
  generate openApiVersion l2 g = (s2, Ok (d2, w2)) ->
  (exists routes,
     sublist routes s1
     /\ Permutation l1 s1
     /\ StronglySorted path_le s1
     /\ StronglySorted path_le routes
     /\ path_keys d1 = map openapiPath_of routes)
  /\ (forall alias,
        In alias l1 -> is_extension (openapiPath_of alias) = false ->
        In (openapiPath_of alias) (path_keys d1))
  /\ path_keys d1 = path_keys d2.
Proof.
  intros Hext Hnd Hnone Hperm Hg1 Hg2.
  pose proof (generate_path_keys _ _ _ _ _ _ Hext Hnd Hnone Hg1) as Hk1.
  pose proof (generate_path_keys _ _ _ _ _ _ Hext Hnd Hnone Hg2) as Hk2.
  pose proof (generate_leaves_sorted _ _ _ _ _ _ Hg1) as Hs1.
  pose proof (generate_leaves_sorted _ _ _ _ _ _ Hg2) as Hs2.
  assert (Hp1 : Permutation l1 s1) by (rewrite Hs1; apply Array_sort_Permutation).
  assert (Hsorted1 : StronglySorted path_le s1)
    by (rewrite Hs1; apply (Array_sort_Sorted fullPath)).
  split; [| split].
  - destruct (first_occurrences_sublist openapiPath_of s1) as [r1 [Hsub1 Hr1]].
    destruct (filter_map_sublist openapiPath_of (fun k => negb (is_extension k)) r1)
      as [r2 [Hsub2 Hr2]].
    exists r2. split; [etransitivity; eassumption |].
    split; [exact Hp1 |]. split; [exact Hsorted1 |]. split.
    + eapply StronglySorted_sublist; [| exact Hsorted1]. etransitivity; eassumption.
    + rewrite Hk1, Hr1. exact Hr2.
  - intros alias Hin Hne. rewrite Hk1. apply filter_In. split.
    + apply first_occurrences_In. apply in_map.
      eapply Permutation_in; [exact Hp1 | exact Hin].
    + rewrite Hne. reflexivity.
  - rewrite Hk1, Hk2. rewrite !openapiPath_of_fullPath. subst s1 s2.
    rewrite (sorted_paths_permutation _ _ Hperm). reflexivity.
Qed.
End PathOrder.

(** ** A path and method that are taken *)

Section TakenPath.
Context `{Constants} `{Collaborators}.

Lemma js_get_VArr_object (k : string) (v : value) (l : list value) :
  js_get k v = VArr l -> v = VObj (props_of v).
Proof. destruct v; simpl; try discriminate. reflexivity. Qed.

Lemma truthy_get_object (k : string) (v : value) :
  truthy (js_get k v) = true -> v = VObj (props_of v).
Proof. destruct v; simpl; try discriminate. reflexivity. Qed.

(** The registration of an operation records the name of its action under
    the path and method. *)
Lemma new_operation_records_action (alias : Alias) (openapiPath : string)
    (pathAction : PathAction) (a a' : Assembly) (g g' : Generator) (operation : value) :
  new_operation alias openapiPath pathAction a g = Ok ((operation, a'), g') ->
  cachePathActions a' !! (openapiPath +:+ "." +:+ method pathAction)
  = Some (js_get "name" (pa_action pathAction)).
Proof.
  unfold new_operation. intros Hn. minv'. injection Hn as _ Ha'. subst a'.
  cbn [cachePathActions]. apply lookup_insert_eq.
Qed.

(** The guard at 101-105 holds exactly for an operation with a non-empty
    array of servers none of which has the url of the route's server,
    which must be truthy. *)
Lemma adds_server_true (currentMethod : value) (alias : Alias) (servers : list value) :
  js_get "servers" currentMethod = VArr servers ->
  servers <> [] ->
  truthy (js_get "url" (alias_server alias)) = true ->
  existsb (fun srv => strict_eq (js_get "url" srv) (js_get "url" (alias_server alias)))
    servers = false ->
  adds_server currentMethod alias = Ok true.
Proof.
intros Hs Hne Hurl Hnone. unfold adds_server. rewrite Hs, Hurl. cbn [js_length truthy].
destruct servers as [|s servers]; [contradiction |].
cbn [length]. rewrite Nat2Z.inj_succ.
assert (Hz : (Z.succ (Z.of_nat (length servers)) =? 0)%Z = false) by (apply Z.eqb_neq; lia).
rewrite Hz. cbn [negb andb as_array rbind]. rewrite Hnone. reflexivity.
Qed.

Lemma adds_server_false (currentMethod : value) (alias : Alias) :
  nullish (js_get "servers" currentMethod) = true
  \/ js_get "servers" currentMethod = VArr []
  \/ truthy (js_get "url" (alias_server alias)) = false
  \/ (exists servers,
        js_get "servers" currentMethod = VArr servers
        /\ existsb (fun srv => strict_eq (js_get "url" srv)
                                 (js_get "url" (alias_server alias))) servers = true) ->
  adds_server currentMethod alias = Ok false.
Proof.
unfold adds_server. intros [Hn | [He | [Hu | [servers [Hs Hex]]]]].
- destruct (js_get "servers" currentMethod); try discriminate; reflexivity.
- rewrite He. reflexivity.
- rewrite Hu, andb_false_r. reflexivity.
- rewrite Hs. destruct (truthy (js_length (VArr servers)) && _); [| reflexivity].
  cbn [as_array rbind]. rewrite Hex. reflexivity.
Qed.

Lemma new_operation_servers (alias : Alias) (openapiPath : string)
    (pathAction : PathAction) (a a' : Assembly) (g g' : Generator) (operation : value) :
  new_operation alias openapiPath pathAction a g = Ok ((operation, a'), g') ->
  js_get "servers" operation
  = VArr (if truthy (alias_server alias) then [alias_server alias] else []).
Proof.
unfold new_operation. intros Hn. minv'. injection Hn as Ho _. subst operation. reflexivity.
Qed.

(** C2, as the code has it.  A route meets a path and method that already
    have an operation.  When the operation has a non-empty list of
    servers, the route's service declares a server with a truthy url, and
    no server of the operation has this url, the server is appended to
    the servers of the operation, and to the global servers of the
    document unless one of them has this url already; nothing else
    changes and nothing is logged.  In every other case (the operation
    has no servers or an empty list, the service declares no server or
    one without a url, or a server of the operation has the url) the
    route is skipped: the operation, the document and the cache are left
    as they are, and one warning is logged that names the action the
    cache holds for the path and method.  The cache holds the action that
    registered them, and the operation was registered with the server of
    its own route alone, or with an empty list when that route's service
    declares none: a route that meets such an operation is skipped. *)
Theorem taken_path_and_method (alias : Alias) (openapiPath : string)
    (pathAction : PathAction) (currentPath : value) (a : Assembly) (g : Generator) :
  let currentMethod := js_get (method pathAction) currentPath in
  let server := alias_server alias in
  let key := openapiPath +:+ "." +:+ method pathAction in
  let same_url := fun srv => strict_eq (js_get "url" srv) (js_get "url" server) in
  truthy currentMethod = true ->
  (forall servers docServers,
     js_get "servers" currentMethod = VArr servers ->
     servers <> [] ->
     truthy (js_get "url" server) = true ->
     existsb same_url servers = false ->
     js_get "servers" (VObj (doc a)) = VArr docServers ->
     path_action alias openapiPath (currentPath, a) pathAction g =
     Ok ((VObj (js_set (method pathAction)
                  (VObj (js_set "servers" (VArr (servers ++ [server]))
                           (props_of currentMethod)))
                  (props_of currentPath)),
          mkAssembly
            (if existsb same_url docServers
             then doc a
             else js_set "servers" (VArr (docServers ++ [server])) (doc a))
            (tagsMap a) (cachePathActions a)),
         g))
  /\ (nullish (js_get "servers" currentMethod) = true
      \/ js_get "servers" currentMethod = VArr []
      \/ truthy (js_get "url" server) = false
      \/ (exists servers,
            js_get "servers" currentMethod = VArr servers
            /\ existsb same_url servers = true) ->
      path_action alias openapiPath (currentPath, a) pathAction g =
      Ok ((currentPath, a),
          mkGenerator (components g) (document g)
            (warnings g
             ++ [toUpperCase (method pathAction) +:+ " " +:+ openapiPath
                 +:+ " is already register by action "
                 +:+ to_key (coalesce (default VUndef (cachePathActions a !! key))
                               (VStr "<unamedAction>"))
                 +:+ " skip"])))
  /\ (forall first firstAction a0 g0 a1 g1 operation,
        new_operation first openapiPath firstAction a0 g0 = Ok ((operation, a1), g1) ->
        method firstAction = method pathAction ->
        cachePathActions a1 !! key = Some (js_get "name" (pa_action firstAction))
        /\ js_get "servers" operation
           = VArr (if truthy (alias_server first) then [alias_server first] else [])).
Proof.
  intros currentMethod server key same_url Htaken. split; [| split].
  - intros servers docServers Hservers Hne Hurl Hnone Hdoc.
    pose proof (adds_server_true currentMethod alias servers Hservers Hne Hurl Hnone) as Hadd.
    unfold path_action. fold currentMethod. rewrite Htaken.
    unfold bind at 1. unfold lift at 1. rewrite Hadd.
    unfold bind at 1. unfold lift at 1. rewrite Hservers. cbn [as_array].
    rewrite (js_get_VArr_object _ _ _ Hservers) at 1.
    unfold bind at 1. unfold lift at 1. cbn [js_assign].
    rewrite (truthy_get_object _ _ Htaken) at 1.
    unfold bind at 1. unfold lift at 1. cbn [js_assign].
    unfold bind at 1. unfold lift at 1. unfold addServerToDocument.
    rewrite Hdoc. cbn [truthy]. rewrite Hdoc. cbn [as_array rbind].
    fold server. fold same_url. destruct (existsb same_url docServers); reflexivity.
  - intros Hguard. pose proof (adds_server_false currentMethod alias Hguard) as Hadd.
    unfold path_action. fold currentMethod. rewrite Htaken.
    unfold bind at 1. unfold lift at 1. rewrite Hadd. reflexivity.
  - intros first firstAction a0 g0 a1 g1 operation Hn Hmethod. split.
    + subst key. rewrite <- Hmethod. eapply new_operation_records_action. eassumption.
    + eapply new_operation_servers. eassumption.
Qed.
End TakenPath.

(** ** Names and warnings of the component store *)

Lemma str_app_assoc (a b c : string) : (a +:+ b) +:+ c = a +:+ (b +:+ c).
Proof.
  induction a as [|x a IH]; [reflexivity |].
  change (String x ((a +:+ b) +:+ c) = String x (a +:+ (b +:+ c))). f_equal. exact IH.
Qed.

Lemma str_app_nil_r (a : string) : a +:+ "" = a.
Proof.
  induction a as [|x a IH]; [reflexivity |].
  change (String x (a +:+ "") = String x a). f_equal. exact IH.
Qed.


Lemma under_refl (p : string) : under p p.
Proof. exists "". symmetry. apply str_app_nil_r. Qed.

Lemma under_app (p q n : string) : under (p +:+ q) n -> under p n.
Proof. intros [rest ->]. exists (q +:+ rest). apply str_app_assoc. Qed.

Lemma not_under_longer (p q : string) (c : ascii) : ~ under (p +:+ String c q) p.
Proof.
  intros [rest Heq]. apply (f_equal String.length) in Heq.
  rewrite !length_append in Heq. simpl in Heq. lia.
Qed.


Lemma store_step_refl (p : string) (g : Generator) : store_step p g g.
Proof.
  intros Hwf. split; [exact Hwf |]. split; [reflexivity |]. split; [| reflexivity].
  exists []. split; [rewrite app_nil_r; reflexivity | constructor].
Qed.

Lemma store_step_trans (p : string) (g1 g2 g3 : Generator) :
  store_step p g1 g2 -> store_step p g2 g3 -> store_step p g1 g3.
Proof.
  intros H12 H23 Hwf. destruct (H12 Hwf) as [Hwf2 [Hd2 [[ws2 [Hw2 Hu2]] Hs2]]].
  destruct (H23 Hwf2) as [Hwf3 [Hd3 [[ws3 [Hw3 Hu3]] Hs3]]].
  split; [exact Hwf3 |]. split; [congruence |]. split.
  - exists (ws2 ++ ws3). split; [rewrite Hw3, Hw2, app_assoc; reflexivity |].
    apply Forall_app. split; assumption.
  - intros n Hn. rewrite Hs3, Hs2 by exact Hn. reflexivity.
Qed.

Lemma store_step_weaken (p q : string) (g g' : Generator) :
  (forall n, under q n -> under p n) -> store_step q g g' -> store_step p g g'.
Proof.
  intros Hpq Hq Hwf. destruct (Hq Hwf) as [Hwf' [Hd [[ws [Hw Hu]] Hs]]].
  split; [exact Hwf' |]. split; [exact Hd |]. split.
  - exists ws. split; [exact Hw |]. eapply List.Forall_impl; [| exact Hu].
    intros w [n [Hn ->]]. exists n. auto.
  - intros n Hn. apply Hs. intros Hqn. apply Hn, Hpq. exact Hqn.
Qed.

Section StoreFacts.
Context `{Constants}.

Lemma required_fields_cons (fieldName : string) (rule : value) (fields : props) :
  required_fields ((fieldName, rule) :: fields) =
  (if loose_eq_true (js_get EOA_optional rule) then [] else [fieldName])
  ++ required_fields fields.
Proof.
  unfold required_fields. simpl.
  destruct (loose_eq_true (js_get EOA_optional rule)); reflexivity.
Qed.

Lemma js_member_Ok (k : string) (v x : value) : js_member k v = Ok x -> x = js_get k v.
Proof. destruct v; simpl; intros Hm; congruence. Qed.

Section Fields.
Variable part : string -> value -> M value.
Hypothesis part_step :
  forall n r g v g', part n r g = Ok (v, g') -> store_step n g g'.

Lemma component_fields_fold (name : string) (fields : props)
    (acc acc' : list (string * value) * list string) (g g' : Generator) :
  mfold (component_field part name) fields acc g = Ok (acc', g') ->
  store_step (name +:+ ".") g g'
  /\ snd acc' = snd acc ++ required_fields fields
  /\ map fst (fst acc') = map fst (fst acc) ++ map fst fields.
Proof.
  revert acc g. induction fields as [|[fieldName rule] fields IH]; intros acc g Hf;
    simpl in Hf.
  - minv. split; [apply store_step_refl |]. rewrite !app_nil_r. auto.
  - apply bind_Ok in Hf. destruct Hf as [acc1 [g1 [Hfield Hf]]].
    unfold component_field in Hfield. minv.
    match goal with Hj : js_member _ _ = Ok _ |- _ => apply js_member_Ok in Hj; subst end.
    match goal with Hp : part _ _ _ = Ok _ |- _ => apply part_step in Hp; rename Hp into Hstep end.
    destruct (IH _ _ Hf) as [Hs [Hreq Hkeys]]. cbn [fst snd] in Hreq, Hkeys.
    split; [| split].
    + eapply store_step_trans; [| exact Hs].
      eapply store_step_weaken; [| exact Hstep].
      intros n Hn. rewrite <- str_app_assoc in Hn. eapply under_app. exact Hn.
    + rewrite Hreq, required_fields_cons.
      destruct (loose_eq_true (js_get EOA_optional rule)); simpl;
        [reflexivity | rewrite <- app_assoc; reflexivity].
    + rewrite Hkeys, map_app. simpl. rewrite <- app_assoc. reflexivity.
Qed.

(** A registration: the component it stores, the reference it returns,
    and the warnings it logs. *)
Lemma createSchemaComponentFromObject_registers (name : string)
    (obj customProperties ref : value) (g g' : Generator) :
  wf_store g ->
  createSchemaComponentFromObject_with part name obj customProperties g = Ok (ref, g') ->
  exists fields entries ws,
    js_entries obj = Ok fields
    /\ ref = schema_ref name
    /\ js_lookup name (props_of (schemas_of g'))
       = Some (object_component (js_fromEntries entries) (required_fields fields)
                 customProperties)
    /\ map fst entries = map fst fields
    /\ warnings g'
       = warnings g ++ ws
         ++ (if truthy (stored name g) then [schema_warning name] else [])
    /\ schema_warnings_under (name +:+ ".") ws
    /\ wf_store g'
    /\ document g' = document g
    /\ (forall n, n <> name -> ~ under (name +:+ ".") n -> stored n g' = stored n g)
    /\ ((forall acc acc' g1,
           mfold (component_field part name) fields acc g = Ok (acc', g1) -> g1 = g) ->
        ws = []).
Proof.
  intros Hwf Hc. unfold createSchemaComponentFromObject_with in Hc.
  apply bind_Ok in Hc. destruct Hc as [c0 [g0 [Hc0 Hc]]].
  apply get_components_Ok in Hc0. destruct Hc0 as [-> ->].
  destruct Hwf as [s [Hs Hnd]]. unfold schemas_of in Hs.
  rewrite Hs in Hc. cbn [truthy] in Hc.
  apply bind_Ok in Hc. destruct Hc as [u [g0 [Hu Hc]]].
  apply ret_Ok in Hu. destruct Hu as [_ ->].
  apply bind_Ok in Hc. destruct Hc as [fields [g0 [Hfields Hc]]].
  apply lift_Ok in Hfields. destruct Hfields as [Hfields ->].
  apply bind_Ok in Hc. destruct Hc as [[entries required] [g1 [Hfold Hc]]].
  pose proof Hfold as Hpure.
  apply component_fields_fold in Hfold. destruct Hfold as [Hstep [Hreq Hkeys]].
  cbn [fst snd app map] in Hreq, Hkeys. subst required.
  assert (Hwfg : wf_store g) by (exists s; auto).
  destruct (Hstep Hwfg) as [[s1 [Hs1 Hnd1]] [Hdoc1 [[ws [Hws Hunder]] Hframe]]].
  apply bind_Ok in Hc. destruct Hc as [c [g2 [Hc1 Hc]]].
  apply get_components_Ok in Hc1. destruct Hc1 as [-> ->].
  unfold schemas_of in Hs1. rewrite Hs1 in Hc.
  assert (Hold : js_get name (VObj s1) = stored name g).
  { rewrite <- Hs1. apply (Hframe name). apply not_under_longer. }
  rewrite Hold in Hc.
  apply bind_Ok in Hc. destruct Hc as [u' [g2 [Hwarn Hc]]].
  assert (Hg2 : g2 = mkGenerator (components g1) (document g1)
                       (warnings g1
                        ++ (if truthy (stored name g) then [schema_warning name] else []))).
  { destruct (truthy (stored name g)).
    - apply warn_Ok in Hwarn. exact Hwarn.
    - apply ret_Ok in Hwarn. destruct Hwarn as [_ ->]. rewrite app_nil_r.
      destruct g1; reflexivity. }
  subst g2. cbn [js_assign] in Hc. minv.
  exists fields, entries, ws. unfold schemas_of, stored. cbn [components document warnings].
  rewrite js_get_set_eq. cbn [props_of].
  split; [exact Hfields |]. split; [reflexivity |].
  split; [apply js_lookup_set_eq |]. split; [exact Hkeys |].
  split; [rewrite Hws, <- app_assoc; reflexivity |]. split; [exact Hunder |].
  split; [| split; [exact Hdoc1 |]; split].
  - unfold wf_store, schemas_of. cbn [components]. eexists. rewrite js_get_set_eq.
    split; [reflexivity |]. apply js_set_NoDup. exact Hnd1.
  - intros n Hne Hn. pose proof (Hframe n Hn) as Hfn.
    unfold stored, schemas_of in Hfn |- *. cbn [components].
    rewrite <- Hfn, Hs1, js_get_set_eq. cbn [js_get].
    rewrite js_lookup_set_ne by congruence. reflexivity.
  - intros Hsame. apply Hsame in Hpure. subst g1.
    rewrite <- (app_nil_r (warnings g)) in Hws at 1.
    apply app_inv_head in Hws. congruence.
Qed.

Lemma createSchemaComponentFromObject_step (name : string)
    (obj customProperties ref : value) (g g' : Generator) :
  createSchemaComponentFromObject_with part name obj customProperties g = Ok (ref, g') ->
  store_step name g g'.
Proof.
  intros Hc Hwf.
  destruct (createSchemaComponentFromObject_registers _ _ _ _ _ _ Hwf Hc)
    as [fields [entries [ws [_ [_ [_ [_ [Hw [Hu [Hwf' [Hd [Hframe _]]]]]]]]]]]].
  split; [exact Hwf' |]. split; [exact Hd |]. split.
  - eexists. split; [exact Hw |]. apply Forall_app. split.
    + eapply List.Forall_impl; [| exact Hu]. intros w [n [Hn ->]]. exists n.
      split; [eapply under_app; exact Hn | reflexivity].
    + destruct (truthy (stored name g)); [| constructor].
      constructor; [| constructor]. exists name. split; [apply under_refl | reflexivity].
  - intros n Hn. apply Hframe.
    + intros ->. apply Hn, under_refl.
    + intros Hu'. apply Hn. eapply under_app. exact Hu'.
Qed.
End Fields.
End StoreFacts.

Lemma mfold_step {A S : Type} (f : S -> A -> M S) (R : Generator -> Generator -> Prop) :
  (forall g, R g g) ->
  (forall g1 g2 g3, R g1 g2 -> R g2 g3 -> R g1 g3) ->
  (forall s x g s' g', f s x g = Ok (s', g') -> R g g') ->
  forall l s g s' g', mfold f l s g = Ok (s', g') -> R g g'.
Proof.
  intros Hrefl Htrans Hstep l. induction l as [|x l IH]; intros s g s' g' Hf; simpl in Hf.
  - minv. apply Hrefl.
  - apply bind_Ok in Hf. destruct Hf as [s1 [g1 [Hx Hf]]].
    eapply Htrans; [eapply Hstep; exact Hx | eapply IH; exact Hf].
Qed.

Section PartFacts.
Context `{Constants}.

Lemma multi_member_step (part : string -> value -> M value) (next : string) :
  (forall n r g v g', part n r g = Ok (v, g') -> store_step n g g') ->
  forall acc schema g acc' g',
    multi_member part next acc schema g = Ok (acc', g') -> store_step next g g'.
Proof.
  intros Hpart acc schema g acc' g' Hm. unfold multi_member in Hm.
  apply bind_Ok in Hm. destruct Hm as [ty [g0 [Hty Hm]]].
  apply lift_Ok in Hty. destruct Hty as [_ ->].
  destruct (eq_str "object" ty).
  - apply bind_Ok in Hm. destruct Hm as [p [g1 [Hp Hm]]].
    apply ret_Ok in Hm. destruct Hm as [_ ->].
    apply Hpart in Hp. eapply store_step_weaken; [| exact Hp].
    intros n Hn. eapply under_app. exact Hn.
  - apply ret_Ok in Hm. destruct Hm as [_ ->]. apply store_step_refl.
Qed.

Lemma multi_property_step (part : string -> value -> M value) (next : string) :
  (forall n r g v g', part n r g = Ok (v, g') -> store_step n g g') ->
  forall acc property g acc' g',
    multi_property part next acc property g = Ok (acc', g') -> store_step next g g'.
Proof.
  intros Hpart [rule i] property g acc' g' Hm. unfold multi_property in Hm.
  destruct (negb (truthy (js_get property rule))).
  - apply ret_Ok in Hm. destruct Hm as [_ ->]. apply store_step_refl.
  - destruct (js_get property rule); try discriminate.
    apply bind_Ok in Hm. destruct Hm as [[mapped i'] [g1 [Hfold Hm]]].
    apply bind_Ok in Hm. destruct Hm as [rule' [g2 [Hassign Hm]]].
    apply lift_Ok in Hassign. destruct Hassign as [_ ->].
    apply ret_Ok in Hm. destruct Hm as [_ ->].
    eapply (mfold_step (multi_member part next) (store_step next)); [| | | exact Hfold].
    + apply store_step_refl.
    + apply store_step_trans.
    + intros s x g0 s' g0' Hx. eapply multi_member_step; eassumption.
Qed.

Lemma createSchemaPartFromRule_step (fuel : nat) (next : string) (rule v : value)
    (g g' : Generator) :
  createSchemaPartFromRule fuel next rule g = Ok (v, g') -> store_step next g g'.
Proof.
  revert next rule v g g'. induction fuel as [|fuel IH]; intros next rule v g g' Hp.
  - discriminate.
  - cbn [createSchemaPartFromRule] in Hp.
    apply bind_Ok in Hp. destruct Hp as [rule' [g0 [Hassign Hp]]].
    apply lift_Ok in Hassign. destruct Hassign as [_ ->].
    destruct (eq_str "object" (js_get "type" rule') && truthy (js_get "properties" rule')).
    { apply bind_Ok in Hp. destruct Hp as [ref [g1 [Hc Hp]]].
      apply ret_Ok in Hp. destruct Hp as [_ ->].
      eapply createSchemaComponentFromObject_step; [| exact Hc].
      intros n r g2 v2 g2'. apply IH. }
    destruct (eq_str "array" (js_get "type" rule') && truthy (js_get "items" rule')).
    { apply bind_Ok in Hp. destruct Hp as [items [g1 [Hi Hp]]].
      apply ret_Ok in Hp. destruct Hp as [_ ->]. eapply IH. exact Hi. }
    destruct (existsb (fun property => truthy (js_get property rule')) multiOAProperties).
    { apply bind_Ok in Hp. destruct Hp as [[rule2 i] [g1 [Hfold Hp]]].
      apply ret_Ok in Hp. destruct Hp as [_ ->].
      eapply (mfold_step (multi_property (createSchemaPartFromRule fuel) next)
                (store_step next)); [| | | exact Hfold].
      - apply store_step_refl.
      - apply store_step_trans.
      - intros s x g0 s' g0' Hx. eapply multi_property_step; [| exact Hx].
        intros n r g2 v2 g2'. apply IH. }
    apply ret_Ok in Hp. destruct Hp as [_ ->]. apply store_step_refl.
Qed.

(** A fragment that is not descended into is returned as it stands after
    the assignments, and nothing is registered for it. *)
Lemma createSchemaPartFromRule_flat (fuel : nat) (next : string) (rule v : value)
    (g g' : Generator) :
  (forall rule', assign_system_params rule = Ok rule' -> nests rule' = false) ->
  createSchemaPartFromRule fuel next rule g = Ok (v, g') -> g' = g.
Proof.
  intros Hflat Hp. destruct fuel as [|fuel]; [discriminate |].
  cbn [createSchemaPartFromRule] in Hp.
  apply bind_Ok in Hp. destruct Hp as [rule' [g0 [Hassign Hp]]].
  apply lift_Ok in Hassign. destruct Hassign as [Hassign ->].
  specialize (Hflat _ Hassign). unfold nests in Hflat.
  apply orb_false_iff in Hflat as [Hflat Hmulti].
  apply orb_false_iff in Hflat as [Hobj Harr].
  rewrite Hobj, Harr, Hmulti in Hp. apply ret_Ok in Hp. tauto.
Qed.

Lemma flat_fields_fold (fuel : nat) (name : string) (fields : props)
    (acc acc' : list (string * value) * list string) (g g' : Generator) :
  flat_fields fields ->
  mfold (component_field (createSchemaPartFromRule fuel) name) fields acc g = Ok (acc', g') ->
  g' = g.
Proof.
  intros Hflat. revert acc g. induction Hflat as [|[fieldName rule] fields Hx _ IH];
    intros acc g Hf; simpl in Hf.
  - minv. reflexivity.
  - apply bind_Ok in Hf. destruct Hf as [acc1 [g1 [Hfield Hf]]].
    unfold component_field in Hfield.
    apply bind_Ok in Hfield. destruct Hfield as [optional [g0 [Ho Hfield]]].
    apply lift_Ok in Ho. destruct Ho as [_ ->].
    apply bind_Ok in Hfield. destruct Hfield as [p [g2 [Hp Hfield]]].
    apply ret_Ok in Hfield. destruct Hfield as [_ ->].
    apply createSchemaPartFromRule_flat in Hp; [| exact Hx]. subst g2.
    apply (IH _ _ Hf).
Qed.
End PartFacts.

Section Registration.
Context `{Constants}.

Lemma top_registration (name : string) (obj customProperties ref : value)
    (g g' : Generator) :
  wf_store g ->
  _createSchemaComponentFromObject name obj customProperties g = Ok (ref, g') ->
  exists fields entries nested,
    js_entries obj = Ok fields
    /\ ref = schema_ref name
    /\ js_lookup name (props_of (schemas_of g'))
       = Some (object_component (js_fromEntries entries) (required_fields fields)
                 customProperties)
    /\ warnings g'
       = warnings g ++ nested
         ++ (if truthy (stored name g) then [schema_warning name] else [])
    /\ schema_warnings_under (name +:+ ".") nested
    /\ wf_store g'
    /\ document g' = document g
    /\ (flat_fields fields -> nested = []).
Proof.
intros Hwf Hc. unfold _createSchemaComponentFromObject in Hc.
assert (Hflatfold : forall fields acc acc' g1,
          flat_fields fields ->
          mfold (component_field (createSchemaPartFromRule (S (value_depth obj))) name)
            fields acc g = Ok (acc', g1) -> g1 = g).
{ intros fields acc acc' g1 Hff Hfold. eapply flat_fields_fold; eassumption. }
assert (Hpart : forall n r g0 v g0',
          createSchemaPartFromRule (S (value_depth obj)) n r g0 = Ok (v, g0') ->
          store_step n g0 g0').
{ intros n r g0 v g0'. apply createSchemaPartFromRule_step. }
revert Hc Hflatfold Hpart.
generalize (createSchemaPartFromRule (S (value_depth obj))) as part.
intros part Hc Hflatfold Hpart.
destruct (createSchemaComponentFromObject_registers part Hpart _ _ _ _ _ _ Hwf Hc)
  as [fields [entries [nested [Hf [Hr [Hl [_ [Hw [Hu [Hwf' [Hd [_ Hflat]]]]]]]]]]]].
exists fields, entries, nested.
repeat (split; [assumption |]).
intros Hff. apply Hflat. intros acc acc' g1 Hfold. eapply Hflatfold; eassumption.
Qed.

End Registration.


(** ** The required flag of a generated body *)

Lemma split_on_no_sep (sep : ascii) (s : string) :
  all_chars (fun c => negb (Ascii.eqb c sep)) s = true -> split_on sep s = [s].
Proof.
induction s as [|c s IH]; simpl; intros Hs; [reflexivity |].
apply andb_true_iff in Hs as [Hc Hs]. apply negb_true_iff in Hc.
rewrite Hc, (IH Hs). reflexivity.
Qed.

Lemma fromEntries_NoDup (es : list (string * value)) : List.NoDup (js_keys (js_fromEntries es)).
Proof. apply fold_set_NoDup. constructor. Qed.

Lemma fold_set_keys_In (k : string) (es : list (string * value)) (o : props) :
  In k (js_keys (fold_left (fun acc kv => js_set (fst kv) (snd kv) acc) es o)) ->
  In k (js_keys o) \/ In k (map fst es).
Proof.
revert o. induction es as [|[k0 v0] es IH]; intros o Hin; simpl in *; [tauto |].
apply IH in Hin. destruct Hin as [Hin | Hin]; [| tauto].
rewrite js_keys_set in Hin. apply add_key_In in Hin. destruct Hin as [-> | Hin]; tauto.
Qed.

Lemma fromEntries_keys_In (k : string) (es : list (string * value)) :
  In k (js_keys (js_fromEntries es)) -> In k (map fst es).
Proof. intros Hin. apply fold_set_keys_In in Hin. simpl in Hin. tauto. Qed.

Section BodyFacts.
Context `{Constants} `{Collaborators}.

Lemma getComponentByRef_pure (path v : value) (g g' : Generator) :
  getComponentByRef path g = Ok (v, g') -> g' = g.
Proof.
unfold getComponentByRef. destruct path; try discriminate. intros Hg.
apply bind_Ok in Hg. destruct Hg as [c [g0 [Hc Hg]]].
apply get_components_Ok in Hc. destruct Hc as [_ ->].
match type of Hg with (if ?b then _ else _) _ = _ => destruct b end;
  apply ret_Ok in Hg; tauto.
Qed.

Lemma getComponent_pure (component v : value) (g g' : Generator) :
  getComponent component g = Ok (v, g') -> g' = g.
Proof.
unfold getComponent. destruct (negb (isReferenceObject component)); intros Hg.
- apply ret_Ok in Hg. tauto.
- apply bind_Ok in Hg. destruct Hg as [r [g0 [Hr Hg]]].
  apply getComponentByRef_pure in Hr. subst g0.
  destruct (truthy r); [apply ret_Ok in Hg; tauto | discriminate].
Qed.

Lemma query_parameter_pure (excluded params params' : list value)
    (entry : string * value) (g g' : Generator) :
  query_parameter excluded params entry g = Ok (params', g') -> g' = g.
Proof.
unfold query_parameter. destruct entry as [k v]. intros Hq.
apply bind_Ok in Hq. destruct Hq as [schema [g0 [Hs Hq]]].
apply lift_Ok in Hs. destruct Hs as [_ ->].
destruct (negb (truthy schema)); [apply ret_Ok in Hq; tauto |].
apply bind_Ok in Hq. destruct Hq as [component [g1 [Hc Hq]]].
apply getComponent_pure in Hc. subst g1.
destruct (negb (includes_str k excluded)); apply ret_Ok in Hq; tauto.
Qed.

Lemma query_parameters_pure (excluded : list value) (l : list (string * value))
    (params params' : list value) (g g' : Generator) :
  mfold (query_parameter excluded) l params g = Ok (params', g') -> g' = g.
Proof.
intros Hf.
apply (mfold_step (query_parameter excluded) (fun g1 g2 => g2 = g1)) in Hf.
- exact Hf.
- reflexivity.
- intros g1 g2 g3 -> ->. reflexivity.
- intros s x g0 s' g0' Hx. eapply query_parameter_pure. exact Hx.
Qed.

(** The reference of a registered name without a slash resolves to the
    component stored under the name. *)
Lemma getComponentByRef_schema (name : string) (component : value) (g : Generator) :
  all_chars (fun c => negb (Ascii.eqb c "/")) name = true ->
  name <> "" ->
  wf_store g ->
  js_lookup name (props_of (schemas_of g)) = Some component ->
  getComponentByRef (VStr ("#/components/schemas/" +:+ name)) g = Ok (component, g).
Proof.
intros Hname Hne [s [Hs Hnd]] Hl. rewrite Hs in Hl. cbn [props_of] in Hl.
unfold getComponentByRef.
assert (Hsplit : List.filter (fun s => negb (String.eqb s ""))
                   (split_on "/" ("#/components/schemas/" +:+ name))
                 = ["#"; "components"; "schemas"; name]).
{ change ("#/components/schemas/" +:+ name)
    with (String "#" (String "/" ("components" +:+ String "/" ("schemas"
            +:+ String "/" name)))).
  cbn [split_on Ascii.eqb Bool.eqb].
  assert (Hw : forall (w rest : string) (l : list string),
            all_chars (fun c => negb (Ascii.eqb c "/")) w = true ->
            split_on "/" (w +:+ String "/" rest) = w :: split_on "/" rest).
  { induction w as [|c w IHw]; intros rest l Hw.
    - reflexivity.
    - change (String c w +:+ String "/" rest) with (String c (w +:+ String "/" rest)).
      cbn [split_on]. cbn [all_chars] in Hw. apply andb_true_iff in Hw as [Hc Hw].
      apply negb_true_iff in Hc. rewrite Hc, (IHw _ l Hw). reflexivity. }
  rewrite (Hw "components" _ [] eq_refl), (Hw "schemas" _ [] eq_refl).
  rewrite (split_on_no_sep _ _ Hname). cbn [List.filter String.eqb negb Ascii.eqb Bool.eqb].
  apply String.eqb_neq in Hne. rewrite Hne. reflexivity. }
rewrite Hsplit. unfold bind, get_components.
assert (Hin : bool_decide (default "" (["#"; "components"; "schemas"; name] !! 2%nat)
                            ∈ js_keys (components g)) = true).
{ apply bool_decide_eq_true. apply list_elem_of_In. cbn.
  unfold schemas_of in Hs. cbn [js_get] in Hs.
  destruct (js_lookup "schemas" (components g)) as [x |] eqn:Ex; [| discriminate].
  eapply js_lookup_Some_keys. exact Ex. }
rewrite Hin. cbn [length Nat.ltb Nat.leb lookup list_lookup]. 
rewrite !bool_decide_eq_true_2 by reflexivity. cbn [negb orb drop fold_left truthy].
unfold ret. unfold schemas_of in Hs. cbn [own_property js_get] in *.
destruct (js_lookup "schemas" (components g)) as [x |]; [| discriminate].
simpl in Hs. subst x. simpl. rewrite Hl. reflexivity.
Qed.
End BodyFacts.

Section BodyRequired.
Context `{Constants} `{Collaborators}.

Lemma filter_keys_In (p : string * value -> bool) (k : string) (o : props) :
  In k (map fst (List.filter p o)) -> exists v, In (k, v) o /\ p (k, v) = true.
Proof.
intros Hin. apply in_map_iff in Hin. destruct Hin as [[k' v] [Hk Hin]].
simpl in Hk. subst k'. apply filter_In in Hin. exists v. exact Hin.
Qed.

(** The metas of the rule schema decide whether the aggregated object is a
    root schema: no body field has a name that starts with [$$]. *)
Lemma spread_root (method : string) (params metas bodyParameters : props) :
  List.NoDup (js_keys params) ->
  getMetas (VObj params) = Ok metas ->
  getParameters method (VObj params) true = Ok bodyParameters ->
  js_get "$$root" (VObj (js_spread metas bodyParameters)) = js_get "$$root" (VObj params).
Proof.
intros Hnd Hmetas Hbody. cbn [js_get]. f_equal.
rewrite js_lookup_spread.
- assert (Hnone : js_lookup "$$root" bodyParameters = None).
  { apply js_lookup_None_keys. intros Hin.
    unfold getParameters in Hbody. apply rbind_Ok in Hbody.
    destruct Hbody as [rules [Hrules Hbody]]. injection Hbody as <-.
    apply fromEntries_keys_In, filter_keys_In in Hin. destruct Hin as [v [Hin _]].
    unfold getValidationRules in Hrules. cbn [js_entries props_of rbind] in Hrules.
    injection Hrules as <-.
    assert (Hk : In "$$root" (map fst (List.filter
                   (fun kv => negb (startsWith "$$" (fst kv))) params))).
    { apply fromEntries_keys_In. apply in_map_iff. exists ("$$root", v). auto. }
    apply filter_keys_In in Hk. destruct Hk as [v' [_ Hk]]. discriminate Hk. }
  rewrite Hnone. unfold getMetas in Hmetas. cbn [js_entries props_of rbind] in Hmetas.
  injection Hmetas as <-.
  rewrite js_fromEntries_NoDup.
  + rewrite (js_lookup_filter_key (startsWith "$$")). reflexivity.
  + apply (filter_keys_NoDup _ _ Hnd).
- apply rbind_Ok in Hbody. destruct Hbody as [rules [_ Hbody]]. injection Hbody as <-.
  apply fromEntries_NoDup.
Qed.

Lemma required_of_component (properties : props) (required : list string) (custom : value) :
  nonempty (js_get "required" (object_component properties required custom))
  = Nat.ltb 0 (length required).
Proof. destruct required; reflexivity. Qed.

(** The required flag of a generated body.  An ordinary route with a bound
    action whose name has no slash, an object-shaped rule schema and no
    declared request body: when a request body is emitted, its fields are
    aggregated into the component stored under the action's name, and the
    body's required flag is true exactly when the required list of this
    component, the fields whose fragments lack the optional marker, is not
    empty. *)
Lemma generated_body_required (method path : string) (alias : Alias) (actionName : string)
    (params : props) (g g' : Generator) (r : parametersExtracted) :
  action alias = Some actionName ->
  all_chars (fun c => negb (Ascii.eqb c "/")) actionName = true ->
  bool_decide (default "" (type alias) ∈ ["multipart"; "stream"]) = false ->
  truthy (js_get "requestBody" (openapi alias)) = false ->
  js_get "params" (actionSchema alias) = VObj params ->
  List.NoDup (js_keys params) ->
  is_true (js_get "$$root" (VObj params)) = false ->
  wf_store g ->
  extractParameters method path alias g = Ok (r, g') ->
  requestBody r <> VUndef ->
  exists fields properties,
    body_fields method path alias params = Ok fields
    /\ js_lookup actionName (props_of (schemas_of g'))
       = Some (object_component properties (required_fields fields) (VObj []))
    /\ js_get "required" (requestBody r)
       = VBool (Nat.ltb 0 (length (required_fields fields)))
    /\ (js_get "required" (requestBody r) = VBool true <-> required_fields fields <> []).
Proof.
intros Haction Hname Hordinary Hnobody Hparams Hnd Hroot Hwf Hext Hbody.
unfold extractParameters in Hext.
apply bind_Ok in Hext. destruct Hext as [pathParams [g0 [Hpath Hext]]].
apply lift_Ok in Hpath. destruct Hpath as [Hpath ->].
rewrite Hordinary in Hext.
match type of Hext with (if ?c then _ else _) _ = _ => destruct c end;
  [| apply ret_Ok in Hext; destruct Hext as [-> _]; exfalso; apply Hbody; reflexivity].
rewrite Hparams in Hext. cbn [coalesce nullish] in Hext.
apply bind_Ok in Hext. destruct Hext as [metas [g0 [Hmetas Hext]]].
apply lift_Ok in Hmetas. destruct Hmetas as [Hmetas ->].
apply bind_Ok in Hext. destruct Hext as [ps [g1 [Hquery Hext]]].
assert (Hg1 : g1 = g).
{ destruct (negb (truthy (js_get "queryParameters" (openapi alias)))).
  - apply bind_Ok in Hquery. destruct Hquery as [qs [g2 [Hqs Hquery]]].
    apply lift_Ok in Hqs. destruct Hqs as [_ ->].
    eapply query_parameters_pure. exact Hquery.
  - apply bind_Ok in Hquery. destruct Hquery as [qs [g2 [Hqs Hquery]]].
    apply lift_Ok in Hqs. destruct Hqs as [_ ->]. apply ret_Ok in Hquery. tauto. }
subst g1. clear Hquery. rewrite Hnobody in Hext. cbn [negb] in Hext.
apply bind_Ok in Hext. destruct Hext as [body [g1 [Hgen Hext]]].
apply ret_Ok in Hext. destruct Hext as [-> ->]. cbn [requestBody] in *.
unfold generated_body in Hgen. rewrite Haction in Hgen.
destruct (String.eqb actionName "") eqn:Hempty; [discriminate |].
apply String.eqb_neq in Hempty.
apply bind_Ok in Hgen. destruct Hgen as [bodyParameters [g0 [Hbp Hgen]]].
apply lift_Ok in Hbp. destruct Hbp as [Hbp ->].
destruct (Nat.ltb 0 (length (js_keys bodyParameters)));
  [| apply ret_Ok in Hgen; destruct Hgen as [-> _]; exfalso; apply Hbody; reflexivity].
apply bind_Ok in Hgen. destruct Hgen as [schema [g2 [Hschema Hgen]]].
unfold createRequestBodyFromParams in Hschema.
rewrite (spread_root _ _ _ _ Hnd Hmetas Hbp), Hroot in Hschema.
apply bind_Ok in Hschema. destruct Hschema as [rootRules [g0 [Hrules Hschema]]].
apply lift_Ok in Hrules. destruct Hrules as [Hrules ->].
destruct (top_registration _ _ _ _ _ _ Hwf Hschema)
  as [fields [entries [nested [Hf [-> [Hl [_ [_ [Hwf2 _]]]]]]]]].
cbn [js_entries props_of] in Hf. injection Hf as <-.
apply bind_Ok in Hgen. destruct Hgen as [types [g0 [Htypes Hgen]]].
apply lift_Ok in Htypes. destruct Htypes as [_ ->].
apply bind_Ok in Hgen. destruct Hgen as [required [g3 [Hreq Hgen]]].
apply ret_Ok in Hgen. destruct Hgen as [-> ->].
assert (Href : isReferenceObject (schema_ref actionName) = true) by reflexivity.
rewrite Href in Hreq.
apply bind_Ok in Hreq. destruct Hreq as [schemaRef [g0 [Hget Hreq]]].
change (js_get "$ref" (schema_ref actionName))
  with (VStr ("#/components/schemas/" +:+ actionName)) in Hget.
rewrite (getComponentByRef_schema _ _ _ Hname Hempty Hwf2 Hl) in Hget.
injection Hget as <- <-. cbn [object_component truthy] in Hreq.
apply ret_Ok in Hreq. destruct Hreq as [-> ->].
match goal with |- context [required_fields ?f] => set (fields := f) in * end.
exists fields, (js_fromEntries entries).
assert (Hflag : js_get "required"
                  (VObj [("description",
                          js_get "description" (coalesce (js_get "$$oa" (VObj metas)) (VObj [])));
                         ("summary",
                          js_get "summary" (coalesce (js_get "$$oa" (VObj metas)) (VObj [])));
                         ("required",
                          VBool (nonempty (js_get "required"
                                   (object_component (js_fromEntries entries)
                                      (required_fields fields) (VObj [])))));
                         ("content",
                          VObj (js_fromEntries
                                  (map (fun contentType =>
                                          (to_key contentType,
                                           VObj [("schema", schema_ref actionName)]))
                                     types)))])
                = VBool (Nat.ltb 0 (length (required_fields fields)))).
{ rewrite required_of_component. reflexivity. }
split; [| split; [exact Hl | split; [exact Hflag |]]].
- unfold body_fields. rewrite Hpath. cbn [rbind]. rewrite Hmetas. cbn [rbind].
  rewrite Hbp. cbn [rbind]. rewrite Hrules. reflexivity.
- rewrite Hflag. destruct (required_fields fields) as [|x l]; simpl; split.
  + discriminate.
  + intros Hn. exfalso. apply Hn. reflexivity.
  + intros _. discriminate.
  + reflexivity.
Qed.
End BodyRequired.

(** ** Registrations that do not throw *)

Lemma lookup_depth (k : string) (o : props) (x : value) :
  js_lookup k o = Some x -> (value_depth x < value_depth (VObj o))%nat.
Proof.
simpl. induction o as [|[k' x'] o IH]; simpl; [discriminate |].
destruct (String.eqb k k'); intros Hl.
- injection Hl as ->. lia.
- specialize (IH Hl). lia.
Qed.

Lemma get_depth (k : string) (o : props) :
  (value_depth (js_get k (VObj o)) < value_depth (VObj o))%nat.
Proof.
cbn [js_get]. destruct (js_lookup k o) as [x |] eqn:El.
- apply (lookup_depth _ _ _ El).
- simpl. lia.
Qed.

Lemma entry_depth (k : string) (x : value) (o : props) :
  In (k, x) o -> (value_depth x < value_depth (VObj o))%nat.
Proof.
simpl. induction o as [|[k' x'] o IH]; simpl; [tauto |].
intros [Heq | Hin].
- injection Heq as -> ->. lia.
- specialize (IH Hin). lia.
Qed.

Lemma element_depth (x : value) (l : list value) :
  In x l -> (value_depth x < value_depth (VArr l))%nat.
Proof.
simpl. induction l as [|y l IH]; simpl; [tauto |].
intros [-> | Hin]; [lia |]. specialize (IH Hin). lia.
Qed.

Lemma imap_In {A B : Type} (f : nat -> A -> B) (l : list A) (y : B) :
  In y (imap f l) -> exists i x, In x l /\ y = f i x.
Proof.
revert f. induction l as [|x l IH]; intros f Hin; simpl in Hin; [tauto |].
destruct Hin as [<- | Hin].
- exists 0%nat, x. split; [left; reflexivity | reflexivity].
- apply IH in Hin. destruct Hin as [i [x' [Hin ->]]].
  exists (S i), x'. split; [right; exact Hin | reflexivity].
Qed.

(** The values of the properties of a value are not deeper than it. *)
Lemma props_depth (k : string) (x v : value) :
  In (k, x) (props_of v) -> (value_depth x <= value_depth v)%nat.
Proof.
destruct v as [| | b | n | s | l | o]; cbn [props_of]; try (intros []).
- intros Hin. apply imap_In in Hin. destruct Hin as [i [c [_ Heq]]].
  injection Heq as _ ->. simpl. lia.
- intros Hin. apply imap_In in Hin. destruct Hin as [i [y [Hin Heq]]].
  injection Heq as _ ->. apply element_depth in Hin. unfold id. lia.
- intros Hin. apply entry_depth in Hin. lia.
Qed.

Section Totality.
Context `{Constants}.

Lemma assign_system_params_object (o : props) :
  assign_system_params (VObj o)
  = Ok (VObj (js_set "deprecated" (js_get EOA_deprecated (VObj o))
                (js_set "title" (js_get EOA_summary (VObj o))
                   (js_set "description" (js_get EOA_description (VObj o)) o)))).
Proof.
unfold assign_system_params, extractSystemParams.
remember (js_get EOA_optional (VObj o)) as x0.
remember (js_get EOA_description (VObj o)) as x1.
remember (js_get EOA_summary (VObj o)) as x2.
remember (js_get EOA_deprecated (VObj o)) as x3.
reflexivity.
Qed.

Lemma assigned_depth (o : props) (rule : value) (k : string) :
  assign_system_params (VObj o) = Ok rule ->
  (value_depth (js_get k rule) < value_depth (VObj o))%nat.
Proof.
rewrite assign_system_params_object. intros Hr. injection Hr as <-.
cbn [js_get]. rewrite !js_lookup_set.
destruct (String.eqb "deprecated" k); [apply get_depth |].
destruct (String.eqb "title" k); [apply get_depth |].
destruct (String.eqb "description" k); [apply get_depth |].
apply (get_depth k o).
Qed.

Lemma assigned_object (o : props) (rule : value) :
  assign_system_params (VObj o) = Ok rule -> exists o', rule = VObj o'.
Proof. rewrite assign_system_params_object. intros Hr. injection Hr as <-. eauto. Qed.
End Totality.

Lemma bind_intro {A B : Type} (m : M A) (f : A -> M B) (g g1 : Generator) (a : A)
    (r : result (B * Generator)) :
  m g = Ok (a, g1) -> f a g1 = r -> bind m f g = r.
Proof. unfold bind. intros -> Hf. exact Hf. Qed.

Lemma store_step_wf (p : string) (g g' : Generator) :
  store_step p g g' -> wf_store g -> wf_store g'.
Proof. intros Hs Hwf. destruct (Hs Hwf) as [Hwf' _]. exact Hwf'. Qed.

Section PartTotality.
Context `{Constants}.
Variable part : string -> value -> M value.
Hypothesis part_step :
  forall n r g v g', part n r g = Ok (v, g') -> store_step n g g'.

Lemma component_fields_total (name : string) (fields : props)
    (acc : list (string * value) * list string) (g : Generator) :
  (forall k r, In (k, r) fields ->
     nullish r = false
     /\ forall n g0, wf_store g0 -> exists v g1, part n r g0 = Ok (v, g1)) ->
  wf_store g ->
  exists acc' g',
    mfold (component_field part name) fields acc g = Ok (acc', g') /\ wf_store g'.
Proof.
revert acc g. induction fields as [|[fieldName rule] fields IH]; intros acc g Hfields Hwf.
- exists acc, g. split; [reflexivity | exact Hwf].
- destruct (Hfields fieldName rule (or_introl eq_refl)) as [Hnn Htotal].
  destruct (Htotal (name +:+ "." +:+ fieldName) g Hwf) as [v [g1 Hv]].
  assert (Hwf1 : wf_store g1) by (eapply store_step_wf; [eapply part_step; exact Hv | exact Hwf]).
  set (acc1 := (fst acc ++ [(fieldName, v)],
                if loose_eq_true (js_get EOA_optional rule) then snd acc
                else snd acc ++ [fieldName])).
  destruct (IH acc1 g1) as [acc' [g' [Hfold Hwf']]].
  { intros k r Hin. apply (Hfields k r). right. exact Hin. }
  { exact Hwf1. }
  exists acc', g'. split; [| exact Hwf']. cbn [mfold].
  eapply bind_intro; [| exact Hfold].
  unfold component_field.
  assert (Hm : js_member EOA_optional rule = Ok (js_get EOA_optional rule))
    by (destruct rule; try discriminate; reflexivity).
  rewrite Hm. eapply bind_intro; [reflexivity |].
  eapply bind_intro; [exact Hv |]. reflexivity.
Qed.

Lemma createSchemaComponentFromObject_total (name : string) (obj customProperties : value)
    (g : Generator) :
  nullish obj = false ->
  (forall k r, In (k, r) (props_of obj) ->
     nullish r = false
     /\ forall n g0, wf_store g0 -> exists v g1, part n r g0 = Ok (v, g1)) ->
  wf_store g ->
  exists ref g',
    createSchemaComponentFromObject_with part name obj customProperties g = Ok (ref, g').
Proof.
intros Hobj Hfields Hwf. unfold createSchemaComponentFromObject_with.
destruct Hwf as [s [Hs Hnd]]. unfold schemas_of in Hs.
assert (Hwf : wf_store g) by (exists s; auto).
destruct (component_fields_total name (props_of obj) ([], []) g Hfields Hwf)
  as [[entries required] [g1 [Hfold [s1 [Hs1 Hnd1]]]]].
unfold schemas_of in Hs1.
assert (He : js_entries obj = Ok (props_of obj)) by (destruct obj; try discriminate; reflexivity).
destruct (truthy (js_get name (VObj s1))) eqn:Ename; eexists; eexists;
  (eapply bind_intro; [reflexivity |]); rewrite Hs; cbn [truthy];
  (eapply bind_intro; [reflexivity |]);
  rewrite He; (eapply bind_intro; [reflexivity |]);
  (eapply bind_intro; [exact Hfold |]); cbn beta iota;
  (eapply bind_intro; [reflexivity |]); rewrite Hs1; rewrite Ename.
- eapply bind_intro; [reflexivity |]. cbn [js_assign].
  eapply bind_intro; [reflexivity |]. eapply bind_intro; [reflexivity |]. reflexivity.
- eapply bind_intro; [reflexivity |]. cbn [js_assign].
  eapply bind_intro; [reflexivity |]. eapply bind_intro; [reflexivity |]. reflexivity.
Qed.

Lemma multi_members_total (next : string) (schemas : list value) (acc : list value * nat)
    (g : Generator) :
  (forall s, In s schemas -> nullish s = false) ->
  (forall s, In s schemas -> eq_str "object" (js_get "type" s) = true ->
     forall n g0, wf_store g0 -> exists v g1, part n s g0 = Ok (v, g1)) ->
  wf_store g ->
  exists acc' g',
    mfold (multi_member part next) schemas acc g = Ok (acc', g') /\ wf_store g'.
Proof.
revert acc g. induction schemas as [|schema schemas IH]; intros acc g Hnn Htotal Hwf.
- exists acc, g. split; [reflexivity | exact Hwf].
- assert (Hm : js_member "type" schema = Ok (js_get "type" schema)).
  { specialize (Hnn schema (or_introl eq_refl)). destruct schema; try discriminate; reflexivity. }
  cbn [mfold]. unfold multi_member at 1. rewrite Hm.
  destruct (eq_str "object" (js_get "type" schema)) eqn:Et.
  + destruct (Htotal schema (or_introl eq_refl) Et
                (next +:+ "." +:+ pretty (snd acc)) g Hwf) as [v [g1 Hv]].
    assert (Hwf1 : wf_store g1)
      by (eapply store_step_wf; [eapply part_step; exact Hv | exact Hwf]).
    destruct (IH (fst acc ++ [v], S (snd acc)) g1) as [acc' [g' [Hfold Hwf']]].
    { intros s Hin. apply Hnn. right. exact Hin. }
    { intros s Hin. apply Htotal. right. exact Hin. }
    { exact Hwf1. }
    exists acc', g'. split; [| exact Hwf'].
    eapply bind_intro; [| exact Hfold].
    eapply bind_intro; [reflexivity |]. rewrite Et.
    eapply bind_intro; [exact Hv |]. reflexivity.
  + destruct (IH (fst acc ++ [schema], snd acc) g) as [acc' [g' [Hfold Hwf']]].
    { intros s Hin. apply Hnn. right. exact Hin. }
    { intros s Hin. apply Htotal. right. exact Hin. }
    { exact Hwf. }
    exists acc', g'. split; [| exact Hwf'].
    eapply bind_intro; [| exact Hfold].
    eapply bind_intro; [reflexivity |]. rewrite Et. reflexivity.
Qed.

Lemma multi_properties_total (next : string) (properties : list string) (rule0 : value)
    (o : props) (i : nat) (g : Generator) :
  List.NoDup properties ->
  (forall q, In q properties -> js_get q (VObj o) = js_get q rule0) ->
  (forall property, In property properties -> truthy (js_get property rule0) = true ->
     exists schemas,
       js_get property rule0 = VArr schemas /\ forall s, In s schemas -> nullish s = false) ->
  (forall property schemas s,
     In property properties -> js_get property rule0 = VArr schemas -> In s schemas ->
     eq_str "object" (js_get "type" s) = true ->
     forall n g0, wf_store g0 -> exists v g1, part n s g0 = Ok (v, g1)) ->
  wf_store g ->
  exists acc' g',
    mfold (multi_property part next) properties (VObj o, i) g = Ok (acc', g')
    /\ wf_store g'.
Proof.
intros Hnd. revert o i g.
induction Hnd as [|property properties Hnin Hnd IH]; intros o i g Hsame Harr Htotal Hwf.
- eexists. exists g. split; [reflexivity | exact Hwf].
- cbn [mfold]. unfold multi_property at 1.
  rewrite (Hsame property (or_introl eq_refl)).
  destruct (truthy (js_get property rule0)) eqn:Et; cbn [negb].
  + destruct (Harr property (or_introl eq_refl) Et) as [schemas [Hschemas Hnn]].
    rewrite Hschemas.
    destruct (multi_members_total next schemas ([], i) g Hnn) as [[mapped i'] [g1 [Hm Hwf1]]].
    { intros s Hin Hobj. eapply Htotal; [left; reflexivity | exact Hschemas | exact Hin | exact Hobj]. }
    { exact Hwf. }
    destruct (IH (js_set property (VArr mapped) o) i' g1) as [acc' [g' [Hfold Hwf']]].
    { intros q Hq. rewrite js_get_set_ne.
      - apply Hsame. right. exact Hq.
      - intros ->. apply Hnin. exact Hq. }
    { intros q Hq. apply Harr. right. exact Hq. }
    { intros q sc s Hq. apply Htotal. right. exact Hq. }
    { exact Hwf1. }
    exists acc', g'. split; [| exact Hwf'].
    eapply bind_intro; [| exact Hfold].
    eapply bind_intro; [exact Hm |]. cbn beta iota. cbn [js_assign].
    eapply bind_intro; [reflexivity |]. reflexivity.
  + destruct (IH o i g) as [acc' [g' [Hfold Hwf']]].
    { intros q Hq. apply Hsame. right. exact Hq. }
    { intros q Hq. apply Harr. right. exact Hq. }
    { intros q sc s Hq. apply Htotal. right. exact Hq. }
    { exact Hwf. }
    exists acc', g'. split; [| exact Hwf'].
    eapply bind_intro; [reflexivity | exact Hfold].
Qed.
End PartTotality.

Section RegistrationTotality.
Context `{Constants}.
Hypothesis multiOAProperties_NoDup : List.NoDup multiOAProperties.

Lemma existsb_none {A : Type} (f : A -> bool) (l : list A) :
  (forall x, In x l -> f x = false) -> existsb f l = false.
Proof.
induction l as [|x l IH]; intros Hf; [reflexivity |]. simpl.
rewrite (Hf x (or_introl eq_refl)). apply IH. intros y Hy. apply Hf. right. exact Hy.
Qed.

(** With fuel beyond the depth of a well-formed fragment, its conversion
    returns. *)
Lemma createSchemaPartFromRule_total (rule : value) :
  wf_fragment rule ->
  forall (fuel : nat) (next : string) (g : Generator),
    (value_depth rule < fuel)%nat -> wf_store g ->
    exists v g', createSchemaPartFromRule fuel next rule g = Ok (v, g').
Proof.
induction 1 as [l | o rule Hassign Hprops IHprops Hitems IHitems Harr Hmulti IHmulti];
  intros fuel next g Hfuel Hwf;
  (destruct fuel as [|fuel]; [lia |]); cbn [createSchemaPartFromRule].
- eexists. eexists. eapply bind_intro; [reflexivity |].
  cbn [js_get eq_str andb]. rewrite existsb_none by reflexivity.
  reflexivity.
- destruct (assigned_object o rule Hassign) as [o' Ho'].
  assert (Hdepth : forall k, (value_depth (js_get k rule) < fuel)%nat).
  { intros k. pose proof (assigned_depth o rule k Hassign). lia. }
  destruct (eq_str "object" (js_get "type" rule) && truthy (js_get "properties" rule))
    eqn:Eobject.
  { destruct (createSchemaComponentFromObject_total
                (createSchemaPartFromRule fuel)
                (fun n r g0 v g0' => createSchemaPartFromRule_step fuel n r v g0 g0')
                next (js_get "properties" rule)
                (VObj [("default", js_get "default" rule)]) g) as [ref [g' Href]].
    - apply andb_prop in Eobject. destruct Eobject as [_ Et].
      destruct (js_get "properties" rule); try discriminate; reflexivity.
    - intros k r Hin. split.
      + destruct (Hprops eq_refl k r Hin); reflexivity.
      + intros n g0 Hwf0. apply (IHprops eq_refl k r Hin); [| exact Hwf0].
        pose proof (props_depth k r _ Hin). specialize (Hdepth "properties"). lia.
    - exact Hwf.
    - eexists. eexists. eapply bind_intro; [rewrite Hassign; reflexivity |].
      rewrite Eobject. eapply bind_intro; [exact Href |]. reflexivity. }
  destruct (eq_str "array" (js_get "type" rule) && truthy (js_get "items" rule)) eqn:Earray.
  { destruct (IHitems eq_refl eq_refl fuel next g (Hdepth "items") Hwf) as [items [g' Hi]].
    eexists. eexists. eapply bind_intro; [rewrite Hassign; reflexivity |].
    rewrite Eobject, Earray. eapply bind_intro; [exact Hi |]. reflexivity. }
  destruct (existsb (fun property => truthy (js_get property rule)) multiOAProperties)
    eqn:Emulti.
  { subst rule.
    destruct (multi_properties_total
                (createSchemaPartFromRule fuel)
                (fun n r g0 v g0' => createSchemaPartFromRule_step fuel n r v g0 g0')
                next multiOAProperties (VObj o') o' 0%nat g)
      as [[rule' i] [g' [Hfold _]]].
    - exact multiOAProperties_NoDup.
    - reflexivity.
    - apply (Harr eq_refl eq_refl).
    - intros property schemas s Hp Hs Hin Hobj n g0 Hwf0.
      apply (IHmulti eq_refl eq_refl property schemas s Hp Hs Hin Hobj); [| exact Hwf0].
      pose proof (element_depth s schemas Hin) as Hd. rewrite <- Hs in Hd.
      specialize (Hdepth property). lia.
    - exact Hwf.
    - eexists. eexists. eapply bind_intro; [rewrite Hassign; reflexivity |].
      rewrite Eobject, Earray, Emulti. eapply bind_intro; [exact Hfold |]. reflexivity. }
  eexists. eexists. eapply bind_intro; [rewrite Hassign; reflexivity |].
  rewrite Eobject, Earray, Emulti. reflexivity.
Qed.

(** The registration of an object whose fields are well-formed fragments
    returns. *)
Lemma registration_returns (name : string) (fields : props) (customProperties : value)
    (g : Generator) :
  (forall k r, In (k, r) fields -> wf_fragment r) ->
  wf_store g ->
  exists ref g',
    _createSchemaComponentFromObject name (VObj fields) customProperties g = Ok (ref, g').
Proof.
intros Hfields Hwf.
apply (createSchemaComponentFromObject_total
         (createSchemaPartFromRule (S (value_depth (VObj fields))))
         (fun n r g0 v g0' =>
            createSchemaPartFromRule_step (S (value_depth (VObj fields))) n r v g0 g0')).
- reflexivity.
- intros k r Hin. split.
  + destruct (Hfields k r Hin); reflexivity.
  + intros n g0 Hwf0. apply createSchemaPartFromRule_total; [apply (Hfields k r Hin) | | exact Hwf0].
    pose proof (entry_depth k r fields Hin). lia.
- exact Hwf.
Qed.

(** The reference it returns is the one to the component, which is stored
    with one property for each field. *)
Lemma registration_total (name : string) (fields : props) (customProperties : value)
    (g : Generator) :
  (forall k r, In (k, r) fields -> wf_fragment r) ->
  List.NoDup (js_keys fields) ->
  wf_store g ->
  exists g' properties,
    _createSchemaComponentFromObject name (VObj fields) customProperties g
    = Ok (schema_ref name, g')
    /\ js_lookup name (props_of (schemas_of g'))
       = Some (object_component properties (required_fields fields) customProperties)
    /\ js_keys properties = js_keys fields
    /\ wf_store g'.
Proof.
intros Hfields Hnd Hwf.
destruct (registration_returns name fields customProperties g Hfields Hwf)
  as [ref [g' Href]].
pose proof (fun n r g0 v g0' =>
              createSchemaPartFromRule_step (S (value_depth (VObj fields))) n r v g0 g0')
  as Hstep.
destruct (createSchemaComponentFromObject_registers _ Hstep _ _ _ _ _ _ Hwf Href)
  as [fs [entries [ws [Hf [Hr [Hl [Hk [_ [_ [Hwf' _]]]]]]]]]].
cbn [js_entries] in Hf. injection Hf as <-.
exists g', (js_fromEntries entries). split; [| split; [| split]].
- rewrite Href, Hr. reflexivity.
- exact Hl.
- rewrite js_fromEntries_NoDup; [exact Hk | rewrite Hk; exact Hnd].
- exact Hwf'.
Qed.
End RegistrationTotality.

(** ** A registration under a name that is taken *)

Section Collision.
Context `{Constants}.

End Collision.

(** ** The body of a multipart upload *)

Section MultipartBody.
Context `{Constants} `{Collaborators}.

(** The body of a multipart upload whose fragments are well formed.
    [generateFileUploadBody] throws the fatal error when the rule schema
    of the bound action is a root-level schema.  When the rule schema is an object that is not root-level, the
    converter returns for it, and the aggregated fragments are well
    formed, it returns: the body is required, and its schema is the
    [allOf] of the file-field object and the reference to the component
    registered under the action's name, which has one property for each
    aggregated field. *)
Theorem multipart_body_of_rule_schema (alias : Alias) (excluded : list value)
    (g : Generator) :
  type alias = Some "multipart" ->
  (is_true (js_path ["params"; "$$root"] (actionSchema alias)) = true ->
   generateFileUploadBody alias excluded g
   = Err "$$root parameters is not supported on multipart")
  /\ (forall (actionName : string) (params : props) (contentTypes : list string)
             (rootRules : props),
        action alias = Some actionName -> actionName <> "" ->
        js_get "params" (actionSchema alias) = VObj params ->
        is_true (js_get "$$root" (VObj params)) = false ->
        BODY_PARSERS_CONTENT_TYPE "multipart" = Some contentTypes ->
        getSchemaObjectFromSchema (VObj params) = Ok rootRules ->
        (forall k r, In (k, r) (aggregated_fields excluded rootRules) -> wf_fragment r) ->
        List.NoDup multiOAProperties ->
        wf_store g ->
        exists g' properties,
          generateFileUploadBody alias excluded g
          = Ok (upload_body (default VUndef (VStr <$> head contentTypes))
                  [("allOf", VArr [file_object alias; schema_ref actionName])], g')
          /\ js_lookup actionName (props_of (schemas_of g'))
             = Some (object_component properties
                       (required_fields (aggregated_fields excluded rootRules)) (VObj []))
          /\ js_keys properties = js_keys (aggregated_fields excluded rootRules)).
Proof.
intros Htype. split.
- intros Hroot. unfold generateFileUploadBody. rewrite Htype.
  rewrite bool_decide_eq_false_2 by discriminate. rewrite Hroot. reflexivity.
- intros actionName params contentTypes rootRules Haction Hname Hparams Hroot Hct Hconv
    Hfields Hnd Hwf.
  destruct (registration_total Hnd actionName (aggregated_fields excluded rootRules)
              (VObj []) g Hfields (fromEntries_NoDup _) Hwf)
    as [g' [properties [Hreg [Hstored [Hkeys _]]]]].
  exists g', properties. split; [| split; [exact Hstored | exact Hkeys]].
  unfold generateFileUploadBody. rewrite Htype.
  rewrite bool_decide_eq_false_2 by discriminate.
  change (String.eqb "multipart" "") with false. cbn iota. rewrite Hct.
  cbn [js_path]. rewrite Hparams, Hroot, Haction. cbn [of_option truthy default andb].
  assert (Hne : String.eqb actionName "" = false) by (apply String.eqb_neq; exact Hname).
  rewrite Hne. cbn [negb andb coalesce nullish].
  eapply bind_intro; [| reflexivity].
  eapply bind_intro; [| reflexivity].
  eapply bind_intro.
  + unfold createRequestBodyFromParams. rewrite Hroot, Hconv.
    eapply bind_intro; [reflexivity |]. exact Hreg.
  + reflexivity.
Qed.
End MultipartBody.

(** ** The path parameters a route returns *)

Section PathParameters.
Context `{Constants} `{Collaborators}.






End PathParameters.

(** ** A nested field that is omitted *)

Lemma mfold_throws {A S : Type} (f : S -> A -> M S) (l : list A) (x : A) :
  In x l ->
  (forall s g, exists e, f s x g = Err e) ->
  forall s g, exists e, mfold f l s g = Err e.
Proof.
intros Hin Hx. induction l as [|y l IH]; [destruct Hin |]. intros s g. cbn [mfold].
unfold bind. destruct (f s y g) as [[s' g'] | e] eqn:Ey; [| eauto].
destruct Hin as [-> | Hin]; [| apply IH; exact Hin].
destruct (Hx s g) as [e He]. congruence.
Qed.

Section OmittedField.
Context `{Constants}.

Lemma registration_throws (part : string -> value -> M value)
    (name : string) (x : string * value) (fields : props) (customProperties : value)
    (g : Generator) :
  In x fields ->
  (forall s g0, exists e, component_field part name s x g0 = Err e) ->
  exists e,
    createSchemaComponentFromObject_with part name (VObj fields) customProperties g = Err e.
Proof.
intros Hin Hx. unfold createSchemaComponentFromObject_with.
unfold bind at 1. unfold get_components at 1.
match goal with |- context [bind (if ?c then _ else _)] => destruct c end.
- unfold bind at 1. unfold ret at 1. unfold bind at 1. unfold lift at 1. cbn [js_entries props_of].
  unfold bind at 1.
  destruct (mfold_throws (component_field part name) fields x Hin Hx ([], []) g) as [e He].
  rewrite He. eauto.
- unfold bind at 1. unfold put_components at 1. unfold bind at 1. unfold lift at 1.
  cbn [js_entries props_of]. unfold bind at 1.
  match goal with |- context [mfold _ _ _ ?g1] =>
    destruct (mfold_throws (component_field part name) fields x Hin Hx ([], []) g1)
      as [e He] end.
  rewrite He. eauto.
Qed.

(** The registration of an object one of whose fields has no fragment
    throws: the callback at 494-501 reads the optional marker of
    [undefined].  So does the conversion of a fragment of type [object]
    whose properties have such a field, and the registration of an object
    with a field of this kind. *)
Lemma part_of_omitted_field_throws (fuel : nat) (next field : string)
    (fragment nested : props) (g : Generator) :
  eq_str "object" (js_get "type" (VObj fragment)) = true ->
  js_get "properties" (VObj fragment) = VObj nested ->
  In (field, VUndef) nested ->
  exists e, createSchemaPartFromRule fuel next (VObj fragment) g = Err e.
Proof.
intros Htype Hprops Hin. destruct fuel as [|fuel]; [eexists; reflexivity |].
cbn [createSchemaPartFromRule]. rewrite assign_system_params_object.
unfold bind at 1. unfold lift at 1.
assert (Hget : forall k a b c, k <> "deprecated" -> k <> "title" -> k <> "description" ->
          js_get k (VObj (js_set "deprecated" a (js_set "title" b
                            (js_set "description" c fragment))))
          = js_get k (VObj fragment)).
{ intros k a b c H1 H2 H3. rewrite !js_get_set_ne by congruence. reflexivity. }
rewrite !(Hget "type"), !(Hget "properties") by discriminate.
rewrite Htype, Hprops. cbn [truthy andb]. unfold bind at 1.
match goal with
| |- context [createSchemaComponentFromObject_with ?p ?n (VObj nested) ?cp ?g0] =>
    destruct (registration_throws p n (field, VUndef) nested cp g0 Hin
                ltac:(intros s g1; eexists; reflexivity)) as [e He]
end.
rewrite He. eauto.
Qed.

Lemma registration_of_nested_omitted_field_throws (name k field : string)
    (fields fragment nested : props) (customProperties : value) (g : Generator) :
  In (k, VObj fragment) fields ->
  eq_str "object" (js_get "type" (VObj fragment)) = true ->
  js_get "properties" (VObj fragment) = VObj nested ->
  In (field, VUndef) nested ->
  exists e, _createSchemaComponentFromObject name (VObj fields) customProperties g = Err e.
Proof.
intros Hk Htype Hprops Hin. unfold _createSchemaComponentFromObject.
apply (registration_throws _ name (k, VObj fragment)); [exact Hk |].
intros s g0. unfold component_field. unfold bind at 1. unfold lift at 1.
cbn [js_member]. unfold bind at 1.
match goal with |- context [createSchemaPartFromRule ?fuel ?next _ g0] =>
  destruct (part_of_omitted_field_throws fuel next field fragment nested g0
              Htype Hprops Hin) as [e He] end.
rewrite He. eauto.
Qed.
End OmittedField.

Section OmittedUpload.
Context `{Constants} `{Collaborators}.

(** The body of a multipart upload whose rule schema has an object with
    an omitted field: [generateFileUploadBody] throws. *)
Lemma upload_of_nested_omitted_field_throws (alias : Alias) (excluded : list value)
    (g : Generator) (actionName k field : string) (params rootRules fragment nested : props) :
  type alias = Some "multipart" ->
  action alias = Some actionName -> actionName <> "" ->
  js_get "params" (actionSchema alias) = VObj params ->
  is_true (js_get "$$root" (VObj params)) = false ->
  getSchemaObjectFromSchema (VObj params) = Ok rootRules ->
  In (k, VObj fragment) (aggregated_fields excluded rootRules) ->
  eq_str "object" (js_get "type" (VObj fragment)) = true ->
  js_get "properties" (VObj fragment) = VObj nested ->
  In (field, VUndef) nested ->
  exists e, generateFileUploadBody alias excluded g = Err e.
Proof.
intros Htype Haction Hname Hparams Hroot Hconv Hk Hobject Hprops Hin.
destruct (registration_of_nested_omitted_field_throws actionName k field
            (aggregated_fields excluded rootRules) fragment nested (VObj []) g
            Hk Hobject Hprops Hin) as [e He].
exists e. unfold generateFileUploadBody. rewrite Htype.
rewrite bool_decide_eq_false_2 by discriminate.
cbn [js_path]. rewrite Hparams, Hroot, Haction. cbn [of_option truthy default andb].
assert (Hne : String.eqb actionName "" = false) by (apply String.eqb_neq; exact Hname).
rewrite Hne. cbn [negb andb coalesce nullish].
unfold bind at 1. unfold bind at 1. unfold bind at 1.
unfold createRequestBodyFromParams. rewrite Hroot, Hconv.
unfold bind at 1. unfold lift at 1. fold (aggregated_fields excluded rootRules).
change (id actionName) with actionName. rewrite He. reflexivity.
Qed.
End OmittedUpload.

(** * Further properties of the code *)

Section Stripping.
Context `{Constants}.

(** X1.  [removeExtensions] throws exactly when it meets [null]: as an
    element of an array or as the value of a key that is not a marker, at
    any depth that is not below a marker key. *)
Theorem removeExtensions_returns_unless_null (v : value) :
  is_ok (removeExtensions v) = strippable v.
Proof.
induction v as [| | b | n | s | l IH | o IH] using value_ind; try reflexivity.
- cbn [removeExtensions strippable].
  induction IH as [|x l Hx _ IHl]; [reflexivity |].
  cbn [rmap forallb]. rewrite <- Hx.
  destruct (removeExtensions x) as [x' |]; [| reflexivity]. cbn [rbind is_ok andb].
  rewrite <- IHl. destruct (rmap removeExtensions l); reflexivity.
- cbn [removeExtensions strippable].
  induction IH as [|[k x] o Hx _ IHo]; [reflexivity |].
  cbn [snd] in Hx. destruct (is_extension k); cbn [orb andb]; [exact IHo |].
  rewrite <- Hx. destruct (removeExtensions x) as [x' |]; [| reflexivity].
  cbn [rbind is_ok andb]. rewrite <- IHo.
  match goal with |- is_ok (do es <- (do es0 <- ?r; _); _) = is_ok (do es1 <- ?r'; _) =>
    change r' with r; destruct r end; reflexivity.
Qed.

Lemma rmap_fixed (l : list value) :
  Forall (fun x => removeExtensions x = Ok x) l -> rmap removeExtensions l = Ok l.
Proof.
induction 1 as [|x l Hx _ IH]; [reflexivity |].
cbn [rmap]. rewrite Hx. cbn [rbind]. rewrite IH. reflexivity.
Qed.

Lemma removeExtensions_fixed_object (o : props) :
  Forall (fun kv => is_extension (fst kv) = false /\ removeExtensions (snd kv) = Ok (snd kv)) o ->
  List.NoDup (js_keys o) ->
  removeExtensions (VObj o) = Ok (VObj o).
Proof.
intros Hall Hnd. rewrite removeExtensions_object, delete_extensions_filter.
assert (Hf : List.filter (fun kv => negb (is_extension (fst kv))) o = o).
{ clear Hnd. induction Hall as [|kv o [Hk _] _ IH]; [reflexivity |].
  cbn [List.filter]. rewrite Hk. cbn [negb]. rewrite IH. reflexivity. }
rewrite Hf.
assert (Hm : rmap (fun kv => do x' <- removeExtensions (snd kv); Ok (fst kv, x')) o = Ok o).
{ clear Hnd Hf. induction Hall as [|[k x] o [_ Hx] _ IH]; [reflexivity |].
  cbn [rmap]. cbn [snd fst] in *. rewrite Hx. cbn [rbind]. rewrite IH. reflexivity. }
rewrite Hm. cbn [rbind]. rewrite js_fromEntries_NoDup by exact Hnd. reflexivity.
Qed.

(** X2.  [removeExtensions] is idempotent: what it returns, it returns as
    it stands. *)
Theorem removeExtensions_idempotent (v v' : value) :
  removeExtensions v = Ok v' -> removeExtensions v' = Ok v'.
Proof.
revert v'. induction v as [| | b | n | s | l IH | o IH] using value_ind; intros v' Hv;
  try (cbn in Hv; injection Hv as <-; reflexivity).
- discriminate.
- cbn [removeExtensions] in Hv. apply rbind_Ok in Hv. destruct Hv as [l' [Hl Hv]].
  injection Hv as <-. cbn [removeExtensions].
  rewrite rmap_fixed; [reflexivity |].
  revert l' Hl. induction IH as [|x l Hx _ IHl]; intros l' Hl; cbn [rmap] in Hl.
  + injection Hl as <-. constructor.
  + apply rbind_Ok in Hl. destruct Hl as [x' [Ex Hl]].
    apply rbind_Ok in Hl. destruct Hl as [l0 [El Hl]]. injection Hl as <-.
    constructor; [apply Hx; exact Ex | apply IHl; exact El].
- rewrite removeExtensions_object, delete_extensions_filter in Hv.
  apply rbind_Ok in Hv. destruct Hv as [es [Hes Hv]]. injection Hv as <-.
  apply removeExtensions_fixed_object; [| apply fromEntries_NoDup].
  apply js_fromEntries_Forall. apply rmap_entries in Hes.
  revert es Hes. induction IH as [|[k x] o Hx _ IHo]; intros es Hes; cbn [List.filter] in Hes.
  + inversion Hes. constructor.
  + cbn [fst snd] in *. destruct (is_extension k) eqn:Ek; cbn [negb] in Hes.
    * apply IHo. exact Hes.
    * inversion Hes as [|? [k' x'] ? es0 [Hk Hx'] Hrest]; subst. cbn [fst snd] in *. subst k'.
      constructor; [split; [exact Ek | apply Hx; exact Hx'] | apply IHo; exact Hrest].
Qed.
End Stripping.

Lemma index_param_other (c : ascii) (s : string) :
  Ascii.eqb c "/" = false ->
  String.index 0 "/:" (String c s) = option_map S (String.index 0 "/:" s).
Proof.
intros Hc. cbn [String.index String.prefix].
destruct (ascii_dec "/" c) as [<- | _]; [discriminate |].
destruct (String.index 0 "/:" s); reflexivity.
Qed.

Lemma index_param_skip (p rest : string) :
  no_slash p = true ->
  String.index 0 "/:" (p +:+ rest)
  = option_map (Nat.add (String.length p)) (String.index 0 "/:" rest).
Proof.
induction p as [|c p IH]; intros Hp.
- change ("" +:+ rest) with rest. destruct (String.index 0 "/:" rest); reflexivity.
- cbn [no_slash all_chars] in Hp. apply andb_true_iff in Hp as [Hc Hp].
  apply negb_true_iff in Hc.
  change (String c p +:+ rest) with (String c (p +:+ rest)).
  rewrite (index_param_other _ _ Hc), (IH Hp).
  destruct (String.index 0 "/:" rest); reflexivity.
Qed.

Lemma index_param_segment (s rest : string) :
  no_slash s = true -> format_segment s = s ->
  rest = "" \/ (exists r, rest = String "/" r) ->
  String.index 0 "/:" (String "/" (s +:+ rest))
  = option_map (Nat.add (S (String.length s))) (String.index 0 "/:" rest).
Proof.
intros Hs Hf Hrest.
assert (Hp : String.prefix ":" (s +:+ rest) = false).
{ destruct s as [|c s].
  - destruct Hrest as [-> | [r ->]]; reflexivity.
  - change (String c s +:+ rest) with (String c (s +:+ rest)). cbn [String.prefix].
    destruct (ascii_dec ":" c) as [<- | _]; [| reflexivity].
    exfalso. cbn in Hf. apply (f_equal String.length) in Hf.
    rewrite length_append in Hf. simpl in Hf. rewrite length_append in Hf. simpl in Hf. lia. }
cbn [String.index String.prefix]. destruct (ascii_dec "/" "/") as [_ | Hne]; [| congruence].
rewrite Hp. rewrite (index_param_skip _ _ Hs).
destruct (String.index 0 "/:" rest); reflexivity.
Qed.

Lemma inert_no_slash (p : string) : no_slash p = true -> inert p.
Proof. intros Hp rest _. apply index_param_skip. exact Hp. Qed.

Lemma inert_segment (a s : string) :
  inert a -> no_slash s = true -> format_segment s = s -> inert (a +:+ "/" +:+ s).
Proof.
intros Ha Hs Hf rest Hrest. unfold inert, indexOf in *.
rewrite !str_app_assoc. change ("/" +:+ s +:+ rest) with (String "/" (s +:+ rest)).
rewrite Ha by (right; eauto).
rewrite (index_param_segment _ _ Hs Hf Hrest).
rewrite !length_append. change (String.length "/") with 1%nat.
destruct (String.index 0 "/:" rest); cbn [option_map]; [f_equal; lia | reflexivity].
Qed.

Lemma index_slash_skip (b r : string) :
  String.index (String.length b) "/" (b +:+ r)
  = option_map (Nat.add (String.length b)) (String.index 0 "/" r).
Proof.
induction b as [|c b IH].
- change ("" +:+ r) with r. cbn [String.length]. destruct (String.index 0 "/" r); reflexivity.
- change (String c b +:+ r) with (String c (b +:+ r)). cbn [String.length String.index].
  rewrite IH. destruct (String.index 0 "/" r); reflexivity.
Qed.

Lemma index_slash_word (w rest : string) :
  no_slash w = true ->
  String.index 0 "/" (w +:+ rest)
  = option_map (Nat.add (String.length w)) (String.index 0 "/" rest).
Proof.
induction w as [|c w IH]; intros Hw.
- change ("" +:+ rest) with rest. destruct (String.index 0 "/" rest); reflexivity.
- cbn [no_slash all_chars] in Hw. apply andb_true_iff in Hw as [Hc Hw].
  apply negb_true_iff in Hc.
  change (String c w +:+ rest) with (String c (w +:+ rest)).
  cbn [String.index String.prefix].
  destruct (ascii_dec "/" c) as [<- | _]; [discriminate |].
  rewrite (IH Hw). destruct (String.index 0 "/" rest); reflexivity.
Qed.

Lemma index_slash_join (segs : list string) :
  String.index 0 "/" (join_segments segs) = match segs with [] => None | _ => Some 0%nat end.
Proof. destruct segs as [|s segs]; [reflexivity |]. cbn [join_segments].
change ("/" +:+ s +:+ join_segments segs) with (String "/" (s +:+ join_segments segs)).
cbn [String.index String.prefix]. destruct (ascii_dec "/" "/"); [| congruence].
destruct (s +:+ join_segments segs); reflexivity.
Qed.

Lemma no_slash_append (a b : string) :
  no_slash (a +:+ b) = no_slash a && no_slash b.
Proof.
induction a as [|c a IH]; [reflexivity |].
change (String c a +:+ b) with (String c (a +:+ b)). unfold no_slash in *.
cbn [all_chars]. rewrite IH. rewrite andb_assoc. reflexivity.
Qed.

Lemma no_slash_braces (name : string) :
  no_slash name = true -> no_slash ("{" +:+ name +:+ "}") = true.
Proof. intros Hn. rewrite !no_slash_append, Hn. reflexivity. Qed.

Lemma segment_assoc (a s r : string) :
  a +:+ "/" +:+ s +:+ r = (a +:+ "/" +:+ s) +:+ r.
Proof. rewrite !str_app_assoc. reflexivity. Qed.

(** The general form: after an inert prefix, every segment is formatted. *)
Lemma formatParamUrl_after (segs : list string) :
  Forall (fun s => no_slash s = true) segs ->
  forall a, inert a ->
  formatParamUrl (a +:+ join_segments segs)
  = a +:+ join_segments (map format_segment segs).
Proof.
induction 1 as [|s segs Hs Hsegs IH]; intros a Ha.
- cbn [join_segments map]. rewrite formatParamUrl_equation.
  rewrite (Ha "") by (left; reflexivity). reflexivity.
- cbn [join_segments map].
  destruct s as [|c name] eqn:Es.
  { change (format_segment "") with "". rewrite !(segment_assoc a "").
    apply IH. apply (inert_segment a "" Ha); reflexivity. }
  destruct (Ascii.eqb c ":") eqn:Ec.
  2:{ assert (Hf : format_segment (String c name) = String c name)
        by (cbn [format_segment]; rewrite Ec; reflexivity).
      rewrite Hf. rewrite !(segment_assoc a (String c name)).
      apply IH. apply (inert_segment a _ Ha Hs Hf). }
  apply Ascii.eqb_eq in Ec. subst c.
  assert (Hname : no_slash name = true).
  { cbn [no_slash all_chars] in Hs. apply andb_true_iff in Hs as [_ Hs]. exact Hs. }
  change (format_segment (String ":" name)) with ("{" +:+ name +:+ "}").
  rewrite formatParamUrl_equation.
  set (url := a +:+ "/" +:+ String ":" name +:+ join_segments segs).
  assert (Hstart : indexOf "/:" 0 url = Some (String.length a)).
  { unfold url. rewrite Ha by (right; eauto).
    change ("/" +:+ String ":" name +:+ join_segments segs)
      with (String "/" (String ":" (name +:+ join_segments segs))).
    unfold indexOf. cbn [String.index String.prefix option_map].
    destruct (ascii_dec "/" "/"); [| congruence].
    destruct (ascii_dec ":" ":"); [| congruence].
    destruct (name +:+ join_segments segs); cbn [String.prefix option_map]; f_equal; lia. }
  rewrite Hstart. cbv zeta.
  assert (Hu1 : url = (a +:+ "/") +:+ (String ":" name +:+ join_segments segs))
    by (unfold url; rewrite str_app_assoc; reflexivity).
  assert (Hl1 : S (String.length a) = String.length (a +:+ "/"))
    by (rewrite length_append; simpl; lia).
  assert (Hend : indexOf "/" (S (String.length a)) url
                 = match segs with
                   | [] => None
                   | _ => Some (String.length (a +:+ "/:" +:+ name))
                   end).
  { unfold indexOf. rewrite Hl1, Hu1, index_slash_skip.
    rewrite (index_slash_word (String ":" name) _ Hs), index_slash_join.
    destruct segs; cbn [option_map]; [reflexivity |].
    f_equal. rewrite !length_append. simpl. lia. }
  rewrite Hend.
  assert (Hpre : slice 0 (S (String.length a)) url = a +:+ "/").
  { unfold slice. rewrite Nat.sub_0_r, Hl1, Hu1. apply substring_prefix. }
  assert (Hu2 : url = (a +:+ "/:") +:+ (name +:+ join_segments segs)).
  { unfold url. rewrite str_app_assoc. reflexivity. }
  assert (Hl2 : S (S (String.length a)) = String.length (a +:+ "/:"))
    by (rewrite length_append; simpl; lia).
  destruct segs as [|s' segs].
  + cbn [join_segments map]. rewrite Hpre.
    assert (Hname' : slice_from (S (S (String.length a))) url = name).
    { unfold slice_from. rewrite Hl2. rewrite Hu2 at 2. rewrite substring_skip.
      rewrite Hu2, length_append.
      replace (String.length (a +:+ "/:")
               + String.length (name +:+ join_segments []) - String.length (a +:+ "/:"))%nat
        with (String.length (name +:+ join_segments [])) by lia.
      cbn [join_segments]. rewrite str_app_nil_r. apply substring_all. }
    rewrite Hname'. rewrite !str_app_assoc, !str_app_nil_r. reflexivity.
  + assert (Hmid : slice (S (S (String.length a))) (String.length (a +:+ "/:" +:+ name)) url
                   = name).
    { unfold slice. rewrite Hl2. rewrite Hu2. rewrite substring_skip.
      replace (String.length (a +:+ "/:" +:+ name) - String.length (a +:+ "/:"))%nat
        with (String.length name) by (rewrite !length_append; simpl; lia).
      apply substring_prefix. }
    assert (Hu3 : url = (a +:+ "/:" +:+ name) +:+ join_segments (s' :: segs)).
    { unfold url. rewrite !str_app_assoc. reflexivity. }
    assert (Hrest : slice_from (String.length (a +:+ "/:" +:+ name)) url
                    = join_segments (s' :: segs)).
    { unfold slice_from. rewrite Hu3 at 2. rewrite substring_skip.
      rewrite Hu3, length_append.
      replace (String.length (a +:+ "/:" +:+ name)
               + String.length (join_segments (s' :: segs))
               - String.length (a +:+ "/:" +:+ name))%nat
        with (String.length (join_segments (s' :: segs))) by lia.
      apply substring_all. }
    rewrite Hpre, Hmid, Hrest.
    replace ((a +:+ "/") +:+ "{" +:+ name +:+ "}" +:+ join_segments (s' :: segs))
      with ((a +:+ "/" +:+ "{" +:+ name +:+ "}") +:+ join_segments (s' :: segs))
      by (rewrite !str_app_assoc; reflexivity).
    rewrite IH.
    * rewrite !str_app_assoc. reflexivity.
    * apply inert_segment; [exact Ha | apply no_slash_braces; exact Hname | reflexivity].
Qed.

Lemma split_on_join (url : string) :
  exists p segs,
    split_on "/" url = p :: segs
    /\ url = p +:+ join_segments segs
    /\ no_slash p = true
    /\ Forall (fun s => no_slash s = true) segs.
Proof.
induction url as [|c url [p [segs [Hsplit [Hurl [Hp Hsegs]]]]]].
- exists "", []. repeat split. constructor.
- cbn [split_on]. rewrite Hsplit. destruct (Ascii.eqb c "/") eqn:Ec.
  + apply Ascii.eqb_eq in Ec. subst c. exists "", (p :: segs).
    split; [reflexivity |]. split; [| split; [reflexivity | constructor; assumption]].
    cbn [join_segments]. rewrite Hurl at 1. reflexivity.
  + exists (String c p), segs. split; [reflexivity |].
    split; [rewrite Hurl at 1; reflexivity |]. split; [| exact Hsegs].
    unfold no_slash in *. cbn [all_chars]. rewrite Ec, Hp. reflexivity.
Qed.


(** X3.  [formatParamUrl] rewrites exactly the segments that start with a
    colon, each [:name] to [{name}]; the text before the first slash and
    every other segment are left as they are. *)
Theorem formatParamUrl_segments (url : string) :
  formatParamUrl url
  = match split_on "/" url with
    | p :: segs => p +:+ join_segments (map format_segment segs)
    | [] => url
    end.
Proof.
destruct (split_on_join url) as [p [segs [Hsplit [Hurl [Hp Hsegs]]]]].
rewrite Hsplit. rewrite Hurl at 1.
apply formatParamUrl_after; [exact Hsegs | apply inert_no_slash; exact Hp].
Qed.





Lemma rmap_ext {A B : Type} (f g : A -> result B) (l : list A) :
  (forall x, f x = g x) -> rmap f l = rmap g l.
Proof.
intros Hfg. induction l as [|x l IH]; [reflexivity |].
cbn [rmap]. rewrite Hfg, IH. reflexivity.
Qed.

Lemma cleanComponents_sections (c : props) :
  cleanComponents (VObj c)
  = (do cleaned <- rmap (fun kv => do x' <- clean_section (snd kv); Ok (fst kv, x')) c;
     Ok (js_fromEntries cleaned)).
Proof.
unfold cleanComponents. cbn [js_entries props_of rbind]. f_equal.
apply rmap_ext. intros [k v]. unfold clean_section. cbn [fst snd].
destruct (js_entries v); reflexivity.
Qed.

Lemma strict_eq_false (v : value) :
  strict_eq v (VBool false) = true <-> v = VBool false.
Proof.
destruct v as [| | [|] | | | |]; cbn; split; intros Hv; try discriminate; reflexivity.
Qed.

Lemma js_lookup_filter_value (q : value -> bool) (k : string) (o : props) :
  List.NoDup (js_keys o) ->
  js_lookup k (List.filter (fun e => q (snd e)) o)
  = match js_lookup k o with
    | Some v => if q v then Some v else None
    | None => None
    end.
Proof.
induction o as [|[k0 v0] o IH]; intros Hnd; [reflexivity |].
cbn [js_keys map fst] in Hnd. inversion Hnd as [|? ? Hnin Hnd']; subst.
cbn [List.filter snd js_lookup].
destruct (String.eqb k k0) eqn:Ek.
- apply String.eqb_eq in Ek. subst k0.
  destruct (q v0); cbn [js_lookup]; [rewrite String.eqb_refl; reflexivity |].
  rewrite (IH Hnd').
  apply js_lookup_None_keys in Hnin. rewrite Hnin. reflexivity.
- destruct (q v0); cbn [js_lookup]; [rewrite Ek |]; apply (IH Hnd').
Qed.

Lemma filter_value_NoDup (q : value -> bool) (o : props) :
  List.NoDup (js_keys o) -> List.NoDup (js_keys (List.filter (fun e => q (snd e)) o)).
Proof.
induction o as [|[k0 v0] o IH]; intros Hnd; [constructor |].
cbn [js_keys map fst] in Hnd. inversion Hnd as [|? ? Hnin Hnd']; subst.
cbn [List.filter snd]. destruct (q v0); [| apply IH; exact Hnd'].
cbn [js_keys map fst]. constructor; [| apply IH; exact Hnd'].
intros Hin. apply Hnin. unfold js_keys in Hin. apply in_map_iff in Hin.
destruct Hin as [[k v] [Hk Hin]]. cbn in Hk. subst k. apply filter_In in Hin.
destruct Hin as [Hin _]. apply in_map_iff. exists (k0, v). auto.
Qed.

(** X5.  [cleanComponents] removes from every section the entries that are
    [false] and keeps every other entry with its value. *)
Theorem cleanComponents_drops_false (c cleaned : props) (k : string) (section : props) :
  cleanComponents (VObj c) = Ok cleaned ->
  List.NoDup (js_keys c) ->
  js_lookup k c = Some (VObj section) ->
  List.NoDup (js_keys section) ->
  exists section',
    js_lookup k cleaned = Some (VObj section')
    /\ forall name,
         js_lookup name section'
         = match js_lookup name section with
           | Some (VBool false) => None
           | entry => entry
           end.
Proof.
intros Hc Hnd Hk Hsec. rewrite cleanComponents_sections in Hc.
apply rbind_Ok in Hc. destruct Hc as [es [Hes Hc]]. injection Hc as <-.
apply rmap_entries in Hes.
pose proof (Forall2_entries_keys _ _ _ Hes) as Hkeys.
pose proof (Forall2_entries_lookup _ _ _ k Hes) as Hl. rewrite Hk in Hl.
destruct Hl as [x' [Hx' Hl]].
rewrite js_fromEntries_NoDup by (change (map fst es) with (js_keys es); rewrite Hkeys; exact Hnd).
unfold clean_section in Hx'. cbn [js_entries props_of rbind] in Hx'. injection Hx' as <-.
eexists. split; [exact Hl |]. intros name.
rewrite js_fromEntries_NoDup
  by (apply (filter_value_NoDup (fun v => negb (strict_eq v (VBool false))) _ Hsec)).
rewrite (js_lookup_filter_value (fun v => negb (strict_eq v (VBool false))) name section Hsec).
destruct (js_lookup name section) as [v |]; [| reflexivity].
destruct (strict_eq v (VBool false)) eqn:Ev.
- apply strict_eq_false in Ev. subst v. reflexivity.
- cbn [negb]. destruct v as [| | [|] | | | |]; try reflexivity. discriminate.
Qed.

Lemma filter_all {A : Type} (p : A -> bool) (l : list A) :
  Forall (fun x => p x = true) l -> List.filter p l = l.
Proof.
induction 1 as [|x l Hx _ IH]; [reflexivity |]. cbn [List.filter]. rewrite Hx, IH. reflexivity.
Qed.

Lemma filter_Forall {A : Type} (p : A -> bool) (l : list A) :
  Forall (fun x => p x = true) (List.filter p l).
Proof.
induction l as [|x l IH]; [constructor |]. cbn [List.filter].
destruct (p x) eqn:Ep; [constructor; assumption | exact IH].
Qed.

(** X6.  [cleanComponents] is idempotent: cleaned components are cleaned
    to themselves. *)
Theorem cleanComponents_idempotent (components : value) (cleaned : props) :
  cleanComponents components = Ok cleaned -> cleanComponents (VObj cleaned) = Ok cleaned.
Proof.
intros Hc. unfold cleanComponents in Hc.
apply rbind_Ok in Hc. destruct Hc as [sections [_ Hc]].
apply rbind_Ok in Hc. destruct Hc as [es [Hes Hc]]. injection Hc as <-.
assert (Hall : Forall (fun kv => clean_section (snd kv) = Ok (snd kv)) (js_fromEntries es)).
{ apply js_fromEntries_Forall. clear -Hes. revert es Hes.
  induction sections as [|[k v] sections IH]; intros es Hes; cbn [rmap] in Hes.
  - injection Hes as <-. constructor.
  - apply rbind_Ok in Hes. destruct Hes as [kv [Hkv Hes]].
    apply rbind_Ok in Hes. destruct Hes as [es0 [Hes0 Hes]]. injection Hes as <-.
    constructor; [| apply IH; exact Hes0].
    cbn [snd fst] in Hkv. apply rbind_Ok in Hkv. destruct Hkv as [entries [_ Hkv]].
    injection Hkv as <-. cbn [snd]. unfold clean_section. cbn [js_entries props_of rbind].
    f_equal. f_equal.
    set (kept := js_fromEntries (List.filter _ entries)).
    assert (Hkept : Forall (fun e => negb (strict_eq (snd e) (VBool false)) = true) kept).
    { apply js_fromEntries_Forall. apply filter_Forall. }
    rewrite (filter_all _ _ Hkept). apply js_fromEntries_NoDup. apply fromEntries_NoDup. }
rewrite cleanComponents_sections.
assert (Hm : rmap (fun kv => do x' <- clean_section (snd kv); Ok (fst kv, x'))
               (js_fromEntries es) = Ok (js_fromEntries es)).
{ induction Hall as [|[k v] l Hv _ IH]; [reflexivity |].
  cbn [rmap snd fst] in *. rewrite Hv. cbn [rbind]. rewrite IH. reflexivity. }
rewrite Hm. cbn [rbind]. f_equal. apply js_fromEntries_NoDup. apply fromEntries_NoDup.
Qed.

(** X7.  [cleanComponents] throws exactly when a section of the components
    is [null] or [undefined]. *)
Theorem cleanComponents_returns_unless_nullish_section (c : props) :
  is_ok (cleanComponents (VObj c)) = forallb (fun kv => negb (nullish (snd kv))) c.
Proof.
rewrite cleanComponents_sections.
assert (Hm : is_ok (rmap (fun kv => do x' <- clean_section (snd kv); Ok (fst kv, x')) c)
             = forallb (fun kv => negb (nullish (snd kv))) c).
{ induction c as [|[k v] c IH]; [reflexivity |].
  cbn [rmap forallb snd fst]. rewrite <- IH.
  destruct v; cbn [clean_section js_entries rbind nullish negb andb is_ok]; try reflexivity;
    unfold clean_section; cbn [js_entries rbind];
    match goal with |- is_ok (do ys <- ?r; _) = _ => destruct r end; reflexivity. }
rewrite <- Hm. destruct (rmap _ c); reflexivity.
Qed.

Lemma strict_eq_sym (a b : value) : strict_eq a b = strict_eq b a.
Proof.
destruct a, b; cbn; try reflexivity.
- destruct b, b0; reflexivity.
- apply Z.eqb_sym.
- apply String.eqb_sym.
Qed.

Lemma distinct_urls_app (servers : list value) (server : value) :
  distinct_urls servers = true ->
  existsb (fun srv => strict_eq (js_get "url" srv) (js_get "url" server)) servers = false ->
  distinct_urls (servers ++ [server]) = true.
Proof.
induction servers as [|s servers IH]; intros Hd He; [reflexivity |].
cbn [distinct_urls app] in *. cbn [existsb] in He.
apply andb_true_iff in Hd as [Hs Hd]. apply orb_false_iff in He as [Hse He].
rewrite (IH Hd He), andb_true_r. rewrite existsb_app. cbn [existsb].
apply negb_true_iff in Hs. rewrite Hs. cbn [orb]. rewrite orb_false_r.
rewrite strict_eq_sym, Hse. reflexivity.
Qed.

(** X8.  [addServerToDocument] never lists a url twice: when no two
    servers of the document have the same url, none have afterwards; and
    the servers that were listed stay, in their order. *)
Theorem addServerToDocument_distinct_urls (d d' : props) (server : value) :
  forallb plain_server (server :: servers_of d) = true ->
  addServerToDocument d server = Ok d' ->
  distinct_urls (servers_of d) = true ->
  distinct_urls (servers_of d') = true
  /\ exists added, servers_of d' = servers_of d ++ added.
Proof.
intros _. unfold addServerToDocument, servers_of. intros Ha Hd.
destruct (truthy (js_get "servers" (VObj d))) eqn:Et.
- destruct (js_get "servers" (VObj d)) as [| | | | | servers |] eqn:Es;
    cbn [as_array rbind] in Ha; try discriminate.
  destruct (existsb _ servers) eqn:Ee.
  + injection Ha as <-. rewrite Es. split; [exact Hd | exists []; rewrite app_nil_r; reflexivity].
  + injection Ha as <-. rewrite js_get_set_eq. split; [| eauto].
    apply distinct_urls_app; assumption.
- rewrite js_get_set_eq in Ha. cbn [as_array rbind existsb] in Ha.
  injection Ha as <-. rewrite js_get_set_eq.
  assert (Hnone : match js_get "servers" (VObj d) with VArr l => l | _ => [] end = []).
  { destruct (js_get "servers" (VObj d)); try reflexivity. discriminate. }
  rewrite Hnone. split; [reflexivity | eauto].
Qed.

(** X9.  [addServerToDocument] is idempotent for a server whose url is a
    string: a second call with the server leaves the document as the first
    left it, and the url is listed. *)
Theorem addServerToDocument_idempotent (d d' : props) (server : value) (url : string) :
  forallb plain_server (servers_of d) = true ->
  js_get "url" server = VStr url ->
  addServerToDocument d server = Ok d' ->
  addServerToDocument d' server = Ok d'
  /\ existsb (fun srv => strict_eq (js_get "url" srv) (VStr url)) (servers_of d') = true.
Proof.
intros _ Hu Ha.
assert (Hself : strict_eq (js_get "url" server) (js_get "url" server) = true)
  by (rewrite Hu; cbn; apply String.eqb_refl).
unfold addServerToDocument in Ha.
assert (Hlisted : exists servers,
          js_get "servers" (VObj d') = VArr servers
          /\ existsb (fun srv => strict_eq (js_get "url" srv) (js_get "url" server)) servers
             = true).
{ destruct (truthy (js_get "servers" (VObj d))) eqn:Et.
  - destruct (js_get "servers" (VObj d)) as [| | | | | servers |] eqn:Es;
      cbn [as_array rbind] in Ha; try discriminate.
    destruct (existsb _ servers) eqn:Ee.
    + injection Ha as <-. eauto.
    + injection Ha as <-. rewrite js_get_set_eq. eexists. split; [reflexivity |].
      rewrite existsb_app. cbn [existsb]. rewrite Hself. rewrite !orb_true_r. reflexivity.
  - rewrite js_get_set_eq in Ha. cbn [as_array rbind existsb] in Ha.
    injection Ha as <-. rewrite js_get_set_eq. eexists. split; [reflexivity |].
    cbn [app existsb]. rewrite Hself. reflexivity. }
destruct Hlisted as [servers [Hs He]]. split.
- unfold addServerToDocument. rewrite Hs. cbn [truthy as_array rbind]. rewrite Hs.
  cbn [as_array rbind]. rewrite He. reflexivity.
- unfold servers_of. rewrite Hs. rewrite <- Hu. exact He.
Qed.

Lemma eq_str_name (tag : string) (v : value) : eq_str tag v = true <-> v = VStr tag.
Proof.
destruct v; cbn; split; intros Hv; try discriminate.
- apply String.eqb_eq in Hv. subst. reflexivity.
- injection Hv as ->. apply String.eqb_refl.
Qed.

Lemma existsb_name (tag : string) (ts : list value) :
  existsb (fun t => eq_str tag (js_get "name" t)) ts = true
  <-> In (VStr tag) (map (js_get "name") ts).
Proof.
rewrite existsb_exists, in_map_iff. split.
- intros [t [Hin Ht]]. apply eq_str_name in Ht. eauto.
- intros [t [Ht Hin]]. exists t. split; [exact Hin |]. apply eq_str_name. exact Ht.
Qed.

Lemma NoDup_snoc {A : Type} (l : list A) (x : A) :
  List.NoDup l -> ~ In x l -> List.NoDup (l ++ [x]).
Proof.
induction 1 as [|y l Hy Hnd IH]; intros Hx; cbn [app].
- constructor; [intros [] | constructor].
- constructor.
  + intros Hin. apply in_app_or in Hin. destruct Hin as [Hin | [-> | []]]; [tauto |].
    apply Hx. left. reflexivity.
  + apply IH. intros Hin. apply Hx. right. exact Hin.
Qed.

Lemma tag_names_set (ts : list value) (d : props) :
  tag_names (js_set "tags" (VArr ts) d) = map (js_get "name") ts.
Proof. unfold tag_names. rewrite js_get_set_eq. reflexivity. Qed.

Lemma register_tags_names (tm : gmap string value) (l : list string) :
  named_tags tm ->
  forall (d d' : props),
    fold_left (register_tag tm) l (Ok d) = Ok d' ->
    List.NoDup (tag_names d) ->
    List.NoDup (tag_names d')
    /\ (forall n, In n (tag_names d) -> In n (tag_names d'))
    /\ (forall tag tagObject,
          In tag l -> tm !! tag = Some tagObject -> truthy tagObject = true ->
          In (VStr tag) (tag_names d')).
Proof.
intros Hnamed. induction l as [|tag l IH]; intros d d' Hf Hnd.
- injection Hf as <-. repeat split; auto. intros tag o [].
- cbn [fold_left] in Hf. unfold register_tag at 2 in Hf. cbn [rbind] in Hf.
  destruct (js_get "tags" (VObj d)) as [| | | | | ts |] eqn:Hts; cbn [as_array rbind] in Hf;
    try (rewrite register_tag_Err in Hf; discriminate).
  assert (Hnames : tag_names d = map (js_get "name") ts)
    by (unfold tag_names; rewrite Hts; reflexivity).
  destruct (existsb (fun t => eq_str tag (js_get "name" t)) ts) eqn:Ee; cbn [negb andb] in Hf.
  + destruct (IH _ _ Hf Hnd) as [Hnd' [Hkeep Hcover]].
    repeat split; auto.
    intros t o [<- | Hin] Ho Htr; [| eapply Hcover; eassumption].
    apply Hkeep. rewrite Hnames. apply existsb_name. exact Ee.
  + destruct (tm !! tag) as [obj |] eqn:Eo.
    2:{ cbn in Hf. destruct (IH _ _ Hf Hnd) as [Hnd' [Hkeep Hcover]].
        repeat split; auto.
        intros t o [<- | Hin] Ho Htr; [congruence | eapply Hcover; eassumption]. }
    change (default VUndef (Some obj)) with obj in Hf.
    destruct (truthy obj) eqn:Etr.
    * pose proof (Hnamed _ _ Eo Etr) as Hname.
      assert (Hnd1 : List.NoDup (tag_names (js_set "tags" (VArr (ts ++ [obj])) d))).
      { rewrite tag_names_set, map_app. cbn [map]. rewrite Hname.
        apply NoDup_snoc; [rewrite <- Hnames; exact Hnd |].
        intros Hin. apply existsb_name in Hin. congruence. }
      destruct (IH _ _ Hf Hnd1) as [Hnd' [Hkeep Hcover]].
      split; [exact Hnd' |]. split.
      -- intros n Hn. apply Hkeep. rewrite tag_names_set, map_app. apply in_or_app. left.
         rewrite <- Hnames. exact Hn.
      -- intros t o [<- | Hin] Ho Htr'; [| eapply Hcover; eassumption].
         apply Hkeep. rewrite tag_names_set, map_app. apply in_or_app. right.
         rewrite <- Hname. left. reflexivity.
    * destruct (IH _ _ Hf Hnd) as [Hnd' [Hkeep Hcover]].
      repeat split; auto.
      intros t o [<- | Hin] Ho Htr'; [congruence | eapply Hcover; eassumption].
Qed.

Lemma uniq_In (x : string) (l : list string) : In x (uniq l) <-> In x l.
Proof.
induction l as [|y l IH]; [reflexivity |]. cbn [uniq]. split.
- intros [<- | Hin]; [left; reflexivity |]. apply filter_In in Hin. right. apply IH. tauto.
- intros [<- | Hin]; [left; reflexivity |].
  destruct (String.eqb y x) eqn:E; [apply String.eqb_eq in E; left; exact E |].
  right. apply filter_In. split; [apply IH; exact Hin | rewrite E; reflexivity].
Qed.

Lemma uniq_NoDup (l : list string) : List.NoDup (uniq l).
Proof.
induction l as [|y l IH]; [constructor |]. cbn [uniq]. constructor.
- intros Hin. apply filter_In in Hin. destruct Hin as [_ Hne].
  rewrite String.eqb_refl in Hne. discriminate.
- apply Stdlib.Lists.List.NoDup_filter. exact IH.
Qed.

Lemma handleTags_files (d d' : props) (tm : gmap string value)
    (tags : list value) (uniqTags : list string) :
  named_tags tm ->
  handleTags d tm (VArr tags) = Ok (d', uniqTags) ->
  List.NoDup (tag_names d) ->
  List.NoDup (tag_names d')
  /\ (forall n, In n (tag_names d) -> In n (tag_names d'))
  /\ (forall tag tagObject,
        In (VStr tag) tags -> tm !! tag = Some tagObject -> truthy tagObject = true ->
        In (VStr tag) (tag_names d'))
  /\ List.NoDup uniqTags
  /\ (forall tag, In tag uniqTags <-> In tag (map to_key tags)).
Proof.
intros Hnamed Hh Hnd. unfold handleTags in Hh. cbn [as_array rbind] in Hh.
apply rbind_Ok in Hh. destruct Hh as [d1 [Hf Hh]]. injection Hh as <- <-.
assert (H0 : tag_names (if truthy (js_get "tags" (VObj d)) then d
                        else js_set "tags" (VArr []) d) = tag_names d).
{ destruct (truthy (js_get "tags" (VObj d))) eqn:Et; [reflexivity |].
  rewrite tag_names_set. unfold tag_names.
  destruct (js_get "tags" (VObj d)); try reflexivity. discriminate. }
destruct (register_tags_names tm _ Hnamed _ _ Hf) as [Hnd' [Hkeep Hcover]].
{ rewrite H0. exact Hnd. }
rewrite H0 in Hkeep.
split; [exact Hnd' |]. split; [exact Hkeep |]. split; [| split].
- intros tag o Hin Ho Htr. apply (Hcover tag o); [| exact Ho | exact Htr].
  apply uniq_In. apply in_map_iff. exists (VStr tag). split; [reflexivity | exact Hin].
- apply uniq_NoDup.
- intros tag. apply uniq_In.
Qed.

(** X10.  [handleTags] files every tag once: when the names of the
    document's tags are distinct, they are distinct afterwards, the tags
    that were listed stay, and every tag of the operation that the tag map
    defines is listed; the tags it returns are those of the operation,
    each once. *)
Theorem handleTags_files_each_tag_once (d d' : props) (tm : gmap string value)
    (tags uniqTags : list string) :
  named_tags tm ->
  forallb (fun t => negb (nullish t)) (listed_tags d) = true ->
  handleTags d tm (VArr (map VStr tags)) = Ok (d', uniqTags) ->
  List.NoDup (tag_names d) ->
  List.NoDup (tag_names d')
  /\ (forall n, In n (tag_names d) -> In n (tag_names d'))
  /\ (forall tag tagObject,
        In tag tags -> tm !! tag = Some tagObject -> truthy tagObject = true ->
        In (VStr tag) (tag_names d'))
  /\ List.NoDup uniqTags
  /\ (forall tag, In tag uniqTags <-> In tag tags).
Proof.
intros Hnamed _ Hh Hnd.
destruct (handleTags_files d d' tm (map VStr tags) uniqTags Hnamed Hh Hnd)
  as [H1 [H2 [H3 [H4 H5]]]].
split; [exact H1 |]. split; [exact H2 |]. split; [| split; [exact H4 |]].
- intros tag o Hin. apply H3. apply in_map. exact Hin.
- intros tag. rewrite H5, map_map. cbn [to_key].
  rewrite Stdlib.Lists.List.map_id. reflexivity.
Qed.

Section Placement.
Context `{Constants} `{Collaborators}.

Lemma filter_entry_NoDup (q : string * value -> bool) (o : props) :
  List.NoDup (js_keys o) -> List.NoDup (js_keys (List.filter q o)).
Proof.
induction o as [|[k0 v0] o IH]; intros Hnd; [constructor |].
cbn [js_keys map fst] in Hnd. inversion Hnd as [|? ? Hnin Hnd']; subst.
cbn [List.filter]. destruct (q (k0, v0)); [| apply IH; exact Hnd'].
cbn [js_keys map fst]. constructor; [| apply IH; exact Hnd'].
intros Hin. apply Hnin. unfold js_keys in Hin. apply in_map_iff in Hin.
destruct Hin as [[k v] [Hk Hin]]. cbn in Hk. subst k. apply filter_In in Hin.
destruct Hin as [Hin _]. apply in_map_iff. exists (k0, v). auto.
Qed.

Lemma js_lookup_filter_entry (q : string * value -> bool) (k : string) (o : props) :
  List.NoDup (js_keys o) ->
  js_lookup k (List.filter q o)
  = match js_lookup k o with
    | Some v => if q (k, v) then Some v else None
    | None => None
    end.
Proof.
induction o as [|[k0 v0] o IH]; intros Hnd; [reflexivity |].
cbn [js_keys map fst] in Hnd. inversion Hnd as [|? ? Hnin Hnd']; subst.
cbn [List.filter js_lookup].
destruct (String.eqb k k0) eqn:Ek.
- apply String.eqb_eq in Ek. subst k0.
  destruct (q (k, v0)); cbn [js_lookup]; [rewrite String.eqb_refl; reflexivity |].
  rewrite (IH Hnd'). apply js_lookup_None_keys in Hnin. rewrite Hnin. reflexivity.
- destruct (q (k0, v0)); cbn [js_lookup]; [rewrite Ek |]; apply (IH Hnd').
Qed.

(** X11.  The keys of a rule schema are shared out: a key that starts
    with [$$] is a meta, and is no parameter; every other key is a
    parameter of the body or of the query, and not of both, with the rule
    it has in the schema. *)
Theorem params_are_shared_out (method : string) (schema : props) :
  List.NoDup (js_keys schema) ->
  exists metas body query,
    getMetas (VObj schema) = Ok metas
    /\ getParameters method (VObj schema) true = Ok body
    /\ getParameters method (VObj schema) false = Ok query
    /\ forall k,
         (js_lookup k metas
          = if startsWith "$$" k then js_lookup k schema else None)
         /\ (js_lookup k body
             = match js_lookup k schema with
               | Some rule =>
                   if negb (startsWith "$$" k) && placed_in_body method rule
                   then Some rule else None
               | None => None
               end)
         /\ (js_lookup k query
             = match js_lookup k schema with
               | Some rule =>
                   if negb (startsWith "$$" k) && negb (placed_in_body method rule)
                   then Some rule else None
               | None => None
               end).
Proof.
intros Hnd. unfold getMetas, getParameters, getValidationRules.
cbn [js_entries props_of rbind].
set (rules := List.filter (fun kv => negb (startsWith "$$" (fst kv))) schema).
assert (Hrules : List.NoDup (js_keys rules)) by (apply filter_entry_NoDup; exact Hnd).
rewrite (js_fromEntries_NoDup rules) by exact Hrules.
eexists. eexists. eexists. split; [reflexivity |]. split; [reflexivity |].
split; [reflexivity |]. intros k. split; [| split].
- rewrite js_fromEntries_NoDup by (apply filter_entry_NoDup; exact Hnd).
  rewrite (js_lookup_filter_key (fun k => startsWith "$$" k)). reflexivity.
- rewrite js_fromEntries_NoDup by (apply filter_entry_NoDup; exact Hrules).
  rewrite (js_lookup_filter_entry _ k rules Hrules). unfold rules.
  rewrite (js_lookup_filter_key (fun k => negb (startsWith "$$" k))).
  destruct (startsWith "$$" k); cbn [negb andb].
  + destruct (js_lookup k schema); reflexivity.
  + destruct (js_lookup k schema) as [rule |]; [| reflexivity].
    cbn [snd]. fold (placed_in_body method rule).
    destruct (placed_in_body method rule); reflexivity.
- rewrite js_fromEntries_NoDup by (apply filter_entry_NoDup; exact Hrules).
  rewrite (js_lookup_filter_entry _ k rules Hrules). unfold rules.
  rewrite (js_lookup_filter_key (fun k => negb (startsWith "$$" k))).
  destruct (startsWith "$$" k); cbn [negb andb].
  + destruct (js_lookup k schema); reflexivity.
  + destruct (js_lookup k schema) as [rule |]; [| reflexivity].
    cbn [snd]. fold (placed_in_body method rule).
    destruct (placed_in_body method rule); reflexivity.
Qed.

(** X12.  [getSchemaObjectFromSchema] has one entry for every rule of the
    schema, in the order of the schema, also for a rule that is converted
    to [undefined]: its [filter(Boolean)] removes nothing.  The entry is
    the conversion of the rule, with the schema as parent. *)
Theorem getSchemaObjectFromSchema_keeps_every_rule (schema fragments : props) :
  List.NoDup (js_keys schema) ->
  getSchemaObjectFromSchema (VObj schema) = Ok fragments ->
  js_keys fragments
  = List.filter (fun k => negb (startsWith "$$" k)) (js_keys schema)
  /\ forall k rule,
       startsWith "$$" k = false -> js_lookup k schema = Some rule ->
       exists fragment,
         getSchemaObjectFromRule rule VUndef (VObj schema) = Ok fragment
         /\ js_lookup k fragments = Some fragment.
Proof.
intros Hnd Hs. unfold getSchemaObjectFromSchema, getValidationRules in Hs.
cbn [js_entries props_of rbind] in Hs.
set (rules := List.filter (fun kv => negb (startsWith "$$" (fst kv))) schema) in Hs.
assert (Hrules : List.NoDup (js_keys rules)) by (apply filter_entry_NoDup; exact Hnd).
rewrite (js_fromEntries_NoDup rules) in Hs by exact Hrules.
apply rbind_Ok in Hs. destruct Hs as [es [Hes Hs]]. injection Hs as <-.
apply (rmap_entries (fun r => getSchemaObjectFromRule r VUndef (VObj schema))) in Hes.
pose proof (Forall2_entries_keys
              (fun r => getSchemaObjectFromRule r VUndef (VObj schema)) _ _ Hes) as Hkeys.
rewrite js_fromEntries_NoDup by (change (map fst es) with (js_keys es); rewrite Hkeys; exact Hrules).
split.
- rewrite Hkeys. apply (js_keys_filter_key (fun k => negb (startsWith "$$" k))).
- intros k rule Hk Hl.
  pose proof (Forall2_entries_lookup
                (fun r => getSchemaObjectFromRule r VUndef (VObj schema)) _ _ k Hes) as Hlk.
  unfold rules in Hlk. rewrite (js_lookup_filter_key (fun k => negb (startsWith "$$" k))) in Hlk.
  rewrite Hk, Hl in Hlk. exact Hlk.
Qed.
End Placement.

Section References.
Context `{Constants} `{Collaborators}.

(** X13.  The reference a registration returns resolves to the component
    it stored, when the name has no slash and is none of
    [Object.prototype]: [getComponent] of the reference is the component
    under the name, an object schema, and the store is left as it is. *)
Theorem registered_reference_resolves (name : string) (obj customProperties ref : value)
    (g g' : Generator) :
  all_chars (fun c => negb (Ascii.eqb c "/")) name = true ->
  name <> "" ->
  inherited name = false ->
  wf_store g ->
  _createSchemaComponentFromObject name obj customProperties g = Ok (ref, g') ->
  getComponent ref g' = Ok (stored name g', g')
  /\ js_get "type" (stored name g') = VStr "object".
Proof.
intros Hname Hne _ Hwf Hc.
destruct (top_registration name obj customProperties ref g g' Hwf Hc)
  as [fields [entries [nested [_ [-> [Hl [_ [_ [Hwf' _]]]]]]]]].
assert (Hstored : stored name g'
                  = object_component (js_fromEntries entries) (required_fields fields)
                      customProperties).
{ unfold stored. destruct Hwf' as [s [Hs _]]. rewrite Hs in *. cbn [props_of] in Hl.
  cbn [js_get]. rewrite Hl. reflexivity. }
rewrite Hstored. split; [| reflexivity].
assert (Hget : js_get "$ref" (schema_ref name)
               = VStr ("#/components/schemas/" +:+ name)) by reflexivity.
assert (Hnonempty : truthy (VStr ("#/components/schemas/" +:+ name)) = true) by reflexivity.
unfold getComponent, isReferenceObject. rewrite Hget, Hnonempty. cbn [negb].
unfold bind. rewrite (getComponentByRef_schema name _ g' Hname Hne Hwf' Hl).
reflexivity.
Qed.

(** X14.  The reference of a name that is not registered is dangling:
    [getComponentByRef] answers [undefined] for it, and [getComponent]
    throws. *)
Theorem dangling_reference (name : string) (g : Generator) :
  all_chars (fun c => negb (Ascii.eqb c "/")) name = true ->
  wf_store g ->
  js_lookup name (props_of (schemas_of g)) = None ->
  getComponentByRef (VStr ("#/components/schemas/" +:+ name)) g = Ok (VUndef, g)
  /\ exists e, getComponent (schema_ref name) g = Err e.
Proof.
intros Hname [s [Hs Hnd]] Hl. rewrite Hs in Hl. cbn [props_of] in Hl.
assert (Href : getComponentByRef (VStr ("#/components/schemas/" +:+ name)) g
               = Ok (VUndef, g)).
{ unfold getComponentByRef.
  assert (Hw : forall (w rest : string),
            all_chars (fun c => negb (Ascii.eqb c "/")) w = true ->
            split_on "/" (w +:+ String "/" rest) = w :: split_on "/" rest).
  { induction w as [|c w IHw]; intros rest Hw; [reflexivity |].
    change (String c w +:+ String "/" rest) with (String c (w +:+ String "/" rest)).
    cbn [split_on]. cbn [all_chars] in Hw. apply andb_true_iff in Hw as [Hc Hw].
    apply negb_true_iff in Hc. rewrite Hc, (IHw _ Hw). reflexivity. }
  assert (Hsplit : List.filter (fun s => negb (String.eqb s ""))
                     (split_on "/" ("#/components/schemas/" +:+ name))
                   = "#" :: "components" :: "schemas"
                       :: (if String.eqb name "" then [] else [name])).
  { change ("#/components/schemas/" +:+ name)
      with (String "#" (String "/" ("components" +:+ String "/" ("schemas"
              +:+ String "/" name)))).
    cbn [split_on Ascii.eqb Bool.eqb].
    rewrite (Hw "components" _ eq_refl), (Hw "schemas" _ eq_refl).
    rewrite (split_on_no_sep _ _ Hname).
    cbn [List.filter String.eqb negb Ascii.eqb Bool.eqb].
    destruct (String.eqb name ""); reflexivity. }
  rewrite Hsplit. unfold bind, get_components.
  destruct (String.eqb name "") eqn:Ee; [reflexivity |].
  assert (Hin : bool_decide (default "" (["#"; "components"; "schemas"; name] !! 2%nat)
                              ∈ js_keys (components g)) = true).
  { apply bool_decide_eq_true. apply list_elem_of_In. cbn.
    unfold schemas_of in Hs. cbn [js_get] in Hs.
    destruct (js_lookup "schemas" (components g)) as [x |] eqn:Ex; [| discriminate].
    eapply js_lookup_Some_keys. exact Ex. }
  rewrite Hin. cbn [length Nat.ltb Nat.leb lookup list_lookup].
  rewrite !bool_decide_eq_true_2 by reflexivity. cbn [negb orb drop fold_left truthy].
  unfold ret. unfold schemas_of in Hs. cbn [own_property js_get] in *.
  destruct (js_lookup "schemas" (components g)) as [x |]; [| discriminate].
  simpl in Hs. subst x. simpl. rewrite Hl. reflexivity. }
split; [exact Href |].
assert (Hget : js_get "$ref" (schema_ref name)
               = VStr ("#/components/schemas/" +:+ name)) by reflexivity.
assert (Hnonempty : truthy (VStr ("#/components/schemas/" +:+ name)) = true) by reflexivity.
unfold getComponent, isReferenceObject. rewrite Hget, Hnonempty. cbn [negb].
unfold bind. rewrite Href. eexists. reflexivity.
Qed.
End References.

Section QueryParameters.
Context `{Constants} `{Collaborators}.

Lemma includes_str_names (k : string) (names : list string) :
  includes_str k (map VStr names) = true <-> In k names.
Proof.
unfold includes_str. rewrite existsb_exists. split.
- intros [v [Hin Hv]]. apply in_map_iff in Hin. destruct Hin as [n [<- Hin]].
  apply String.eqb_eq in Hv. subst. exact Hin.
- intros Hin. exists (VStr k). split; [apply in_map; exact Hin | apply String.eqb_refl].
Qed.

Lemma query_parameter_shape (names : list string) (entry : string * value)
    (paths queries params' : list value) (g g' : Generator) :
  Forall2 path_parameter_named names paths ->
  Forall (query_parameter_beside names) queries ->
  query_parameter (map VStr names) (paths ++ queries) entry g = Ok (params', g') ->
  exists paths' queries',
    params' = paths' ++ queries'
    /\ Forall2 path_parameter_named names paths'
    /\ Forall (query_parameter_beside names) queries'.
Proof.
intros Hpaths Hqueries Hq. destruct entry as [k v]. unfold query_parameter in Hq.
apply bind_Ok in Hq. destruct Hq as [schema [g0 [_ Hq]]].
destruct (negb (truthy schema)).
{ apply ret_Ok in Hq. destruct Hq as [-> _]. eauto. }
apply bind_Ok in Hq. destruct Hq as [component [g1 [_ Hq]]].
destruct (includes_str k (map VStr names)) eqn:Ein; cbn [negb] in Hq;
  apply ret_Ok in Hq; destruct Hq as [-> _].
- apply includes_str_names in Ein. rewrite map_app.
  eexists. eexists. split; [reflexivity |]. split.
  + clear -Hpaths. induction Hpaths as [|n p names paths [Hn [Hi Hr]] _ IH]; [constructor |].
    cbn [map]. constructor; [| exact IH].
    rewrite Hn. cbn [eq_str]. destruct (String.eqb n k) eqn:En; cbn [negb].
    * apply String.eqb_eq in En. subst n. repeat split.
    * repeat split; assumption.
  + clear -Hqueries Ein. induction Hqueries as [|q queries Hq _ IH]; [constructor |].
    cbn [map]. constructor; [| exact IH].
    destruct Hq as [Hi [[k' [Hk' Hnin]] Hr]]. rewrite Hk'. cbn [eq_str].
    destruct (String.eqb k' k) eqn:En; cbn [negb].
    * apply String.eqb_eq in En. subst k'. contradiction.
    * split; [exact Hi |]. split; [eauto | exact Hr].
- exists paths. eexists. split; [rewrite <- app_assoc; reflexivity |].
  split; [exact Hpaths |]. apply Forall_app. split; [exact Hqueries |].
  constructor; [| constructor]. split; [reflexivity |]. split.
  + exists k. split; [reflexivity |]. intros Hin. apply includes_str_names in Hin. congruence.
  + cbn. destruct (is_true (js_get EOA_optional component)); auto.
Qed.

Lemma query_parameters_shape (names : list string) (l : list (string * value)) :
  forall (paths queries params' : list value) (g g' : Generator),
    Forall2 path_parameter_named names paths ->
    Forall (query_parameter_beside names) queries ->
    mfold (query_parameter (map VStr names)) l (paths ++ queries) g = Ok (params', g') ->
    exists paths' queries',
      params' = paths' ++ queries'
      /\ Forall2 path_parameter_named names paths'
      /\ Forall (query_parameter_beside names) queries'.
Proof.
induction l as [|entry l IH]; intros paths queries params' g g' Hp Hq Hf; cbn [mfold] in Hf.
- apply ret_Ok in Hf. destruct Hf as [-> _]. eauto.
- apply bind_Ok in Hf. destruct Hf as [params1 [g1 [Hstep Hf]]].
  destruct (query_parameter_shape _ _ _ _ _ _ _ Hp Hq Hstep) as [p1 [q1 [-> [Hp1 Hq1]]]].
  eapply IH; eassumption.
Qed.

(** X15.  The parameters of an ordinary route without overrides: first the
    parameters of the placeholders of the path, in their order, each in
    the path and required, also when the rule schema has a rule of the
    name; then the parameters of the query, none of which has the name of
    a placeholder, each with [required: true] or without [required]. *)
Theorem extractParameters_keeps_path_parameters (method path : string) (alias : Alias)
    (g g' : Generator) (r : parametersExtracted) :
  bool_decide (default "" (type alias) ∈ ["multipart"; "stream"]) = false ->
  truthy (js_get "pathParameters" (openapi alias)) = false ->
  truthy (js_get "queryParameters" (openapi alias)) = false ->
  extractParameters method path alias g = Ok (r, g') ->
  exists paths queries,
    parameters r = paths ++ queries
    /\ Forall2 path_parameter_named (placeholders path) paths
    /\ Forall (query_parameter_beside (placeholders path)) queries.
Proof.
intros Hordinary Hpath Hquery He. unfold extractParameters in He.
unfold pathParameters in He. rewrite Hpath in He. cbn [lift] in He.
apply bind_Ok in He. destruct He as [pathParams [g0 [Hp He]]].
injection Hp as <- <-. rewrite Hordinary, Hquery in He. cbn [negb orb] in He.
assert (Hnames : map (js_get "name") (extractParamsFromUrl path)
                 = map VStr (placeholders path)).
{ unfold extractParamsFromUrl. rewrite map_map. reflexivity. }
assert (Hinit : Forall2 path_parameter_named (placeholders path)
                  (extractParamsFromUrl path)).
{ unfold extractParamsFromUrl. generalize (placeholders path) as l. intros l.
  induction l as [|n l IH]; cbn [map]; constructor; [repeat split | exact IH]. }
match type of He with (if ?c then _ else _) _ = _ => destruct c end.
- apply bind_Ok in He. destruct He as [metas [g1 [_ He]]].
  apply bind_Ok in He. destruct He as [params [g2 [Hparams He]]].
  apply bind_Ok in He. destruct He as [body [g3 [_ He]]].
  apply ret_Ok in He. destruct He as [-> _]. cbn [parameters].
  apply bind_Ok in Hparams. destruct Hparams as [queryParameters [g4 [_ Hfold]]].
  rewrite Hnames in Hfold.
  rewrite <- (app_nil_r (extractParamsFromUrl path)) in Hfold.
  eapply query_parameters_shape; [exact Hinit | constructor | exact Hfold].
- apply ret_Ok in He. destruct He as [-> _]. cbn [parameters].
  exists (extractParamsFromUrl path), []. rewrite app_nil_r. split; [reflexivity |].
  split; [exact Hinit | constructor].
Qed.
End QueryParameters.

Section Passing.
Context `{Constants} `{Collaborators}.

Lemma route_step_keeps (a a' : Assembly) (alias : Alias) (g g' : Generator) :
  route_step a alias g = Ok (a', g') ->
  (forall k, k <> "tags" -> k <> "servers" -> k <> "paths" ->
     js_lookup k (doc a') = js_lookup k (doc a))
  /\ (List.NoDup (js_keys (doc a)) -> List.NoDup (js_keys (doc a'))).
Proof.
intros Hs. unfold route_step in Hs.
set (document := if truthy (js_get "paths" (VObj (doc a))) then doc a
                 else js_set "paths" (VObj []) (doc a)) in Hs.
assert (Hdoc : (forall k, k <> "paths" -> js_lookup k document = js_lookup k (doc a))
               /\ (List.NoDup (js_keys (doc a)) -> List.NoDup (js_keys document))).
{ subst document. destruct (truthy (js_get "paths" (VObj (doc a)))); [auto |].
  split; [| apply js_set_NoDup]. intros k Hk. apply js_lookup_set_ne. congruence. }
destruct Hdoc as [Hdl Hdn].
minv'.
match goal with Hf : mfold _ _ _ _ = Ok _ |- _ => apply path_actions_frame in Hf;
  cbn [doc] in Hf; destruct Hf as [Hframe Hnd2] end.
cbn [doc]. split.
- intros k Ht Hsv Hp. rewrite js_lookup_set_ne by congruence.
  rewrite Hframe by assumption. apply Hdl. exact Hp.
- intros Hnd. apply js_set_NoDup. auto.
Qed.

Lemma route_steps_keep (l : list Alias) (a a' : Assembly) (g g' : Generator) :
  mfold route_step l a g = Ok (a', g') ->
  (forall k, k <> "tags" -> k <> "servers" -> k <> "paths" ->
     js_lookup k (doc a') = js_lookup k (doc a))
  /\ (List.NoDup (js_keys (doc a)) -> List.NoDup (js_keys (doc a'))).
Proof.
revert a g. induction l as [|alias l IH]; intros a g Hf; cbn [mfold] in Hf.
- minv. auto.
- minv. match goal with Hr : route_step _ _ _ = Ok _ |- _ =>
    destruct (route_step_keeps _ _ _ _ _ Hr) as [Hk1 Hn1] end.
  destruct (IH _ _ Hf) as [Hk2 Hn2]. split; [| auto].
  intros k Ht Hsv Hp. rewrite Hk2, Hk1 by assumption. reflexivity.
Qed.

Lemma finish_keeps (a : Assembly) (g g' : Generator) (d : value) (k : string) :
  List.NoDup (js_keys (doc a)) ->
  k <> "tags" -> k <> "components" -> is_extension k = false ->
  finish a g = Ok (d, g') ->
  match js_lookup k (doc a) with
  | Some x => exists x', removeExtensions x = Ok x' /\ js_lookup k (props_of d) = Some x'
  | None => js_lookup k (props_of d) = None
  end.
Proof.
intros Hnd Ht Hc Hext Hf. unfold finish in Hf. minv.
match goal with Hr : removeExtensions (VObj ?top) = Ok _ |- _ =>
  assert (Htop : List.NoDup (js_keys top) /\ js_lookup k top = js_lookup k (doc a));
  [| destruct Htop as [Hnd' Hl];
     destruct (removeExtensions_object_Ok _ _ Hnd' Hr) as [es [-> [_ Hes]]] ]
end.
{ destruct (js_get "tags" (VObj (doc a))); try discriminate;
    match goal with Ht : Ok _ = Ok _ |- _ => injection Ht as <- end;
    (split; [repeat apply js_set_NoDup; exact Hnd
            | rewrite ?js_lookup_set_ne by congruence; reflexivity]). }
specialize (Hes k). rewrite Hl in Hes. cbn [props_of].
destruct (js_lookup k (doc a)) as [x |]; [| exact Hes].
rewrite Hext in Hes. exact Hes.
Qed.

Lemma seed_keeps (openApiVersion : string) (g g' : Generator) (a : Assembly) :
  List.NoDup (js_keys (document g)) ->
  seed openApiVersion g = Ok (a, g') ->
  List.NoDup (js_keys (doc a))
  /\ (forall k, ~ In k ("openapi" :: assembled_keys) ->
        js_lookup k (doc a) = js_lookup k (document g))
  /\ (js_lookup "openapi" (document g) = None
      \/ truthy (js_get "openapi" (VObj (document g))) = true ->
      js_lookup "openapi" (doc a) = Some (VStr (openApiVersion +:+ ".0"))).
Proof.
intros Hnd Hs. unfold seed in Hs.
set (g1 := if truthy (js_get "openapi" (VObj (document g)))
           then mkGenerator (components g) (js_delete "openapi" (document g))
                  (warnings g ++ ["setting manually the openapi version is not supported"])
           else g) in Hs.
assert (Hg1 : List.NoDup (js_keys (document g1))
              /\ (forall k, k <> "openapi" ->
                    js_lookup k (document g1) = js_lookup k (document g))
              /\ (js_lookup "openapi" (document g) = None
                  \/ truthy (js_get "openapi" (VObj (document g))) = true ->
                  js_lookup "openapi" (document g1) = None)).
{ subst g1. destruct (truthy (js_get "openapi" (VObj (document g)))) eqn:Et; cbn [document].
  - split; [apply js_delete_NoDup; exact Hnd |]. split.
    + intros k Hk. apply js_delete_lookup_ne. congruence.
    + intros _. unfold js_delete.
      rewrite (js_lookup_filter_key (fun k => negb (String.eqb "openapi" k))). reflexivity.
  - split; [exact Hnd |]. split; [auto |]. intros [Hn | Hn]; [exact Hn | discriminate]. }
destruct Hg1 as [Hnd1 [Hk1 Ho1]]. minv. injection Hs as <- _. cbn [doc].
match goal with |- context [if ?c then js_delete _ ?d else _] =>
  assert (Hd : List.NoDup (js_keys d)
               /\ (forall k, ~ In k ("openapi" :: assembled_keys) ->
                     js_lookup k d = js_lookup k (document g))
               /\ (js_lookup "openapi" (document g) = None
                   \/ truthy (js_get "openapi" (VObj (document g))) = true ->
                   js_lookup "openapi" d = Some (VStr (openApiVersion +:+ ".0"))));
  [| destruct c]
end.
{ split; [| split].
  - repeat apply js_set_NoDup. apply js_spread_NoDup.
    simpl. constructor; [simpl; tauto | constructor].
  - intros k Hk.
    rewrite !js_lookup_set_ne by (intros Heq; apply Hk; rewrite <- Heq; simpl; auto 10).
    rewrite js_lookup_spread by exact Hnd1.
    rewrite Hk1 by (intros Heq; apply Hk; rewrite Heq; simpl; auto 10).
    destruct (js_lookup k (document g)); [reflexivity |].
    cbn [js_lookup].
    rewrite eqb_false_ne by (intros Heq; apply Hk; rewrite Heq; simpl; auto 10).
    reflexivity.
  - intros Ho. rewrite !js_lookup_set_ne by discriminate.
    rewrite js_lookup_spread by exact Hnd1. rewrite (Ho1 Ho). reflexivity. }
- destruct Hd as [Hdn [Hdk Hdo]]. split; [apply js_delete_NoDup; exact Hdn |]. split.
  + intros k Hk. rewrite js_delete_lookup_ne; [apply Hdk; exact Hk |].
    intros Heq. apply Hk. rewrite <- Heq. simpl. auto 10.
  + intros Ho. rewrite js_delete_lookup_ne by discriminate. apply Hdo. exact Ho.
- exact Hd.
Qed.

(** X16.  The version of the returned document is that of the call: a
    version the base document sets is discarded, and the document's
    [openapi] is the requested version followed by [.0]. *)
Theorem generate_sets_the_version (openApiVersion : string) (aliases l : list Alias)
    (g : Generator) (d : value) (w : list string) :
  is_extension "openapi" = false ->
  List.NoDup (js_keys (document g)) ->
  js_lookup "openapi" (document g) = None
  \/ truthy (js_get "openapi" (VObj (document g))) = true ->
  generate openApiVersion aliases g = (l, Ok (d, w)) ->
  js_lookup "openapi" (props_of d) = Some (VStr (openApiVersion +:+ ".0")).
Proof.
intros Hext Hnd Ho Hg. apply generate_Ok in Hg.
destruct Hg as [_ [a0 [g0 [a1 [g1 [g2 [Hseed [Hfold [Hfin _]]]]]]]]].
destruct (seed_keeps _ _ _ _ Hnd Hseed) as [Hnd0 [_ Hv]].
destruct (route_steps_keep _ _ _ _ _ Hfold) as [Hk Hn].
pose proof (finish_keeps a1 g1 g2 d "openapi" (Hn Hnd0)
              ltac:(discriminate) ltac:(discriminate) Hext Hfin) as Hf.
rewrite Hk, (Hv Ho) in Hf by discriminate.
destruct Hf as [x' [Hx' Hl]]. cbn in Hx'. injection Hx' as <-. exact Hl.
Qed.

(** X17.  A field of the base document that [generate] does not compute
    itself is passed to the returned document, without the marker keys it
    may hold. *)
Theorem generate_passes_the_base_fields (openApiVersion : string) (aliases l : list Alias)
    (g : Generator) (d : value) (w : list string) (k : string) (x : value) :
  List.NoDup (js_keys (document g)) ->
  ~ In k ("openapi" :: assembled_keys) ->
  is_extension k = false ->
  js_lookup k (document g) = Some x ->
  generate openApiVersion aliases g = (l, Ok (d, w)) ->
  exists x', removeExtensions x = Ok x' /\ js_lookup k (props_of d) = Some x'.
Proof.
intros Hnd Hk Hext Hx Hg. apply generate_Ok in Hg.
destruct Hg as [_ [a0 [g0 [a1 [g1 [g2 [Hseed [Hfold [Hfin _]]]]]]]]].
destruct (seed_keeps _ _ _ _ Hnd Hseed) as [Hnd0 [Hkeep _]].
destruct (route_steps_keep _ _ _ _ _ Hfold) as [Hk1 Hn].
assert (Hne : forall k', In k' ("openapi" :: assembled_keys) -> k <> k')
  by (intros k' Hin ->; exact (Hk Hin)).
pose proof (finish_keeps a1 g1 g2 d k (Hn Hnd0)
              (Hne "tags" ltac:(simpl; auto 10)) (Hne "components" ltac:(simpl; auto 10))
              Hext Hfin) as Hf.
rewrite Hk1 in Hf
  by (first [apply (Hne "tags") | apply (Hne "servers") | apply (Hne "paths")];
      simpl; auto 10).
rewrite (Hkeep k Hk), Hx in Hf. exact Hf.
Qed.
End Passing.

(** ** The mappers of numbers and strings *)

(** X18.  The bounds of a number: an [equal] that is set decides both; a
    [min] or [max] that is set comes next, and only then [positive] or
    [negative], with the bound 0. *)
Theorem number_mapper_bounds (rule : props) :
  js_get "type" (number_mapper (VObj rule)) = VStr "number"
  /\ js_get "minimum" (number_mapper (VObj rule))
     = (if truthy (js_get "equal" (VObj rule)) then js_get "equal" (VObj rule)
        else if truthy (js_get "min" (VObj rule)) then js_get "min" (VObj rule)
        else if truthy (js_get "positive" (VObj rule)) then VNum 0
        else VUndef)
  /\ js_get "maximum" (number_mapper (VObj rule))
     = (if truthy (js_get "equal" (VObj rule)) then js_get "equal" (VObj rule)
        else if truthy (js_get "max" (VObj rule)) then js_get "max" (VObj rule)
        else if truthy (js_get "negative" (VObj rule)) then VNum 0
        else VUndef).
Proof.
unfold number_mapper.
destruct (truthy (js_get "positive" (VObj rule))), (truthy (js_get "negative" (VObj rule))),
  (truthy (js_get "max" (VObj rule))), (truthy (js_get "min" (VObj rule))),
  (truthy (js_get "equal" (VObj rule))); repeat split; reflexivity.
Qed.

Lemma string_mapper_Ok (RegExp_source : value -> result string) (fvRule schema : value) :
  string_mapper RegExp_source fvRule = Ok schema ->
  exists o, schema = VObj o.
Proof.
unfold string_mapper. intros Hs. apply rbind_Ok in Hs. destruct Hs as [[s e] [_ Hs]].
injection Hs as <-. eauto.
Qed.

(** X19.  The lengths of a string: an exact [length] that is truthy
    decides both [minLength] and [maxLength]; otherwise they are the
    [min] and the [max] of the rule.  The [enum] of the rule is passed on. *)
Theorem string_mapper_lengths (RegExp_source : value -> result string)
    (fvRule : props) (schema : value) :
  string_mapper RegExp_source (VObj fvRule) = Ok schema ->
  js_get "type" schema = VStr "string"
  /\ js_get "minLength" schema
     = (if truthy (js_get "length" (VObj fvRule)) then js_get "length" (VObj fvRule)
        else js_get "min" (VObj fvRule))
  /\ js_get "maxLength" schema
     = (if truthy (js_get "length" (VObj fvRule)) then js_get "length" (VObj fvRule)
        else js_get "max" (VObj fvRule))
  /\ js_get "enum" schema = js_get "enum" (VObj fvRule).
Proof.
unfold string_mapper. intros Hs.
apply rbind_Ok in Hs. destruct Hs as [[s e] [Hchain Hs]]. injection Hs as <-.
destruct (truthy (js_get "length" (VObj fvRule)));
  (destruct (truthy (js_get "pattern" (VObj fvRule)));
   [apply rbind_Ok in Hchain; destruct Hchain as [src [_ Hchain]] |
    destruct (truthy (js_get "contains" (VObj fvRule)));
    [| destruct (truthy (js_get "numeric" (VObj fvRule)));
       [| destruct (truthy (js_get "alpha" (VObj fvRule)));
          [| destruct (truthy (js_get "alphanum" (VObj fvRule)));
             [| destruct (truthy (js_get "alphadash" (VObj fvRule)));
                [| destruct (truthy (js_get "singleLine" (VObj fvRule)));
                   [| destruct (truthy (js_get "hex" (VObj fvRule)));
                      [| destruct (truthy (js_get "base64" (VObj fvRule)))]]]]]]]]);
  injection Hchain as <- <-;
  match goal with |- context [if ?c then _ else _] => destruct c end;
  repeat split; reflexivity.
Qed.

(** X20.  The pattern and the format of a string: a [pattern] of the rule
    comes first and [contains] second, and with either no format is set;
    otherwise the first flag that is set, in the order numeric, alpha,
    alphanum, alphadash, singleLine, hex, base64, decides both. *)
Theorem string_mapper_format (RegExp_source : value -> result string)
    (fvRule : props) (schema : value) :
  string_mapper RegExp_source (VObj fvRule) = Ok schema ->
  (truthy (js_get "pattern" (VObj fvRule)) = true ->
   (exists source,
      RegExp_source (js_get "pattern" (VObj fvRule)) = Ok source
      /\ js_get "pattern" schema = VStr source)
   /\ js_get "format" schema = VUndef)
  /\ (forall text,
        truthy (js_get "pattern" (VObj fvRule)) = false ->
        js_get "contains" (VObj fvRule) = VStr text -> text <> "" ->
        js_get "pattern" schema = VStr (".*" +:+ text +:+ ".*")
        /\ js_get "format" schema = VUndef)
  /\ (truthy (js_get "pattern" (VObj fvRule)) = false ->
      truthy (js_get "contains" (VObj fvRule)) = false ->
      js_get "pattern" schema
      = match first_flag (VObj fvRule) with Some f => VStr (fst (snd f)) | None => VUndef end
      /\ js_get "format" schema
         = match first_flag (VObj fvRule) with Some f => VStr (snd (snd f)) | None => VUndef end).
Proof.
unfold string_mapper, first_flag, string_flags. cbn [List.find fst snd]. intros Hs.
apply rbind_Ok in Hs. destruct Hs as [[s e] [Hchain Hs]]. injection Hs as <-.
split; [| split].
- intros Hp. rewrite Hp in Hchain.
  apply rbind_Ok in Hchain. destruct Hchain as [src [Hsrc Hchain]].
  destruct (truthy (js_get "length" (VObj fvRule)));
    injection Hchain as <- <-;
    match goal with |- context [if truthy ?c then js_set "examples" _ _ else _] =>
      destruct (truthy c) end;
    (split; [exists src; split; [exact Hsrc | reflexivity] | reflexivity]).
- intros text Hp Ht Hn.
  assert (Hc : truthy (js_get "contains" (VObj fvRule)) = true).
  { rewrite Ht. cbn [truthy]. apply String.eqb_neq in Hn. rewrite Hn. reflexivity. }
  rewrite Hp, Hc, Ht in Hchain.
  destruct (truthy (js_get "length" (VObj fvRule)));
    injection Hchain as <- <-;
    match goal with |- context [if truthy ?c then js_set "examples" _ _ else _] =>
      destruct (truthy c) end;
    split; reflexivity.
- intros Hp Hc. rewrite Hp, Hc in Hchain.
  destruct (truthy (js_get "length" (VObj fvRule)));
    (destruct (truthy (js_get "numeric" (VObj fvRule)));
     [| destruct (truthy (js_get "alpha" (VObj fvRule)));
        [| destruct (truthy (js_get "alphanum" (VObj fvRule)));
           [| destruct (truthy (js_get "alphadash" (VObj fvRule)));
              [| destruct (truthy (js_get "singleLine" (VObj fvRule)));
                 [| destruct (truthy (js_get "hex" (VObj fvRule)));
                    [| destruct (truthy (js_get "base64" (VObj fvRule)))]]]]]]);
    injection Hchain as <- <-;
    match goal with |- context [if truthy ?c then js_set "examples" _ _ else _] =>
      destruct (truthy c) end;
    split; reflexivity.
Qed.

(** ** The conversion of a rule *)

Section RuleConversionFacts.
Context `{Constants}.
Variable getRuleFromSchema : value -> result value.
Variable mappers : string -> option (value -> value -> result value).

(** X21.  The markers of a converted rule.  When the conversion of an
    object rule returns an object, the fragment has the optional marker
    [true] if the compiled rule, over the parent's properties, is
    optional; and when the rule has a [$$oa], the description, summary and
    deprecated markers of the fragment are those of the [$$oa], whatever
    the mapper has set. *)
Theorem convertRule_markers (rule : props) (parentProperties parentSchema compiled : value)
    (fragment : props) :
  List.NoDup EOAExtensions_values ->
  getRuleFromSchema (VObj rule) = Ok compiled ->
  convertRule (Some getRuleFromSchema) mappers (VObj rule) parentProperties parentSchema
  = Ok (VObj fragment) ->
  (truthy (js_get "optional" (merged_rule parentProperties (js_get "schema" compiled)))
   = true ->
   js_lookup EOA_optional fragment = Some (VBool true))
  /\ (truthy (js_get "$$oa" (VObj rule)) = true ->
      js_lookup EOA_description fragment
      = Some (js_get "description" (js_get "$$oa" (VObj rule)))
      /\ js_lookup EOA_summary fragment
         = Some (js_get "summary" (js_get "$$oa" (VObj rule)))
      /\ js_lookup EOA_deprecated fragment
         = Some (js_get "deprecated" (js_get "$$oa" (VObj rule)))).
Proof.
intros Hnd Hcompiled Hc. unfold convertRule in Hc.
destruct (mappers "string") as [stringMapper |]; [| discriminate].
rewrite Hcompiled in Hc. cbn [rbind] in Hc.
apply rbind_Ok in Hc. destruct Hc as [schema [_ Hc]].
destruct (negb (truthy schema)); [discriminate |].
apply rbind_Ok in Hc. destruct Hc as [schema1 [Hopt Hc]].
unfold EOAExtensions_values in Hnd.
assert (Hdist : EOA_optional <> EOA_description /\ EOA_optional <> EOA_summary
                /\ EOA_optional <> EOA_deprecated /\ EOA_description <> EOA_summary
                /\ EOA_description <> EOA_deprecated /\ EOA_summary <> EOA_deprecated).
{ inversion Hnd as [|? ? H1 Hnd1]; subst. inversion Hnd1 as [|? ? H2 Hnd2]; subst.
  inversion Hnd2 as [|? ? H3 _]; subst. cbn [In] in *.
  repeat split; intros Heq; intuition congruence. }
destruct Hdist as [Hod [Hos [Hodp [Hds [Hdd Hsd]]]]].
unfold rule_extensions in Hc.
destruct (truthy (js_get "$$oa" (VObj rule))) eqn:Eoa.
- cbn [map fold_left fst snd rbind] in Hc.
  destruct schema1 as [| | | | | l | o1]; try discriminate.
  cbn [js_assign rbind] in Hc. injection Hc as <-. split.
  + intros Ho. rewrite Ho in Hopt.
    destruct schema as [| | | | | l | o0]; try discriminate.
    cbn [js_assign] in Hopt. injection Hopt as <-.
    rewrite !js_lookup_set_ne by congruence. apply js_lookup_set_eq.
  + intros _. split; [| split].
    * rewrite !js_lookup_set_ne by congruence. apply js_lookup_set_eq.
    * rewrite js_lookup_set_ne by congruence. apply js_lookup_set_eq.
    * apply js_lookup_set_eq.
- cbn [fold_left] in Hc. injection Hc as ->. split; [| discriminate].
  intros Ho. rewrite Ho in Hopt.
  destruct schema as [| | | | | l | o0]; try discriminate.
  cbn [js_assign] in Hopt. injection Hopt as <-. apply js_lookup_set_eq.
Qed.
End RuleConversionFacts.

(** ** Nested fragments *)

Section Nesting.
Context `{Constants}.

End Nesting.

(** ** The cache key of the generated document *)


(** ** The servers of the generated document *)

Lemma rmap_Forall2 {A B : Type} (f : A -> result B) (l : list A) (l' : list B) :
  rmap f l = Ok l' -> Forall2 (fun x x' => f x = Ok x') l l'.
Proof.
revert l'. induction l as [|x l IH]; intros l' Hr; simpl in Hr.
- injection Hr as <-. constructor.
- destruct (f x) as [x' |] eqn:Ex; [| discriminate]. simpl in Hr.
  destruct (rmap f l) as [l0 |]; [| discriminate]. injection Hr as <-.
  constructor; [exact Ex | apply IH; reflexivity].
Qed.

Section Servers.
Context `{Constants} `{Collaborators}.

Lemma removeExtensions_get (k : string) (s s' : value) :
  unique_keys s -> is_extension k = false ->
  removeExtensions s = Ok s' ->
  removeExtensions (js_get k s) = Ok (js_get k s').
Proof.
intros Hu Hk Hs. destruct s as [| | b | n | str | l | o]; try discriminate;
  try (injection Hs as <-; reflexivity).
- cbn [removeExtensions] in Hs. apply rbind_Ok in Hs. destruct Hs as [l' [_ Hs]].
  injection Hs as <-. reflexivity.
- destruct (removeExtensions_object_Ok o s' (Hu o eq_refl) Hs) as [es [-> [_ Hes]]].
  specialize (Hes k). unfold js_get.
  destruct (js_lookup k o) as [x |].
  + rewrite Hk in Hes. destruct Hes as [x' [Hx' ->]]. exact Hx'.
  + rewrite Hes. reflexivity.
Qed.

Lemma removeExtensions_strict_eq (x y x' y' : value) :
  removeExtensions x = Ok x' -> removeExtensions y = Ok y' ->
  strict_eq x' y' = strict_eq x y.
Proof.
intros Hx Hy.
assert (Hshape : forall v v', removeExtensions v = Ok v' ->
          v' = v \/ ((exists l, v = VArr l) \/ (exists o, v = VObj o))
                    /\ ((exists l, v' = VArr l) \/ (exists o, v' = VObj o))).
{ intros v v' Hv. destruct v as [| | b | n | str | l | o]; try discriminate;
    try (injection Hv as <-; left; reflexivity).
  - cbn [removeExtensions] in Hv. apply rbind_Ok in Hv. destruct Hv as [l' [_ Hv]].
    injection Hv as <-. right. split; left; eauto.
  - rewrite removeExtensions_object in Hv. apply rbind_Ok in Hv.
    destruct Hv as [es [_ Hv]]. injection Hv as <-. right. split; right; eauto. }
assert (Hleft : forall a b, (exists l, a = VArr l) \/ (exists o, a = VObj o) ->
          strict_eq a b = false /\ strict_eq b a = false).
{ intros a b [[l ->] | [o ->]]; destruct b; split; reflexivity. }
destruct (Hshape _ _ Hx) as [-> | [Hx1 Hx2]]; destruct (Hshape _ _ Hy) as [-> | [Hy1 Hy2]].
- reflexivity.
- rewrite (proj2 (Hleft y' x Hy2)), (proj2 (Hleft y x Hy1)). reflexivity.
- rewrite (proj1 (Hleft x' y Hx2)), (proj1 (Hleft x y Hx1)). reflexivity.
- rewrite (proj1 (Hleft x' y' Hx2)), (proj1 (Hleft x y Hx1)). reflexivity.
Qed.

Lemma distinct_urls_stripped (l l' : list value) :
  is_extension "url" = false ->
  Forall unique_keys l ->
  Forall2 (fun s s' => removeExtensions s = Ok s') l l' ->
  distinct_urls l' = distinct_urls l.
Proof.
intros Hurl Hu Hall. induction Hall as [|s s' l l' Hs Hall IH]; [reflexivity |].
inversion Hu as [|? ? Hus Hul]; subst. cbn [distinct_urls]. rewrite (IH Hul). f_equal. f_equal.
pose proof (removeExtensions_get "url" s s' Hus Hurl Hs) as Hsu.
clear IH Hu. induction Hall as [|t t' l l' Ht Hall IH]; [reflexivity |].
inversion Hul as [|? ? Hut Hul']; subst. cbn [existsb]. rewrite (IH Hul'). f_equal.
apply removeExtensions_strict_eq; [| exact Hsu].
apply removeExtensions_get; assumption.
Qed.

Lemma servers_listed_set (d : props) (k : string) (v : value) :
  k <> "servers" -> servers_listed d -> servers_listed (js_set k v d).
Proof.
intros Hk [l [Hl Hd]]. exists l. rewrite js_get_set_ne by congruence. auto.
Qed.

Lemma servers_listed_lookup (d d' : props) :
  js_lookup "servers" d' = js_lookup "servers" d ->
  servers_listed d -> servers_listed d'.
Proof.
intros Hl [l Hd]. exists l. unfold js_get in *. rewrite Hl. exact Hd.
Qed.

Lemma addServerToDocument_listed (d d' : props) (server : value) :
  servers_listed d -> unique_keys server ->
  addServerToDocument d server = Ok d' -> servers_listed d'.
Proof.
intros [l [Hl [Hd Hu]]] Hs Ha. unfold addServerToDocument in Ha.
rewrite Hl in Ha. cbn [truthy] in Ha. rewrite Hl in Ha. cbn [as_array rbind] in Ha.
destruct (existsb _ l) eqn:Ee; injection Ha as <-.
- exists l. auto.
- exists (l ++ [server])%list. rewrite js_get_set_eq. split; [reflexivity |]. split.
  + apply distinct_urls_app; assumption.
  + apply Forall_app. split; [exact Hu | constructor; [exact Hs | constructor]].
Qed.

Lemma register_tags_keep (tm : gmap string value) (l : list string) (d d' : props)
    (k : string) :
  k <> "tags" ->
  fold_left (register_tag tm) l (Ok d) = Ok d' -> js_lookup k d' = js_lookup k d.
Proof.
intros Hk. revert d. induction l as [|tag l IH]; intros d Hf.
- injection Hf as <-. reflexivity.
- cbn [fold_left] in Hf. unfold register_tag at 2 in Hf. cbn [rbind] in Hf.
  destruct (as_array (js_get "tags" (VObj d))) as [docTags |] eqn:Et; cbn [rbind] in Hf;
    [| rewrite register_tag_Err in Hf; discriminate].
  match type of Hf with fold_left _ _ (if ?c then _ else _) = _ => destruct c end.
  + rewrite (IH _ Hf). apply js_lookup_set_ne. congruence.
  + apply (IH _ Hf).
Qed.

Lemma handleTags_keeps (d d' : props) (tm : gmap string value) (tags : value)
    (u : list string) (k : string) :
  k <> "tags" ->
  handleTags d tm tags = Ok (d', u) -> js_lookup k d' = js_lookup k d.
Proof.
intros Hk Ha. unfold handleTags in Ha.
apply rbind_Ok in Ha. destruct Ha as [ts [_ Ha]].
apply rbind_Ok in Ha. destruct Ha as [d1 [Hf Ha]]. injection Ha as <- _.
rewrite (register_tags_keep _ _ _ _ k Hk Hf).
destruct (truthy (js_get "tags" (VObj d))); [reflexivity |].
apply js_lookup_set_ne. congruence.
Qed.

Lemma new_operation_listed (alias : Alias) (openapiPath : string) (pathAction : PathAction)
    (a a' : Assembly) (g g' : Generator) (operation : value) :
  servers_listed (doc a) -> unique_keys (alias_server alias) ->
  new_operation alias openapiPath pathAction a g = Ok ((operation, a'), g') ->
  servers_listed (doc a').
Proof.
intros Hl Hu Hn. unfold new_operation in Hn. minv'.
match goal with Hh : handleTags _ _ _ = Ok _ |- _ =>
  apply (handleTags_keeps _ _ _ _ _ "servers" ltac:(discriminate)) in Hh;
  pose proof (servers_listed_lookup _ _ Hh Hl) as Hl1 end.
injection Hn as _ Ha'. subst a'. cbn [doc].
destruct (truthy (alias_server alias)).
- minv. eapply addServerToDocument_listed; eassumption.
- minv. assumption.
Qed.

Lemma path_action_listed (alias : Alias) (openapiPath : string) (pathAction : PathAction)
    (currentPath currentPath' : value) (a a' : Assembly) (g g' : Generator) :
  servers_listed (doc a) -> unique_keys (alias_server alias) ->
  path_action alias openapiPath (currentPath, a) pathAction g = Ok ((currentPath', a'), g') ->
  servers_listed (doc a').
Proof.
intros Hl Hu Hp. unfold path_action in Hp.
destruct (truthy (js_get (method pathAction) currentPath)).
- minv'. destruct a0.
  + minv'. injection Hp as _ Ha'. subst a'. cbn [doc].
    eapply addServerToDocument_listed; eassumption.
  + minv'. injection Hp as _ Ha'. subst a'. exact Hl.
- minv'. injection Hp as _ Ha'. subst. eapply new_operation_listed; eassumption.
Qed.

Lemma route_step_listed (a a' : Assembly) (alias : Alias) (g g' : Generator) :
  servers_listed (doc a) -> unique_keys (alias_server alias) ->
  route_step a alias g = Ok (a', g') -> servers_listed (doc a').
Proof.
intros Hl Hu Hs. unfold route_step in Hs.
set (document := if truthy (js_get "paths" (VObj (doc a))) then doc a
                 else js_set "paths" (VObj []) (doc a)) in Hs.
assert (Hdoc : servers_listed document).
{ subst document. destruct (truthy (js_get "paths" (VObj (doc a)))); [exact Hl |].
  apply servers_listed_set; [discriminate | exact Hl]. }
minv'.
match goal with Hf : mfold _ _ _ _ = Ok _ |- _ =>
  apply (mfold_preserves (path_action alias (openapiPath_of alias))
           (fun s => servers_listed (doc (snd s)))) in Hf end.
- cbn [doc snd] in *. apply servers_listed_set; [discriminate | assumption].
- intros [cp s] x gs [cp' s'] gs' Hinv Hstep. cbn [snd] in *.
  eapply path_action_listed; eassumption.
- exact Hdoc.
Qed.

Lemma route_steps_listed (l : list Alias) (a a' : Assembly) (g g' : Generator) :
  servers_listed (doc a) -> Forall (fun alias => unique_keys (alias_server alias)) l ->
  mfold route_step l a g = Ok (a', g') -> servers_listed (doc a').
Proof.
revert a g. induction l as [|alias l IH]; intros a g Hl Hu Hf; cbn [mfold] in Hf.
- minv. exact Hl.
- inversion Hu as [|? ? Hu1 Hu2]; subst. minv.
  eapply IH; [| exact Hu2 | exact Hf]. eapply route_step_listed; eassumption.
Qed.

Lemma seed_listed (openApiVersion : string) (g g' : Generator) (a : Assembly) :
  seed openApiVersion g = Ok (a, g') -> servers_listed (doc a).
Proof.
intros Hs. unfold seed in Hs. minv. injection Hs as <- _. cbn [doc].
assert (Hd : forall d, servers_listed (js_set "components" (VObj a0)
                         (js_set "tags" (VArr []) (js_set "servers" (VArr []) d)))).
{ intros d. exists []. rewrite !js_get_set_ne by discriminate. rewrite js_get_set_eq.
  split; [reflexivity |]. split; [reflexivity | constructor]. }
match goal with |- context [if ?c then _ else _] => destruct c end; [| apply Hd].
eapply servers_listed_lookup; [| apply Hd].
apply js_delete_lookup_ne. discriminate.
Qed.

(** X24.  The document [generate] returns lists no server url twice,
    however many routes declare the server. *)
Theorem generate_lists_each_server_url_once (openApiVersion : string)
    (aliases l : list Alias) (g : Generator) (d : value) (w : list string) :
  is_extension "servers" = false ->
  is_extension "url" = false ->
  List.NoDup (js_keys (document g)) ->
  Forall declares_plain_server aliases ->
  generate openApiVersion aliases g = (l, Ok (d, w)) ->
  exists servers,
    js_lookup "servers" (props_of d) = Some (VArr servers)
    /\ distinct_urls servers = true.
Proof.
intros Hsv Hurl Hnd Hu Hg. apply generate_Ok in Hg.
destruct Hg as [-> [a0 [g0 [a1 [g1 [g2 [Hseed [Hfold [Hfin _]]]]]]]]].
destruct (seed_keeps _ _ _ _ Hnd Hseed) as [Hnd0 _].
destruct (route_steps_keep _ _ _ _ _ Hfold) as [_ Hn].
assert (Hu' : Forall (fun alias => unique_keys (alias_server alias))
                (Array_sort (getAlphabeticSorter fullPath) aliases)).
{ eapply Permutation_Forall; [apply Array_sort_Permutation |].
  eapply Forall_impl; [exact Hu |]. intros alias [Hk _]. exact Hk. }
pose proof (route_steps_listed _ _ _ _ _ (seed_listed _ _ _ _ Hseed) Hu' Hfold)
  as [servers [Hl [Hd Hk]]].
pose proof (finish_keeps a1 g1 g2 d "servers" (Hn Hnd0)
              ltac:(discriminate) ltac:(discriminate) Hsv Hfin) as Hf.
unfold js_get in Hl. destruct (js_lookup "servers" (doc a1)) as [x |]; [| discriminate].
cbn [default] in Hl. change (id x) with x in Hl. subst x.
destruct Hf as [x' [Hx' Hlx]]. cbn [removeExtensions] in Hx'.
apply rbind_Ok in Hx'. destruct Hx' as [servers' [Hr Hx']]. injection Hx' as <-.
exists servers'. split; [exact Hlx |].
rewrite (distinct_urls_stripped servers servers' Hurl Hk (rmap_Forall2 _ _ _ Hr)).
exact Hd.
Qed.
End Servers.

(** ** The responses of the base document *)

Section Responses.
Context `{Constants} `{Collaborators}.

Lemma removeExtensions_falsy (x x' : value) :
  truthy x = false -> removeExtensions x = Ok x' -> x' = x.
Proof.
intros Ht Hx. destruct x; try discriminate; injection Hx as <-; reflexivity.
Qed.

Lemma finish_lookup (a : Assembly) (g g' : Generator) (d : value) (k : string) :
  List.NoDup (js_keys (doc a)) ->
  k <> "tags" -> k <> "components" ->
  finish a g = Ok (d, g') ->
  exists es,
    d = VObj es
    /\ match js_lookup k (doc a) with
       | Some x =>
           if is_extension k then js_lookup k es = None
           else exists x', removeExtensions x = Ok x' /\ js_lookup k es = Some x'
       | None => js_lookup k es = None
       end.
Proof.
intros Hnd Ht Hc Hf. unfold finish in Hf. minv.
match goal with Hr : removeExtensions (VObj ?top) = Ok _ |- _ =>
  assert (Htop : List.NoDup (js_keys top) /\ js_lookup k top = js_lookup k (doc a));
  [| destruct Htop as [Hnd' Hl];
     destruct (removeExtensions_object_Ok _ _ Hnd' Hr) as [es [-> [_ Hes]]] ]
end.
{ destruct (js_get "tags" (VObj (doc a))); try discriminate;
    match goal with Ht : Ok _ = Ok _ |- _ => injection Ht as <- end;
    (split; [repeat apply js_set_NoDup; exact Hnd
            | rewrite ?js_lookup_set_ne by congruence; reflexivity]). }
exists es. split; [reflexivity |]. specialize (Hes k). rewrite Hl in Hes. exact Hes.
Qed.

Lemma seed_responses (openApiVersion : string) (g g' : Generator) (a : Assembly) :
  seed openApiVersion g = Ok (a, g') ->
  truthy (js_get "responses" (VObj (doc a))) = false.
Proof.
intros Hs. unfold seed in Hs. minv. injection Hs as <- _. cbn [doc].
match goal with |- context [if ?c then _ else _] => destruct c eqn:Et end; [| exact Et].
unfold js_get, js_delete.
rewrite (js_lookup_filter_key (fun k => negb (String.eqb "responses" k))). reflexivity.
Qed.

(** X25.  The document [generate] returns never has responses of its
    own: responses the base document declares beside its paths are
    dropped. *)
Theorem generate_never_returns_responses (openApiVersion : string)
    (aliases l : list Alias) (g : Generator) (d : value) (w : list string) :
  List.NoDup (js_keys (document g)) ->
  generate openApiVersion aliases g = (l, Ok (d, w)) ->
  truthy (js_get "responses" d) = false.
Proof.
intros Hnd Hg. apply generate_Ok in Hg.
destruct Hg as [_ [a0 [g0 [a1 [g1 [g2 [Hseed [Hfold [Hfin _]]]]]]]]].
destruct (seed_keeps _ _ _ _ Hnd Hseed) as [Hnd0 _].
destruct (route_steps_keep _ _ _ _ _ Hfold) as [Hk Hn].
pose proof (seed_responses _ _ _ _ Hseed) as Hr.
destruct (finish_lookup a1 g1 g2 d "responses" (Hn Hnd0)
            ltac:(discriminate) ltac:(discriminate) Hfin) as [es [-> Hes]].
rewrite Hk in Hes by discriminate. unfold js_get in *.
destruct (js_lookup "responses" (doc a0)) as [x |].
- destruct (is_extension "responses").
  + rewrite Hes. reflexivity.
  + destruct Hes as [x' [Hx' ->]]. cbn [default] in *. change (id x) with x in Hr.
    change (id x') with x'. rewrite (removeExtensions_falsy x x' Hr Hx'). exact Hr.
- rewrite Hes. reflexivity.
Qed.
End Responses.

(** ** Parameters and bodies a route declares *)

Section Declared.
Context `{Constants} `{Collaborators}.

(** X26.  A request body the route declares is used as it stands,
    whatever the type of the route: none is generated from the rule
    schema of the action. *)
Theorem extractParameters_declared_body (method path : string) (alias : Alias)
    (g g' : Generator) (r : parametersExtracted) :
  truthy (js_get "requestBody" (openapi alias)) = true ->
  extractParameters method path alias g = Ok (r, g') ->
  requestBody r = js_get "requestBody" (openapi alias).
Proof.
intros Hb He. unfold extractParameters in He.
apply bind_Ok in He. destruct He as [pathParams [g0 [_ He]]].
rewrite Hb in He. cbn [negb] in He. rewrite orb_true_r in He. cbn [orb] in He.
destruct (bool_decide (default "" (type alias) ∈ ["multipart"; "stream"])).
- apply bind_Ok in He. destruct He as [body [g1 [Hbody He]]].
  apply ret_Ok in Hbody. destruct Hbody as [-> _].
  apply ret_Ok in He. destruct He as [-> _]. reflexivity.
- apply bind_Ok in He. destruct He as [metas [g1 [_ He]]].
  apply bind_Ok in He. destruct He as [params [g2 [_ He]]].
  apply bind_Ok in He. destruct He as [body [g3 [Hbody He]]].
  apply ret_Ok in Hbody. destruct Hbody as [-> _].
  apply ret_Ok in He. destruct He as [-> _]. reflexivity.
Qed.

(** X27.  Query parameters an ordinary route declares replace the
    parameters of the operation: each declared parameter is placed in the
    query, and the parameters of the placeholders of the path are not
    among the result. *)
Theorem declared_query_parameters_replace_path_parameters (method path : string)
    (alias : Alias) (g g' : Generator) (r : parametersExtracted) :
  bool_decide (default "" (type alias) ∈ ["multipart"; "stream"]) = false ->
  truthy (js_get "queryParameters" (openapi alias)) = true ->
  extractParameters method path alias g = Ok (r, g') ->
  exists overrides,
    js_get "queryParameters" (openapi alias) = VArr overrides
    /\ length (parameters r) = length overrides
    /\ Forall (fun p => js_get "in" p = VStr "query") (parameters r).
Proof.
intros Hordinary Hq He. unfold extractParameters in He.
apply bind_Ok in He. destruct He as [pathParams [g0 [_ He]]].
rewrite Hordinary, Hq in He. cbn [negb orb] in He.
apply bind_Ok in He. destruct He as [metas [g1 [_ He]]].
apply bind_Ok in He. destruct He as [params [g2 [Hparams He]]].
apply bind_Ok in He. destruct He as [body [g3 [_ He]]].
apply ret_Ok in He. destruct He as [-> _]. cbn [parameters].
apply bind_Ok in Hparams. destruct Hparams as [overrides [g4 [Ho Hparams]]].
apply lift_Ok in Ho. destruct Ho as [Ho _].
apply ret_Ok in Hparams. destruct Hparams as [-> _].
destruct (js_get "queryParameters" (openapi alias)) as [| | | | | l |]; try discriminate.
injection Ho as <-. exists l. split; [reflexivity |]. split; [apply length_map |].
apply Forall_map. apply Forall_forall. intros p _. apply js_get_set_eq.
Qed.
End Declared.

(** ** The properties on the sample configuration *)

#[local] Existing Instance Sample.constants.
#[local] Existing Instance Sample.collaborators.

Lemma users_books_run :
  generate "3.1" [Sample.users; Sample.books] (new_generator Sample.base)
  = ([Sample.books; Sample.users], Ok (Sample.users_books_document, [])).
Proof. vm_compute. reflexivity. Qed.

Lemma books_users_run :
  generate "3.1" [Sample.books; Sample.users] (new_generator Sample.base)
  = ([Sample.books; Sample.users], Ok (Sample.users_books_document, [])).
Proof. vm_compute. reflexivity. Qed.

Lemma generate_sorts_the_routes_in_place_witness :
  generate "3.1" [Sample.users; Sample.books] (new_generator Sample.base)
  = ([Sample.books; Sample.users], Ok (Sample.users_books_document, []))
  /\ ([Sample.books; Sample.users]
      = Array_sort (getAlphabeticSorter fullPath) [Sample.users; Sample.books]
      /\ Permutation [Sample.users; Sample.books] [Sample.books; Sample.users]
      /\ StronglySorted path_le [Sample.books; Sample.users]).
Proof.
  split; [vm_compute; reflexivity |].
  apply (generate_sorts_the_routes_in_place "3.1" [Sample.users; Sample.books]
           [Sample.books; Sample.users] (new_generator Sample.base)
           Sample.users_books_document []).
  vm_compute. reflexivity.
Defined.

Lemma generate_document_marker_free_witness :
  generate "3.1" [Sample.users; Sample.books] (new_generator Sample.base)
  = ([Sample.books; Sample.users], Ok (Sample.users_books_document, []))
  /\ marker_free Sample.users_books_document = true.
Proof.
  split; [vm_compute; reflexivity |].
  apply (generate_document_marker_free "3.1" [Sample.users; Sample.books]
           [Sample.books; Sample.users] (new_generator Sample.base)
           Sample.users_books_document []).
  vm_compute. reflexivity.
Defined.

Lemma generate_paths_ascending_by_full_path_witness :
  path_keys Sample.users_books_document = ["/books"; "/users/{id}"]
  /\ In "/users/{id}" (path_keys Sample.users_books_document).
Proof.
  destruct (generate_paths_ascending_by_full_path "3.1"
              [Sample.users; Sample.books] [Sample.books; Sample.users]
              [Sample.books; Sample.users] [Sample.books; Sample.users]
              (new_generator Sample.base)
              Sample.users_books_document Sample.users_books_document [] [])
    as [_ [Hin _]].
  - reflexivity.
  - simpl. constructor; [simpl; tauto | constructor].
  - reflexivity.
  - apply perm_swap.
  - vm_compute. reflexivity.
  - vm_compute. reflexivity.
  - split; [reflexivity |]. apply (Hin Sample.users); [left; reflexivity | reflexivity].
Defined.

(** C1 as the spec states it fails: the base document declares the schema
    [users.create], the route [users] generates a component of this name,
    and the returned document has the generated component, an object, where
    the document's own entry was a string schema. *)
Lemma document_component_is_overwritten :
  exists document w,
    snd (generate "3.1" [Sample.users] (new_generator Sample.base_with_component))
    = Ok (document, w)
    /\ js_path ["components"; "schemas"; "users.create"] (VObj Sample.base_with_component)
       = VObj [("type", VStr "string")]
    /\ js_path ["components"; "schemas"; "users.create"; "type"] document = VStr "object"
    /\ js_path ["components"; "schemas"; "users.create"; "required"] document
       = VArr [VStr "name"].
Proof.
  eexists. eexists. split; [vm_compute; reflexivity |].
  split; [reflexivity |]. split; reflexivity.
Qed.

Lemma mergeComponents_store_takes_precedence_witness :
  mergeComponents
    [("schemas", VObj [("A", VStr "of the document"); ("B", VStr "of the document")])]
    [("schemas", VObj [("A", VStr "generated")])]
  = Ok [("schemas", VObj [("A", VStr "generated"); ("B", VStr "of the document")])]
  /\ js_lookup "A"
       (props_of
          (js_get "schemas"
             (VObj [("schemas",
                      VObj [("A", VStr "generated"); ("B", VStr "of the document")])])))
     = Some (VStr "generated").
Proof.
  split; [reflexivity |].
  rewrite (mergeComponents_store_takes_precedence
             [("schemas", VObj [("A", VStr "of the document"); ("B", VStr "of the document")])]
             [("schemas", VObj [("A", VStr "generated")])]
             [("schemas", VObj [("A", VStr "generated"); ("B", VStr "of the document")])]
             "schemas" "A").
  - reflexivity.
  - simpl. constructor; [simpl; tauto | constructor].
  - reflexivity.
Defined.

(** C2 as the spec states it fails.  The routes [two_zero] and [one_a] are
    registered; the document lists the servers of both services.  The route
    [two_a] meets the path and method of [one_a], and the guard holds: its
    server is appended to the servers of the operation and nothing is
    logged, but the global server list, which has a server of this url
    already, is left as it is. *)
Lemma server_not_appended_to_global_list :
  match (let* a := seed "3.1" in mfold route_step [Sample.two_zero; Sample.one_a] a)
          (new_generator []) with
  | Ok (a, g) =>
      let currentPath := js_path ["paths"; "/a"] (VObj (doc a)) in
      adds_server (js_get "get" currentPath) Sample.two_a = Ok true
      /\ js_get "servers" (VObj (doc a))
         = VArr [Sample.server "https://two"; Sample.server "https://one"]
      /\ match path_action Sample.two_a "/a" (currentPath, a) Sample.get_two_a g with
         | Ok ((currentPath', a'), g') =>
             js_path ["get"; "servers"] currentPath'
             = VArr [Sample.server "https://one"; Sample.server "https://two"]
             /\ js_get "servers" (VObj (doc a'))
                = VArr [Sample.server "https://two"; Sample.server "https://one"]
             /\ warnings g' = warnings g
         | Err _ => False
         end
  | Err _ => False
  end.
Proof. vm_compute. repeat split. Qed.

(** A route meets an operation that has the server of another service:
    its server is appended.  A route meets an operation that was
    registered without a server: the operation has an empty list of
    servers, and the route is skipped with a warning. *)
Lemma taken_path_and_method_witness :
  path_action Sample.two_a "/a"
    (VObj [("get", VObj [("servers", VArr [Sample.server "https://one"])])],
     mkAssembly [("servers", VArr [Sample.server "https://one"])] ∅ ∅)
    Sample.get_two_a (new_generator [])
  = Ok ((VObj [("get",
                VObj [("servers",
                       VArr [Sample.server "https://one"; Sample.server "https://two"])])],
         mkAssembly
           [("servers", VArr [Sample.server "https://one"; Sample.server "https://two"])]
           ∅ ∅),
        new_generator [])
  /\ path_action Sample.two_a "/a"
       (VObj [("get", VObj [("servers", VArr [])])],
        mkAssembly [("servers", VArr [])] (∅ : gmap string value)
          ({[ "/a.get" := VStr "one.a" ]} : gmap string value))
       Sample.get_two_a (new_generator [])
     = Ok ((VObj [("get", VObj [("servers", VArr [])])],
            mkAssembly [("servers", VArr [])] ∅ {[ "/a.get" := VStr "one.a" ]}),
           mkGenerator (components (new_generator [])) []
             ["GET /a is already register by action one.a skip"]).
Proof.
  split.
  - destruct (taken_path_and_method Sample.two_a "/a" Sample.get_two_a
                (VObj [("get", VObj [("servers", VArr [Sample.server "https://one"])])])
                (mkAssembly [("servers", VArr [Sample.server "https://one"])] ∅ ∅)
                (new_generator []) eq_refl) as [Hadd _].
    exact (Hadd [Sample.server "https://one"] [Sample.server "https://one"]
             eq_refl ltac:(discriminate) eq_refl eq_refl eq_refl).
  - destruct (taken_path_and_method Sample.two_a "/a" Sample.get_two_a
                (VObj [("get", VObj [("servers", VArr [])])])
                (mkAssembly [("servers", VArr [])] ∅ {[ "/a.get" := VStr "one.a" ]})
                (new_generator []) eq_refl) as [_ [Hskip _]].
    exact (Hskip (or_intror (or_introl eq_refl))).
Defined.


(** An upload bound to an action with the root-level rule schema
    [{ $$root: true, type: 'string' }] throws; with the rule schema
    [{ name: { type: 'string' } }] its body composes the file field and
    the component ["files.save"]. *)
Lemma multipart_body_of_rule_schema_witness :
  generateFileUploadBody
    (Sample.upload "/upload" "files.save"
       (VObj [("$$root", VBool true); ("type", VStr "string")]))
    [] (new_generator [])
  = Err "$$root parameters is not supported on multipart"
  /\ exists g' properties,
       generateFileUploadBody (Sample.upload "/upload" "files.save" Sample.name_field)
         [] (new_generator [])
       = Ok (upload_body (VStr "multipart/form-data")
               [("allOf",
                  VArr [file_object (Sample.upload "/upload" "files.save" Sample.name_field);
                        schema_ref "files.save"])], g')
       /\ js_lookup "files.save" (props_of (schemas_of g'))
          = Some (object_component properties ["name"] (VObj []))
       /\ js_keys properties = ["name"].
Proof.
split.
- apply (multipart_body_of_rule_schema
           (Sample.upload "/upload" "files.save"
              (VObj [("$$root", VBool true); ("type", VStr "string")]))
           [] (new_generator []) eq_refl).
  reflexivity.
- destruct (multipart_body_of_rule_schema
              (Sample.upload "/upload" "files.save" Sample.name_field)
              [] (new_generator []) eq_refl) as [_ Hobject].
  apply (Hobject "files.save" [("name", Sample.rule "string")] ["multipart/form-data"]
           [("name", VObj [("type", VStr "string")])]).
  + reflexivity.
  + discriminate.
  + reflexivity.
  + reflexivity.
  + reflexivity.
  + reflexivity.
  + intros k r [Heq | []]. injection Heq as _ <-.
    eapply wf_fragment_object; [reflexivity | | | |].
    * intros Hc. vm_compute in Hc. discriminate Hc.
    * intros _ Hc. vm_compute in Hc. discriminate Hc.
    * intros _ _ property [<- | [<- | [<- | []]]] Hc; vm_compute in Hc; discriminate Hc.
    * intros _ _ property schemas s [<- | [<- | [<- | []]]] Hc; vm_compute in Hc;
        discriminate Hc.
  + repeat constructor; simpl; intuition discriminate.
  + eexists. split; [reflexivity |]. constructor.
Defined.

(** C8, at an action name with a slash.  After the route of the action
    ["a"], the body of the route of the action ["a/type"] is emitted with
    the required flag [false], while the component stored under ["a/type"]
    requires the field ["name"]: [getComponentByRef] splits the reference
    [#/components/schemas/a/type] at every slash and resolves it to the
    [type] of the component ["a"]. *)
Theorem required_component_with_optional_body :
  (exists r0,
     extractParameters "post" "/a" Sample.a_route (new_generator [])
     = Ok (r0, Sample.after_a))
  /\ exists r g',
       extractParameters "post" "/b" Sample.a_type_route Sample.after_a = Ok (r, g')
       /\ js_path ["content"; "undefined"; "schema"] (requestBody r)
          = schema_ref "a/type"
       /\ js_get "required" (stored "a/type" g') = VArr [VStr "name"]
       /\ js_get "required" (requestBody r) = VBool false.
Proof.
split.
- eexists. vm_compute. reflexivity.
- eexists. eexists. split; [vm_compute; reflexivity |].
  split; [reflexivity |]. split; reflexivity.
Qed.

Lemma generated_body_required_witness :
  exists fields properties,
    body_fields "post" "/users/:id" Sample.users
      [("name", Sample.rule "string");
       ("age", VObj [("type", VStr "number"); ("optional", VBool true)])]
    = Ok fields
    /\ js_lookup "users.create" (props_of (schemas_of Sample.after_users))
       = Some (object_component properties (required_fields fields) (VObj []))
    /\ js_get "required" (requestBody Sample.users_extracted)
       = VBool (Nat.ltb 0 (length (required_fields fields)))
    /\ (js_get "required" (requestBody Sample.users_extracted) = VBool true
        <-> required_fields fields <> []).
Proof.
apply (generated_body_required "post" "/users/:id" Sample.users "users.create"
         [("name", Sample.rule "string");
          ("age", VObj [("type", VStr "number"); ("optional", VBool true)])]
         (new_generator []) Sample.after_users Sample.users_extracted).
- reflexivity.
- reflexivity.
- reflexivity.
- reflexivity.
- reflexivity.
- repeat constructor; simpl; intuition discriminate.
- reflexivity.
- eexists. split; [reflexivity |]. constructor.
- vm_compute. reflexivity.
- discriminate.
Defined.


Lemma removeExtensions_idempotent_witness :
  removeExtensions Cases.marked = Ok Cases.stripped
  /\ removeExtensions Cases.stripped = Ok Cases.stripped.
Proof.
split; [reflexivity |].
apply (removeExtensions_idempotent Cases.marked Cases.stripped). reflexivity.
Defined.

Lemma cleanComponents_drops_false_witness :
  exists section',
    js_lookup "schemas" Cases.switched_clean = Some (VObj section')
    /\ forall name,
         js_lookup name section'
         = match js_lookup name
                   [("A", VObj [("type", VStr "string")]); ("B", VBool false)] with
           | Some (VBool false) => None
           | entry => entry
           end.
Proof.
apply (cleanComponents_drops_false Cases.switched Cases.switched_clean "schemas"
         [("A", VObj [("type", VStr "string")]); ("B", VBool false)]).
- reflexivity.
- repeat constructor; simpl; intuition discriminate.
- reflexivity.
- repeat constructor; simpl; intuition discriminate.
Defined.

Lemma cleanComponents_idempotent_witness :
  cleanComponents (VObj Cases.switched) = Ok Cases.switched_clean
  /\ cleanComponents (VObj Cases.switched_clean) = Ok Cases.switched_clean.
Proof.
split; [reflexivity |].
apply (cleanComponents_idempotent (VObj Cases.switched) Cases.switched_clean). reflexivity.
Defined.

Lemma addServerToDocument_distinct_urls_witness :
  distinct_urls (servers_of Cases.two_servers) = true
  /\ exists added, servers_of Cases.two_servers = servers_of Cases.one_server ++ added.
Proof.
apply (addServerToDocument_distinct_urls Cases.one_server Cases.two_servers
         (Sample.server "https://two")); reflexivity.
Defined.

Lemma addServerToDocument_idempotent_witness :
  addServerToDocument Cases.two_servers (Sample.server "https://two") = Ok Cases.two_servers
  /\ existsb (fun srv => strict_eq (js_get "url" srv) (VStr "https://two"))
       (servers_of Cases.two_servers) = true.
Proof.
apply (addServerToDocument_idempotent Cases.one_server Cases.two_servers
         (Sample.server "https://two") "https://two"); reflexivity.
Defined.

Lemma handleTags_files_each_tag_once_witness :
  handleTags [] Cases.tags_map (VArr [VStr "users"; VStr "ghost"; VStr "users"])
  = Ok ([("tags", VArr [Cases.users_tag])], ["users"; "ghost"])
  /\ List.NoDup (tag_names [("tags", VArr [Cases.users_tag])])
  /\ In (VStr "users") (tag_names [("tags", VArr [Cases.users_tag])]).
Proof.
assert (Hrun : handleTags [] Cases.tags_map (VArr [VStr "users"; VStr "ghost"; VStr "users"])
               = Ok ([("tags", VArr [Cases.users_tag])], ["users"; "ghost"]))
  by (vm_compute; reflexivity).
split; [exact Hrun |].
assert (Hnamed : named_tags Cases.tags_map).
{ intros tag tagObject Hl _. unfold Cases.tags_map in Hl.
  apply lookup_singleton_Some in Hl. destruct Hl as [<- <-]. reflexivity. }
destruct (handleTags_files_each_tag_once [] [("tags", VArr [Cases.users_tag])]
            Cases.tags_map ["users"; "ghost"; "users"] ["users"; "ghost"]
            Hnamed eq_refl Hrun ltac:(constructor)) as [Hnd [_ [Hcover _]]].
split; [exact Hnd |].
apply (Hcover "users" Cases.users_tag); [left; reflexivity | | reflexivity].
unfold Cases.tags_map. apply lookup_singleton_eq.
Defined.

Lemma params_are_shared_out_witness :
  exists metas body query,
    getMetas (VObj Cases.mixed_schema) = Ok metas
    /\ getParameters "post" (VObj Cases.mixed_schema) true = Ok body
    /\ getParameters "post" (VObj Cases.mixed_schema) false = Ok query
    /\ js_keys metas = ["$$strict"] /\ js_keys body = ["name"] /\ js_keys query = ["page"].
Proof.
destruct (params_are_shared_out "post" Cases.mixed_schema) as [metas [body [query Hall]]].
- repeat constructor; simpl; intuition discriminate.
- exists metas, body, query. destruct Hall as [Hm [Hb [Hq _]]].
  split; [exact Hm |]. split; [exact Hb |]. split; [exact Hq |].
  vm_compute in Hm, Hb, Hq. injection Hm as <-. injection Hb as <-. injection Hq as <-.
  repeat split.
Defined.

Lemma getSchemaObjectFromSchema_keeps_every_rule_witness :
  getSchemaObjectFromSchema (VObj Cases.secret_schema)
  = Ok [("name", VObj [("type", VStr "string")]); ("secret", VUndef)]
  /\ js_keys [("name", VObj [("type", VStr "string")]); ("secret", VUndef)]
     = ["name"; "secret"].
Proof.
split; [reflexivity |].
destruct (getSchemaObjectFromSchema_keeps_every_rule Cases.secret_schema
            [("name", VObj [("type", VStr "string")]); ("secret", VUndef)]) as [Hkeys _].
- repeat constructor; simpl; intuition discriminate.
- reflexivity.
- exact Hkeys.
Defined.

Lemma registered_reference_resolves_witness :
  getComponent (schema_ref "A") Sample.registered_once
  = Ok (stored "A" Sample.registered_once, Sample.registered_once)
  /\ js_get "type" (stored "A" Sample.registered_once) = VStr "object".
Proof.
apply (registered_reference_resolves "A" Sample.name_field (VObj []) (schema_ref "A")
         (new_generator []) Sample.registered_once).
- reflexivity.
- discriminate.
- reflexivity.
- eexists. split; [reflexivity |]. constructor.
- vm_compute. reflexivity.
Defined.

Lemma dangling_reference_witness :
  getComponentByRef (VStr "#/components/schemas/B") Sample.registered_once
  = Ok (VUndef, Sample.registered_once)
  /\ exists e, getComponent (schema_ref "B") Sample.registered_once = Err e.
Proof.
apply (dangling_reference "B" Sample.registered_once).
- reflexivity.
- eexists. split; [reflexivity |]. simpl. constructor; [simpl; tauto | constructor].
- reflexivity.
Defined.

Lemma extractParameters_keeps_path_parameters_witness :
  exists paths queries,
    parameters Cases.user_by_id_extracted = paths ++ queries
    /\ Forall2 path_parameter_named ["id"] paths
    /\ Forall (query_parameter_beside ["id"]) queries.
Proof.
apply (extractParameters_keeps_path_parameters "get" "/users/{id}" Cases.user_by_id
         (new_generator []) (new_generator []) Cases.user_by_id_extracted).
- reflexivity.
- reflexivity.
- reflexivity.
- vm_compute. reflexivity.
Defined.

Lemma generate_sets_the_version_witness :
  js_lookup "openapi" (props_of Cases.versioned_document) = Some (VStr "3.1.0").
Proof.
apply (generate_sets_the_version "3.1" [Sample.users] [Sample.users]
         (new_generator Cases.versioned_base) Cases.versioned_document
         ["setting manually the openapi version is not supported"]).
- reflexivity.
- repeat constructor; simpl; intuition discriminate.
- right. reflexivity.
- vm_compute. reflexivity.
Defined.

Lemma generate_passes_the_base_fields_witness :
  exists x',
    removeExtensions (VObj [("title", VStr "API")]) = Ok x'
    /\ js_lookup "info" (props_of Cases.versioned_document) = Some x'.
Proof.
apply (generate_passes_the_base_fields "3.1" [Sample.users] [Sample.users]
         (new_generator Cases.versioned_base) Cases.versioned_document
         ["setting manually the openapi version is not supported"] "info").
- repeat constructor; simpl; intuition discriminate.
- simpl. intuition discriminate.
- reflexivity.
- reflexivity.
- vm_compute. reflexivity.
Defined.

Lemma string_mapper_lengths_witness :
  js_get "type" Cases.code_fragment = VStr "string"
  /\ js_get "minLength" Cases.code_fragment = VNum 5
  /\ js_get "maxLength" Cases.code_fragment = VNum 5
  /\ js_get "enum" Cases.code_fragment = VUndef.
Proof.
apply (string_mapper_lengths Cases.source Cases.code_rule Cases.code_fragment). reflexivity.
Defined.

Lemma string_mapper_format_witness :
  js_get "pattern" Cases.hex_fragment = VStr "^[a-zA-Z0-9]+$"
  /\ js_get "format" Cases.hex_fragment = VStr "alphanum".
Proof.
destruct (string_mapper_format Cases.source Cases.hex_rule Cases.hex_fragment eq_refl)
  as [_ [_ Hflag]].
apply Hflag; reflexivity.
Defined.

Lemma convertRule_markers_witness :
  js_lookup "x-fastest-optional" Cases.age_fragment = Some (VBool true)
  /\ js_lookup "x-fastest-description" Cases.age_fragment = Some (VStr "The age").
Proof.
destruct (convertRule_markers Cases.compile Cases.two_mappers Cases.age_rule VUndef VUndef
            (VObj [("schema", VObj Cases.age_rule)]) Cases.age_fragment) as [Hopt Hoa].
- repeat constructor; simpl; intuition discriminate.
- reflexivity.
- vm_compute. reflexivity.
- split; [apply Hopt; reflexivity |]. destruct (Hoa eq_refl) as [Hd _]. exact Hd.
Defined.


Lemma generate_lists_each_server_url_once_witness :
  exists servers,
    js_lookup "servers" (props_of Cases.served_document) = Some (VArr servers)
    /\ distinct_urls servers = true.
Proof.
eapply (generate_lists_each_server_url_once "3.1"
          [Sample.two_a; Sample.one_a; Sample.two_zero] _
          (new_generator Sample.base) Cases.served_document _).
- reflexivity.
- reflexivity.
- repeat constructor; simpl; intuition discriminate.
- repeat constructor; intros o Ho; vm_compute in Ho; injection Ho as <-;
    repeat constructor; simpl; intuition discriminate.

- vm_compute. reflexivity.
Defined.

Lemma generate_never_returns_responses_witness :
  truthy (js_get "responses" (VObj Cases.answered_base)) = true
  /\ truthy (js_get "responses" Cases.answered_document) = false.
Proof.
split; [reflexivity |].
eapply (generate_never_returns_responses "3.1" [Sample.books] _
          (new_generator Cases.answered_base) Cases.answered_document _).
- repeat constructor; simpl; intuition discriminate.
- vm_compute. reflexivity.
Defined.

Lemma extractParameters_declared_body_witness :
  requestBody Cases.described_extracted = Cases.declared_body.
Proof.
eapply (extractParameters_declared_body "put" "/files/{id}" Cases.described
          (new_generator []) _ Cases.described_extracted).
- reflexivity.
- vm_compute. reflexivity.
Defined.

Lemma declared_query_parameters_replace_path_parameters_witness :
  placeholders "/users/{id}" = ["id"]
  /\ exists overrides,
       js_get "queryParameters" (openapi Cases.paged) = VArr overrides
       /\ length (parameters Cases.paged_extracted) = length overrides
       /\ Forall (fun p => js_get "in" p = VStr "query") (parameters Cases.paged_extracted).
Proof.
split; [reflexivity |].
eapply (declared_query_parameters_replace_path_parameters "get" "/users/{id}" Cases.paged
          (new_generator []) _ Cases.paged_extracted).
- reflexivity.
- reflexivity.
- vm_compute. reflexivity.
Defined.




(** C3, at a rule schema with a forbidden field in a nested object.  The
    converter of the source omits the field and keeps its key: the
    fragment of [address] has the properties [street] and [secret], the
    second without a fragment.  The registration of these properties
    reads the optional marker of [undefined]: the body of the upload is
    not produced, and [generate] throws a TypeError, which is not the
    fatal error of a root-level schema.  With the forbidden field beside
    the object instead of in it, the field is dropped and the body is the
    composition of the file field and the component of the action. *)
Theorem multipart_nested_omitted_field_throws :
  (exists fragments,
     @getSchemaObjectFromSchema Cases.source_converter (VObj Cases.nested_params)
     = Ok fragments
     /\ js_get "type" (js_get "address" (VObj fragments)) = VStr "object"
     /\ js_keys (props_of (js_path ["address"; "properties"] (VObj fragments)))
        = ["street"; "secret"]
     /\ js_path ["address"; "properties"; "secret"] (VObj fragments) = VUndef)
  /\ @generateFileUploadBody _ Cases.source_converter Cases.nested_upload []
       (new_generator [])
     = Err "TypeError: Cannot read properties of undefined or null"
  /\ snd (@generate _ Cases.source_converter "3.1" [Cases.nested_upload]
            (new_generator []))
     = Err "TypeError: Cannot read properties of undefined or null"
  /\ exists g',
       @generateFileUploadBody _ Cases.source_converter Cases.flat_upload []
         (new_generator [])
       = Ok (VObj
               [("required", VBool true);
                ("content",
                  VObj
                    [("multipart/form-data",
                      VObj
                        [("schema",
                          VObj
                            [("allOf",
                              VArr
                                [VObj
                                   [("type", VStr "object");
                                    ("properties",
                                      VObj
                                        [("file",
                                          VObj
                                            [("type", VStr "array");
                                             ("items",
                                               VObj [("type", VStr "string");
                                                     ("format", VStr "binary")]);
                                             ("maxItems", VUndef)])]);
                                    ("required", VArr [VStr "file"])];
                                 VObj [("$ref",
                                        VStr "#/components/schemas/files.upload")]])])])])],
             g')
       /\ js_keys (props_of (js_get "properties" (stored "files.upload" g'))) = ["name"].
Proof.
  split.
  - eexists. split; [vm_compute; reflexivity |]. repeat split.
  - split; [vm_compute; reflexivity |]. split; [vm_compute; reflexivity |].
    eexists. split; [vm_compute; reflexivity | reflexivity].
Qed.

(** The same upload, by the general lemma. *)
Lemma upload_of_nested_omitted_field_throws_witness :
  exists e,
    @generateFileUploadBody _ Cases.source_converter Cases.nested_upload []
      (new_generator [])
    = Err e.
Proof.
  eapply (@upload_of_nested_omitted_field_throws _ Cases.source_converter
            Cases.nested_upload [] (new_generator []) "files.upload" "address" "secret"
            Cases.nested_params).
  - reflexivity.
  - reflexivity.
  - discriminate.
  - reflexivity.
  - reflexivity.
  - vm_compute. reflexivity.
  - left. reflexivity.
  - reflexivity.
  - reflexivity.
  - right. left. reflexivity.
Defined.
